(** * The query-and-verify orchestration of the SxT Proof of SQL SDK (JS clients)

    Three JavaScript clients are embedded here:

    - [Chainlink.queryAndVerify]: the synchronous client of
      [chainlink-functions/source/index.js] (class [SxTClient]);
    - [Async.queryAndVerify]: the asynchronous ([HYPER_KZG]) [SxTClient], which
      submits a job, polls its status and verifies the fetched result;
    - [Ts.proofOfSqlQuery]: the function of [ts-proof-of-sql-sdk/dist/index.js].

    A second synchronous [SxTClient] repeats the [queryAndVerify] of the first
    one on wasm bindings and on private methods ([#getCommitment], [#getProof])
    that are not among the sources; it is not embedded.

    The clients are sequential [async] functions.  Each [await] is a point
    where the outside world answers; the world is a parameter ([World]) that
    sees the whole history of the run, and every effect of a client (an HTTP
    request, a sleep, a call into the wasm planner/verifier) is appended to a
    trace.  A run either returns a value, throws, or stays pending forever. *)

From Stdlib Require Import String Ascii List Bool Arith ZArith Lia DecimalString.
Import ListNotations.
Local Open Scope string_scope.
Local Open Scope list_scope.
Set Warnings "-register-all".

(** ** JavaScript values *)

(** What [JSON.parse] can produce, plus [undefined] (the value of a missing
    property).  Numbers are restricted to integers. *)
Inductive JsVal : Type :=
| JUndefined
| JNull
| JBool (b : bool)
| JNum (n : Z)
| JStr (s : string)
| JArr (items : list JsVal)
| JObj (fields : list (string * JsVal)).

(** Values a run can be rejected with. *)
Inductive Thrown : Type :=
| Error (message : string)        (* [throw Error(..)], [throw new Error(..)] *)
| TypeError (message : string)    (* raised by the runtime, not by a [throw] *)
| AbortError                      (* [fetch] rejected through [controller.abort()] *)
| NetworkError (reason : string)  (* [fetch] rejected by the transport *)
| SyntaxError                     (* [response.json()] rejected *)
| WasmError (payload : JsVal).    (* [throw takeObject(r1)] of a wasm wrapper *)

(** JS truthiness, as used by [!x], [!!x] and [x ? a : b]. *)
Definition truthy (v : JsVal) : bool :=
  match v with
  | JUndefined | JNull => false
  | JBool b => b
  | JNum n => negb (Z.eqb n 0)
  | JStr s => negb (String.eqb s EmptyString)
  | JArr _ | JObj _ => true
  end.

Fixpoint assoc (k : string) (fields : list (string * JsVal)) : JsVal :=
  match fields with
  | [] => JUndefined
  | (k', v) :: rest => if String.eqb k k' then v else assoc k rest
  end.

Inductive Outcome (A : Type) : Type :=
| Returned (a : A)
| Threw (e : Thrown)
| Hung.
Arguments Returned {A} a.
Arguments Threw {A} e.
Arguments Hung {A}.

(** [v.p] for a data property [p] that no prototype defines ([accessToken],
    [result], [status], ...): a [TypeError] on [null] and [undefined], the own
    property of an object, [undefined] otherwise. *)
Definition member (p : string) (v : JsVal) : Outcome JsVal :=
  match v with
  | JUndefined =>
      Threw (TypeError ("Cannot read properties of undefined (reading '" ++ p ++ "')"))
  | JNull =>
      Threw (TypeError ("Cannot read properties of null (reading '" ++ p ++ "')"))
  | JObj fields => Returned (assoc p fields)
  | _ => Returned JUndefined
  end.

Fixpoint string_drop (n : nat) (s : string) : string :=
  match n, s with
  | O, _ => s
  | S n', String _ s' => string_drop n' s'
  | S _, EmptyString => EmptyString
  end.

(** [v.slice(2)]: strings and arrays have the method. *)
Definition slice2 (v : JsVal) : Outcome JsVal :=
  match v with
  | JUndefined =>
      Threw (TypeError "Cannot read properties of undefined (reading 'slice')")
  | JNull =>
      Threw (TypeError "Cannot read properties of null (reading 'slice')")
  | JStr s => Returned (JStr (string_drop 2 s))
  | JArr items => Returned (JArr (skipn 2 items))
  | _ => Threw (TypeError "slice is not a function")
  end.

Definition string_of_Z (n : Z) : string := NilZero.string_of_int (Z.to_int n).
Definition string_of_nat (n : nat) : string := NilZero.string_of_uint (Nat.to_uint n).

Fixpoint join (sep : string) (l : list string) : string :=
  match l with
  | [] => EmptyString
  | [s] => s
  | s :: rest => s ++ sep ++ join sep rest
  end.

(** String conversion, as done by template literals and by ["Bearer " + x]. *)
Fixpoint js_to_string (v : JsVal) : string :=
  match v with
  | JUndefined => "undefined"
  | JNull => "null"
  | JBool true => "true"
  | JBool false => "false"
  | JNum n => string_of_Z n
  | JStr s => s
  | JArr items =>
      join "," (map (fun x => match x with
                              | JUndefined | JNull => EmptyString
                              | _ => js_to_string x
                              end) items)
  | JObj _ => "[object Object]"
  end.

(** [x === "..."] *)
Definition strict_eq_str (v : JsVal) (s : string) : bool :=
  match v with
  | JStr s' => String.eqb s' s
  | _ => false
  end.

(** ** HTTP *)

Inductive Method : Type := GET | POST.

Record Request : Type := mkRequest {
  method : Method;
  url : string;
  headers : list (string * string);
  body : option JsVal   (* the value handed to [JSON.stringify]; [None] = no body *)
}.

Record Response : Type := mkResponse {
  status : nat;
  statusText : string;
  payload : option JsVal   (* what [json()] resolves to; [None]: it rejects *)
}.

(** [response.ok] *)
Definition ok (r : Response) : bool := ((200 <=? status r) && (status r <=? 299))%nat.

Inductive Settled : Type :=
| Resolved (r : Response)
| Rejected (reason : string).

(** When the transport settles a request, in milliseconds after it was
    issued; [Never] when it does not. *)
Inductive Latency : Type :=
| After (ms : nat)
| Never.

Record Reply : Type := mkReply {
  latency : Latency;
  settled : Settled
}.

(** ** The wasm boundary *)

(** [new TableRefAndCommitment(table_ref, table_commitment_hex)] *)
Record TableRefAndCommitment : Type := mkTableRefAndCommitment {
  table_ref : string;
  table_commitment_hex : string
}.

(** [ProverQueryAndQueryExprAndCommitments] with its three getters. *)
Record ProverQueryAndQueryExprAndCommitments : Type := mkPlanned {
  prover_query_json : JsVal;
  query_expr_json : JsVal;
  commitments : list TableRefAndCommitment
}.

(** ** Traces and the world *)

Inductive Event : Type :=
| EvFetch (req : Request)
| EvSleep (ms : nat)
| EvPlan (query : string) (cs : list TableRefAndCommitment)
| EvVerifyDory (response expr : JsVal) (cs : list TableRefAndCommitment)
| EvVerifyHyperKzg (response : JsVal).

Definition Trace : Type := list Event.

(** The world answers a request knowing everything that happened before it.
    The three wasm exports are functions of their arguments; a [inl] is the
    value the JS wrapper throws.  [verify_prover_response_hyper_kzg] is
    imported by the asynchronous client from a module that is not part of the
    sources, so it is a parameter like the other two. *)
Record World : Type := mkWorld {
  net : Trace -> Request -> Reply;
  wasm_plan_prover_query_dory :
    string -> list TableRefAndCommitment ->
    JsVal + ProverQueryAndQueryExprAndCommitments;
  wasm_verify_prover_response_dory :
    JsVal -> JsVal -> list TableRefAndCommitment -> JsVal + JsVal;
  wasm_verify_prover_response_hyper_kzg : JsVal -> JsVal + JsVal
}.

(** ** The monad of [async] functions *)

Definition M (A : Type) : Type := Trace -> Outcome A * Trace.

Definition ret {A} (a : A) : M A := fun t => (Returned a, t).

Definition throw {A} (e : Thrown) : M A := fun t => (Threw e, t).

Definition bind {A B} (c : M A) (k : A -> M B) : M B :=
  fun t =>
    match c t with
    | (Returned a, t') => k a t'
    | (Threw e, t') => (Threw e, t')
    | (Hung, t') => (Hung, t')
    end.

Definition lift {A} (o : Outcome A) : M A := fun t => (o, t).

Definition emit (e : Event) : M unit := fun t => (Returned tt, t ++ [e]).

Declare Scope js_scope.
Delimit Scope js_scope with js.
Notation "x <- c ;; k" := (bind c (fun x => k))
  (at level 61, c at next level, right associativity) : js_scope.
Notation "c ;; k" := (bind c (fun _ => k))
  (at level 61, right associativity) : js_scope.
Local Open Scope js_scope.

(** The timer of [controller.abort()] beats the transport when the transport
    has not settled by the time it fires. *)
Definition aborted (signal : option nat) (l : Latency) : bool :=
  match signal, l with
  | None, _ => false
  | Some deadline, Never => true
  | Some deadline, After ms => (deadline <? ms)%nat
  end.

(** [await fetch(url, { method, headers, body, signal })].  [signal] is the
    delay after which the signal's controller is aborted, if it ever is. *)
Definition fetch (w : World) (req : Request) (signal : option nat) : M Response :=
  fun t =>
    let reply := net w t req in
    let t' := t ++ [EvFetch req] in
    if aborted signal (latency reply) then (Threw AbortError, t')
    else match latency reply with
         | Never => (Hung, t')
         | After _ =>
             match settled reply with
             | Resolved r => (Returned r, t')
             | Rejected reason => (Threw (NetworkError reason), t')
             end
         end.

(** [response.json()] *)
Definition json (r : Response) : M JsVal :=
  match payload r with
  | Some v => ret v
  | None => throw SyntaxError
  end.

(** [function sleep(ms)] *)
Definition sleep (ms : nat) : M unit := emit (EvSleep ms).

(** [plan_prover_query_dory(query, commitments)] *)
Definition plan_prover_query_dory (w : World) (query : string)
    (cs : list TableRefAndCommitment) : M ProverQueryAndQueryExprAndCommitments :=
  emit (EvPlan query cs) ;;
  match wasm_plan_prover_query_dory w query cs with
  | inl e => throw (WasmError e)
  | inr planned => ret planned
  end.

(** [verify_prover_response_dory(prover_response_json, query_expr_json, commitments)] *)
Definition verify_prover_response_dory (w : World) (response expr : JsVal)
    (cs : list TableRefAndCommitment) : M JsVal :=
  emit (EvVerifyDory response expr cs) ;;
  match wasm_verify_prover_response_dory w response expr cs with
  | inl e => throw (WasmError e)
  | inr result => ret result
  end.

(** [verify_prover_response_hyper_kzg(proverResponseJson)] *)
Definition verify_prover_response_hyper_kzg (w : World) (response : JsVal) : M JsVal :=
  emit (EvVerifyHyperKzg response) ;;
  match wasm_verify_prover_response_hyper_kzg w response with
  | inl e => throw (WasmError e)
  | inr result => ret result
  end.

(** [passStringToWasm0(arg, ..)] applied to the second constructor argument:
    it reads [arg.length] and then [arg.charCodeAt(i)] for every index, so an
    empty array goes through as the empty string. *)
Definition passStringToWasm0 (arg : JsVal) : Outcome string :=
  match arg with
  | JStr s => Returned s
  | JArr [] => Returned EmptyString
  | _ => Threw (TypeError "arg.charCodeAt is not a function")
  end.

(** [new TableRefAndCommitment(table, commitment)] *)
Definition new_TableRefAndCommitment (table : string) (commitment : JsVal)
  : M TableRefAndCommitment :=
  hex <- lift (passStringToWasm0 commitment) ;;
  ret (mkTableRefAndCommitment table hex).

(** [!this.sxtApiKey]; a missing key ([undefined], [null]) is [None]. *)
Definition key_missing (k : option string) : bool :=
  match k with
  | None => true
  | Some s => String.eqb s EmptyString
  end.

(** The message of the errors thrown on a response that is not [ok]. *)
Definition http_error (what : string) (r : Response) : Thrown :=
  Error (what ++ ": " ++ string_of_nat (status r) ++ ": " ++ statusText r).

(** [this.sxtApiKey] (or [apiKey]) converted to a header value. *)
Definition key_header (k : option string) : string :=
  match k with
  | Some s => s
  | None => "undefined"
  end.

(** ** The polling loop

    Both asynchronous clients poll with the same loop:
<<
    while (!success && count < 60) {
      count++; await sleep(1000);
      const statusResponse = <status request>;
      success = statusResponse === "done" || statusResponse === "failed"
                                           || statusResponse === "canceled";
    }
>>
    [poll_loop] is that loop with its two variables; the extra argument only
    makes the recursion structural, and [while_polling] supplies as much of it
    as the guard [count < 60] can ever use ([poll_loop_fuel]). *)

Definition is_terminal (statusResponse : JsVal) : bool :=
  strict_eq_str statusResponse "done"
  || strict_eq_str statusResponse "failed"
  || strict_eq_str statusResponse "canceled".

Fixpoint poll_loop (getStatus : M JsVal) (fuel : nat) (success : bool) (count : nat)
  : M (bool * nat) :=
  if negb success && (count <? 60)%nat then
    match fuel with
    | O => ret (success, count)
    | S fuel' =>
        sleep 1000 ;;
        statusResponse <- getStatus ;;
        poll_loop getStatus fuel' (is_terminal statusResponse) (S count)
    end
  else ret (success, count).

Definition while_polling (getStatus : M JsVal) (success : bool) (count : nat)
  : M (bool * nat) :=
  poll_loop getStatus (60 - count) success count.

(** ** The synchronous client, [chainlink-functions/source/index.js] *)

Module Chainlink.

Record SxTClient : Type := mkSxTClient {
  proverRootURL : string;
  authRootURL : string;
  substrateNodeURL : string;
  sxtApiKey : option string
}.

Section Client.
Variable w : World.
Variable this : SxTClient.

(** [postHttpRequest({ url, headers, data })]: the controller is aborted by a
    timer set to 3000 ms just before the request; the timer is cleared as soon
    as [fetch] has resolved. *)
Definition postHttpRequest (url : string) (headers : list (string * string))
    (data : JsVal) : M Response :=
  fetch w (mkRequest POST url headers (if truthy data then Some data else None))
        (Some 3000).

Definition getAccessToken : M JsVal :=
  if key_missing (sxtApiKey this) then throw (Error "API Key Not Found")
  else
    authResponse <- postHttpRequest (authRootURL this)
                      [("apikey", key_header (sxtApiKey this));
                       ("Content-Type", "application/json")] JNull ;;
    if negb (ok authResponse)
    then throw (http_error "Error querying auth endpoint" authResponse)
    else json authResponse.

Definition getCommitment (commitmentKey : string) : M JsVal :=
  commitmentResponse <- postHttpRequest (substrateNodeURL this)
                          [("Content-Type", "application/json")]
                          (JObj [("id", JNum 1); ("jsonrpc", JStr "2.0");
                                 ("method", JStr "state_getStorage");
                                 ("params", JArr [JStr commitmentKey])]) ;;
  if negb (ok commitmentResponse)
  then throw (http_error "Error querying RPC node" commitmentResponse)
  else json commitmentResponse.

Definition getProof (accessToken proverQuery : JsVal) : M JsVal :=
  proverResponse <- postHttpRequest (proverRootURL this)
                      [("Authorization", ("Bearer " ++ js_to_string accessToken)%string);
                       ("content-type", "application/json")] proverQuery ;;
  if negb (ok proverResponse)
  then throw (http_error "Error querying prover" proverResponse)
  else json proverResponse.

Definition queryAndVerify (queryString table commitmentKey : string) : M JsVal :=
  authResponse <- getAccessToken ;;
  accessToken <- lift (member "accessToken" authResponse) ;;
  commitmentResponse <- getCommitment commitmentKey ;;
  result <- lift (member "result" commitmentResponse) ;;
  commitment <- lift (slice2 result) ;;
  fetched <- new_TableRefAndCommitment table commitment ;;
  plannedProverQuery <- plan_prover_query_dory w queryString [fetched] ;;
  let proverQuery := prover_query_json plannedProverQuery in
  let queryExpr := query_expr_json plannedProverQuery in
  let commitments := commitments plannedProverQuery in
  proverResponseJson <- getProof accessToken proverQuery ;;
  verify_prover_response_dory w proverResponseJson queryExpr commitments.

End Client.
End Chainlink.

(** ** The asynchronous client ([HYPER_KZG]) *)

Module Async.

Record SxTClient : Type := mkSxTClient {
  zkQueryRootURL : string;
  authRootURL : string;
  substrateNodeURL : string;
  sxtApiKey : option string
}.

Section Client.
Variable w : World.
Variable this : SxTClient.

(** Here the controller is created and its signal passed on, but nothing ever
    calls [abort]. *)
Definition postHttpRequest (url : string) (headers : list (string * string))
    (data : JsVal) : M Response :=
  fetch w (mkRequest POST url headers (if truthy data then Some data else None))
        None.

Definition getHttpRequest (url : string) (headers : list (string * string))
  : M Response :=
  fetch w (mkRequest GET url headers None) None.

Definition getAccessToken : M JsVal :=
  if key_missing (sxtApiKey this) then throw (Error "API Key Not Found")
  else
    authResponse <- postHttpRequest (authRootURL this)
                      [("apikey", key_header (sxtApiKey this));
                       ("Content-Type", "application/json")] JNull ;;
    if negb (ok authResponse)
    then throw (http_error "Error querying auth endpoint" authResponse)
    else json authResponse.

Definition querySubstrateRpc (method : string) (params : JsVal) : M JsVal :=
  response <- postHttpRequest (substrateNodeURL this)
                [("Content-Type", "application/json")]
                (JObj [("id", JNum 1); ("jsonrpc", JStr "2.0");
                       ("method", JStr method); ("params", params)]) ;;
  if negb (ok response)
  then throw (http_error "Error querying RPC node" response)
  else json response.

(** [blockHash = null] is [None]; [!!blockHash] also fails on the empty string. *)
Definition getAttestations (blockHash : option string) : M JsVal :=
  match blockHash with
  | Some h =>
      if negb (String.eqb h EmptyString)
      then querySubstrateRpc "attestation_v1_attestationsForBlock" (JArr [JStr ("0x" ++ h)])
      else querySubstrateRpc "attestation_v1_bestRecentAttestations" JNull
  | None => querySubstrateRpc "attestation_v1_bestRecentAttestations" JNull
  end.

Definition postZkQueryApi (endpoint : string) (accessToken data : JsVal) : M JsVal :=
  proverResponse <- postHttpRequest (zkQueryRootURL this ++ endpoint)
                      [("Authorization", ("Bearer " ++ js_to_string accessToken)%string);
                       ("Content-Type", "application/json")] data ;;
  if negb (ok proverResponse)
  then throw (http_error "Error querying zk query api" proverResponse)
  else json proverResponse.

Definition getZkQueryApi (endpoint : string) (accessToken : JsVal) : M JsVal :=
  proverResponse <- getHttpRequest (zkQueryRootURL this ++ endpoint)
                      [("Authorization", ("Bearer " ++ js_to_string accessToken)%string);
                       ("Content-Type", "application/json")] ;;
  if negb (ok proverResponse)
  then throw (http_error "Error querying prover" proverResponse)
  else json proverResponse.

Definition submitZkQueryRequest (accessToken querySubmitRequest : JsVal) : M JsVal :=
  postZkQueryApi "/v1/zkquery" accessToken querySubmitRequest.

Definition getZkQueryStatus (accessToken queryId : JsVal) : M JsVal :=
  getZkQueryApi ("/v1/zkquery/" ++ js_to_string queryId ++ "/status") accessToken.

Definition getZkQueryResult (accessToken queryId : JsVal) : M JsVal :=
  getZkQueryApi ("/v1/zkquery/" ++ js_to_string queryId ++ "/results") accessToken.

(** [queryAndVerify] in three parts, in the order of its statements: up to
    [let queryId = ...]; the status check and the loop; the rest. *)

Definition submitted (queryString : string) (blockHash : option string)
  : M (JsVal * JsVal) :=
  authResponse <- getAccessToken ;;
  accessToken <- lift (member "accessToken" authResponse) ;;
  attestationsResponse <- getAttestations blockHash ;;
  attested <- lift (member "result" attestationsResponse) ;;
  bestBlockHash <- lift (member "attestationsFor" attested) ;;
  submitQueryResponse <- submitZkQueryRequest accessToken
      (JObj [("sqlText", JStr queryString); ("sourceNetwork", JStr "mainnet");
             ("commitmentScheme", JStr "HYPER_KZG");
             ("blockHash", bestBlockHash); ("timeout", JNull)]) ;;
  queryId <- lift (member "queryId" submitQueryResponse) ;;
  ret (accessToken, queryId).

(** [(await this.#getZkQueryStatus(accessToken, queryId)).status] *)
Definition statusOf (accessToken queryId : JsVal) : M JsVal :=
  response <- getZkQueryStatus accessToken queryId ;;
  lift (member "status" response).

Definition polled (accessToken queryId : JsVal) : M (bool * nat) :=
  let count := 0 in
  statusResponse <- statusOf accessToken queryId ;;
  let success := is_terminal statusResponse in
  while_polling (statusOf accessToken queryId) success count.

Definition fetchedAndVerified (accessToken queryId : JsVal) : M JsVal :=
  proverResponseJson <- getZkQueryResult accessToken queryId ;;
  verify_prover_response_hyper_kzg w proverResponseJson.

Definition queryAndVerify (queryString : string) (blockHash : option string)
  : M JsVal :=
  session <- submitted queryString blockHash ;;
  polled (fst session) (snd session) ;;
  fetchedAndVerified (fst session) (snd session).

End Client.
End Async.

(** ** [proofOfSqlQuery], [ts-proof-of-sql-sdk/dist/index.js] *)

Module Ts.

Section Sdk.
Variable w : World.

Definition getAccessToken (apiKey : option string) : M JsVal :=
  response <- fetch w (mkRequest POST "https://proxy.api.makeinfinite.dev/auth/apikey"
                         [("apikey", key_header apiKey)] None) None ;;
  parsed <- json response ;;
  lift (member "accessToken" parsed).

Definition postQuerySubmitRequest (sqlText : string) (accessToken : JsVal) : M JsVal :=
  response <- fetch w (mkRequest POST "https://api.makeinfinite.dev/v1/zkquery"
                         [("Content-Type", "application/json");
                          ("Authorization", ("Bearer " ++ js_to_string accessToken)%string)]
                         (Some (JObj [("sqlText", JStr sqlText);
                                      ("sourceNetwork", JStr "Mainnet")]))) None ;;
  parsed <- json response ;;
  lift (member "queryId" parsed).

Definition getRequestStatus (queryId accessToken : JsVal) : M JsVal :=
  response <- fetch w (mkRequest GET
                         ("https://api.makeinfinite.dev/v1/zkquery/"
                            ++ js_to_string queryId ++ "/status")%string
                         [("Authorization", ("Bearer " ++ js_to_string accessToken)%string)]
                         None) None ;;
  parsed <- json response ;;
  lift (member "status" parsed).

Definition getResults (queryId accessToken : JsVal) : M JsVal :=
  response <- fetch w (mkRequest GET
                         ("https://api.makeinfinite.dev/v1/zkquery/"
                            ++ js_to_string queryId ++ "/results")%string
                         [("Authorization", ("Bearer " ++ js_to_string accessToken)%string)]
                         None) None ;;
  json response.

(** [proofOfSqlQuery] up to [const queryId = ...], and its loop. *)
Definition submitted (query : string) (apiKey : option string) : M (JsVal * JsVal) :=
  accessToken <- getAccessToken apiKey ;;
  queryId <- postQuerySubmitRequest query accessToken ;;
  ret (accessToken, queryId).

Definition polled (accessToken queryId : JsVal) : M (bool * nat) :=
  let success := false in
  let count := 0 in
  while_polling (getRequestStatus queryId accessToken) success count.

Definition proofOfSqlQuery (query : string) (apiKey : option string) : M JsVal :=
  session <- submitted query apiKey ;;
  polled (fst session) (snd session) ;;
  getResults (snd session) (fst session).

End Sdk.
End Ts.

(** ** Observing a trace *)

Fixpoint ends_with (suffix s : string) : bool :=
  String.eqb suffix s
  || match s with
     | EmptyString => false
     | String _ s' => ends_with suffix s'
     end.

(** A request to the job-status endpoint, [GET .../status]. *)
Definition is_status (req : Request) : bool :=
  match method req with
  | GET => ends_with "/status" (url req)
  | POST => false
  end.

(** A request to the job-result endpoint, [GET .../results]. *)
Definition is_results (req : Request) : bool :=
  match method req with
  | GET => ends_with "/results" (url req)
  | POST => false
  end.

Definition fetches (p : Request -> bool) (e : Event) : bool :=
  match e with
  | EvFetch req => p req
  | _ => false
  end.

Definition is_fetch (e : Event) : bool := fetches (fun _ => true) e.

Definition is_sleep (e : Event) : bool :=
  match e with
  | EvSleep _ => true
  | _ => false
  end.

Definition is_verify (e : Event) : bool :=
  match e with
  | EvVerifyDory _ _ _ | EvVerifyHyperKzg _ => true
  | _ => false
  end.

Definition tally (p : Event -> bool) (t : Trace) : nat := length (filter p t).

Definition status_calls (t : Trace) : nat := tally (fetches is_status) t.
Definition result_calls (t : Trace) : nat := tally (fetches is_results) t.
Definition http_calls (t : Trace) : nat := tally is_fetch t.
Definition sleeps (t : Trace) : nat := tally is_sleep t.
Definition verifications (t : Trace) : nat := tally is_verify t.

(** A run of a client: started on the empty trace. *)
Definition run {A} (c : M A) : Outcome A * Trace := c [].

(** ** Mock backends *)

Definition answer (v : JsVal) : Reply :=
  mkReply (After 20) (Resolved (mkResponse 200 "OK" (Some v))).

Definition not_found : Reply :=
  mkReply (After 20) (Resolved (mkResponse 404 "Not Found" None)).

Definition proof_of_42 : JsVal := JObj [("proof", JStr "0xfeed"); ("count", JNum 42)].

(** A job backend whose status endpoint answers its [i]-th call (from 0) with
    [script i]. *)
Definition job_net (script : nat -> JsVal) (t : Trace) (req : Request) : Reply :=
  match method req with
  | POST =>
      if ends_with "/auth/apikey" (url req)
      then answer (JObj [("accessToken", JStr "tok1")])
      else if ends_with "/v1/zkquery" (url req)
      then answer (JObj [("queryId", JStr "job-7")])
      else answer (JObj [("jsonrpc", JStr "2.0"); ("id", JNum 1);
                         ("result", JObj [("attestationsFor", JStr "0xb10c")])])
  | GET =>
      if ends_with "/status" (url req)
      then answer (JObj [("status", script (status_calls t))])
      else if ends_with "/results" (url req)
      then answer proof_of_42
      else not_found
  end.

(** The mock verifier of the end-to-end scenario: it accepts [proof_of_42] and
    maps it to [{count: 42}]. *)
Definition mock_verify (response : JsVal) : JsVal + JsVal :=
  match member "count" response with
  | Returned (JNum 42) => inr (JObj [("count", JNum 42)])
  | _ => inl (JStr "verification failed")
  end.

(** A planner that normalises the table name and the commitment. *)
Definition mock_plan (query : string) (cs : list TableRefAndCommitment)
  : JsVal + ProverQueryAndQueryExprAndCommitments :=
  match cs with
  | [c] =>
      inr (mkPlanned (JObj [("query", JStr query)]) (JObj [("plan", JStr query)])
             [mkTableRefAndCommitment "ETHEREUM.TRANSACTIONS"
                ("00" ++ table_commitment_hex c)])
  | _ => inl (JStr "table/commitment mismatch")
  end.

Definition job_world (script : nat -> JsVal) : World :=
  mkWorld (job_net script) mock_plan (fun r _ _ => mock_verify r) mock_verify.

(** The script "[pending] for the first [k] calls, then [last]". *)
Definition pending_then (k : nat) (last : string) (i : nat) : JsVal :=
  if (i <? k)%nat then JStr "pending" else JStr last.

Definition async_client : Async.SxTClient :=
  Async.mkSxTClient "https://api.makeinfinite.dev"
    "https://proxy.api.makeinfinite.dev/auth/apikey"
    "https://rpc.testnet.sxt.network/" (Some "sxt-key").

(** The backend of the synchronous client; [stored] is the [result] of the
    state-read RPC and [delay] the latency of every answer. *)
Definition node_net (stored : JsVal) (delay : Latency) (t : Trace) (req : Request)
  : Reply :=
  mkReply delay
    (Resolved
       (if ends_with "/auth/apikey" (url req)
        then mkResponse 200 "OK" (Some (JObj [("accessToken", JStr "tok1")]))
        else if ends_with "/v1/prove" (url req)
        then mkResponse 200 "OK" (Some proof_of_42)
        else mkResponse 200 "OK"
               (Some (JObj [("jsonrpc", JStr "2.0"); ("id", JNum 1);
                            ("result", stored)])))).

Definition node_world (stored : JsVal) (delay : Latency) : World :=
  mkWorld (node_net stored delay) mock_plan (fun r _ _ => mock_verify r) mock_verify.

Definition sync_client : Chainlink.SxTClient :=
  Chainlink.mkSxTClient "https://api.makeinfinite.dev/v1/prove"
    "https://proxy.api.makeinfinite.dev/auth/apikey"
    "https://rpc.testnet.sxt.network/" (Some "sxt-key").

(** ** Vocabulary of the statements *)

(** [n] rounds of the loop body, all asking [req]. *)
Fixpoint rounds (req : Request) (n : nat) : Trace :=
  match n with
  | O => []
  | S n' => EvSleep 1000 :: EvFetch req :: rounds req n'
  end.

(** The status a reply of the job-status endpoint carries: the reply settles,
    is [ok], parses, and has the member [status]. *)
Definition status_said (r : Reply) : option JsVal :=
  match latency r, settled r with
  | After _, Resolved resp =>
      if ok resp
      then match payload resp with
           | Some parsed =>
               match member "status" parsed with
               | Returned v => Some v
               | _ => None
               end
           | None => None
           end
      else None
  | _, _ => None
  end.

(** The job-status endpoint answers its first [bound] calls by [script]:
    call number [i] (from 0) gets the status [script i]. *)
Definition plays (w : World) (script : nat -> JsVal) (bound : nat) : Prop :=
  forall t req,
    is_status req = true -> status_calls t < bound ->
    status_said (net w t req) = Some (script (status_calls t)).

(** [getStatus] is a status request: it issues [req] and nothing else, and
    returns the status the endpoint says. *)
Definition asks_status (w : World) (getStatus : M JsVal) (req : Request) : Prop :=
  is_status req = true /\
  forall t,
    snd (getStatus t) = t ++ [EvFetch req] /\
    forall v, status_said (net w t req) = Some v -> fst (getStatus t) = Returned v.

(** The requests of [getZkQueryStatus] / [getRequestStatus] and of
    [getZkQueryResult] / [getResults]; [hs] are the headers after
    [Authorization]. *)
Definition status_request (root : string) (accessToken queryId : JsVal)
    (hs : list (string * string)) : Request :=
  mkRequest GET (root ++ "/v1/zkquery/" ++ js_to_string queryId ++ "/status")
    (("Authorization", ("Bearer " ++ js_to_string accessToken)%string) :: hs) None.

Definition results_request (root : string) (accessToken queryId : JsVal)
    (hs : list (string * string)) : Request :=
  mkRequest GET (root ++ "/v1/zkquery/" ++ js_to_string queryId ++ "/results")
    (("Authorization", ("Bearer " ++ js_to_string accessToken)%string) :: hs) None.

Definition json_header : list (string * string) :=
  [("Content-Type", "application/json")].

Definition ts_root : string := "https://api.makeinfinite.dev".

(** Whatever the trace [c] starts on, it only appends to it, and only events
    that satisfy [P]. *)
Definition emits {A} (P : Event -> Prop) (c : M A) : Prop :=
  forall t, exists d, snd (c t) = t ++ d /\ Forall P d.

(** A [POST] request: neither a status nor a result request. *)
Definition is_post (e : Event) : Prop :=
  exists req, e = EvFetch req /\ method req = POST.

(** The three requests of the synchronous client: of [getAccessToken], of
    [getCommitment] and of [getProof]. *)
Definition auth_request (this : Chainlink.SxTClient) : Request :=
  mkRequest POST (Chainlink.authRootURL this)
    [("apikey", key_header (Chainlink.sxtApiKey this));
     ("Content-Type", "application/json")] None.

Definition commitment_request (this : Chainlink.SxTClient) (commitmentKey : string)
  : Request :=
  mkRequest POST (Chainlink.substrateNodeURL this) json_header
    (Some (JObj [("id", JNum 1); ("jsonrpc", JStr "2.0");
                 ("method", JStr "state_getStorage");
                 ("params", JArr [JStr commitmentKey])])).

Definition proof_request (this : Chainlink.SxTClient) (accessToken proverQuery : JsVal)
  : Request :=
  mkRequest POST (Chainlink.proverRootURL this)
    [("Authorization", ("Bearer " ++ js_to_string accessToken)%string);
     ("content-type", "application/json")]
    (if truthy proverQuery then Some proverQuery else None).

(** The five steps of the synchronous flow, in their order: authenticating,
    resolving the commitment, planning, submitting, verifying. *)
Definition linear_run (this : Chainlink.SxTClient) (queryString commitmentKey : string)
    (accessToken : JsVal) (fetched : TableRefAndCommitment)
    (planned : ProverQueryAndQueryExprAndCommitments) (proverResponseJson : JsVal)
  : Trace :=
  [EvFetch (auth_request this);
   EvFetch (commitment_request this commitmentKey);
   EvPlan queryString [fetched];
   EvFetch (proof_request this accessToken (prover_query_json planned));
   EvVerifyDory proverResponseJson (query_expr_json planned) (commitments planned)].

(** What a wasm wrapper makes of the export's result. *)
Definition verdict (r : JsVal + JsVal) : Outcome JsVal :=
  match r with
  | inl e => Threw (WasmError e)
  | inr v => Returned v
  end.

(** The transport has not settled the request 3000 ms after it was issued. *)
Definition slow (l : Latency) : Prop :=
  match l with
  | After ms => 3000 < ms
  | Never => True
  end.

(** Every request of [c] that the transport answers slowly is the last thing
    [c] does, and [c] is rejected with [AbortError]. *)
Definition punctual {A} (w : World) (c : M A) : Prop :=
  forall t0, exists d,
    snd (c t0) = t0 ++ d /\
    forall t req rest,
      d = t ++ EvFetch req :: rest ->
      slow (latency (net w (t0 ++ t) req)) ->
      fst (c t0) = Threw AbortError /\ rest = [].

(** [c] is never rejected with [AbortError]. *)
Definition never_aborts {A} (c : M A) : Prop :=
  forall t, fst (c t) <> Threw AbortError.

(** The same world, every answer [d] ms later. *)
Definition delay (d : nat) (r : Reply) : Reply :=
  mkReply (match latency r with
           | After ms => After (ms + d)
           | Never => Never
           end) (settled r).

Definition slowed (d : nat) (w : World) : World :=
  mkWorld (fun t req => delay d (net w t req))
    (wasm_plan_prover_query_dory w) (wasm_verify_prover_response_dory w)
    (wasm_verify_prover_response_hyper_kzg w).

(** The query and the table of the end-to-end scenario. *)
Definition scenario_query : string := "SELECT COUNT(*) FROM ethereum.transactions".
Definition scenario_table : string := "ethereum.transactions".


(** Clients without a key: none at all, and the empty one. *)
Definition keyless_sync_client : Chainlink.SxTClient :=
  Chainlink.mkSxTClient "https://api.makeinfinite.dev/v1/prove"
    "https://proxy.api.makeinfinite.dev/auth/apikey"
    "https://rpc.testnet.sxt.network/" None.

Definition keyless_async_client : Async.SxTClient :=
  Async.mkSxTClient "https://api.makeinfinite.dev"
    "https://proxy.api.makeinfinite.dev/auth/apikey"
    "https://rpc.testnet.sxt.network/" (Some EmptyString).

(** ** Further vocabulary: the requests of the asynchronous client *)

Definition async_auth_request (this : Async.SxTClient) : Request :=
  mkRequest POST (Async.authRootURL this)
    [("apikey", key_header (Async.sxtApiKey this));
     ("Content-Type", "application/json")] None.

(** The JSON-RPC request of [querySubstrateRpc]. *)
Definition rpc_request (this : Async.SxTClient) (rpc_method : string) (params : JsVal)
  : Request :=
  mkRequest POST (Async.substrateNodeURL this) json_header
    (Some (JObj [("id", JNum 1); ("jsonrpc", JStr "2.0");
                 ("method", JStr rpc_method); ("params", params)])).

(** The block hash a caller asks for, if any: [null], [undefined] and the
    empty string all count as none. *)
Definition requested_block (blockHash : option string) : option string :=
  match blockHash with
  | Some h => if String.eqb h EmptyString then None else Some h
  | None => None
  end.

Definition attestation_request (this : Async.SxTClient) (blockHash : option string)
  : Request :=
  match requested_block blockHash with
  | Some h =>
      rpc_request this "attestation_v1_attestationsForBlock" (JArr [JStr ("0x" ++ h)])
  | None => rpc_request this "attestation_v1_bestRecentAttestations" JNull
  end.

Definition submit_request (this : Async.SxTClient) (accessToken : JsVal)
    (queryString : string) (bestBlockHash : JsVal) : Request :=
  mkRequest POST (Async.zkQueryRootURL this ++ "/v1/zkquery")
    [("Authorization", ("Bearer " ++ js_to_string accessToken)%string);
     ("Content-Type", "application/json")]
    (Some (JObj [("sqlText", JStr queryString); ("sourceNetwork", JStr "mainnet");
                 ("commitmentScheme", JStr "HYPER_KZG");
                 ("blockHash", bestBlockHash); ("timeout", JNull)])).

(** The three requests that open a job, in their order. *)
Definition submission (this : Async.SxTClient) (queryString : string)
    (blockHash : option string) (accessToken bestBlockHash : JsVal) : Trace :=
  [EvFetch (async_auth_request this);
   EvFetch (attestation_request this blockHash);
   EvFetch (submit_request this accessToken queryString bestBlockHash)].

(** The two requests with which [proofOfSqlQuery] opens a job. *)
Definition ts_auth_request (apiKey : option string) : Request :=
  mkRequest POST "https://proxy.api.makeinfinite.dev/auth/apikey"
    [("apikey", key_header apiKey)] None.

Definition ts_submit_request (sqlText : string) (accessToken : JsVal) : Request :=
  mkRequest POST "https://api.makeinfinite.dev/v1/zkquery"
    [("Content-Type", "application/json");
     ("Authorization", ("Bearer " ++ js_to_string accessToken)%string)]
    (Some (JObj [("sqlText", JStr sqlText); ("sourceNetwork", JStr "Mainnet")])).

(** ** Further vocabulary: failures *)

(** How a run fails: it stays pending, or it throws. *)
Inductive Failure : Type :=
| Pending
| Failed (e : Thrown).

Definition failure_of {A} (o : Outcome A) : option Failure :=
  match o with
  | Returned _ => None
  | Threw e => Some (Failed e)
  | Hung => Some Pending
  end.

(** What a reply does to the helper that awaits it and then parses the body:
    [signal] is the helper's timer, [checks_ok] says whether it tests
    [response.ok], and [what] is the text of its error.  [None]: the helper
    goes on with the parsed body. *)
Definition fate (checks_ok : bool) (signal : option nat) (what : string) (reply : Reply)
  : option Failure :=
  if aborted signal (latency reply) then Some (Failed AbortError)
  else match latency reply with
       | Never => Some Pending
       | After _ =>
           match settled reply with
           | Rejected reason => Some (Failed (NetworkError reason))
           | Resolved r =>
               if checks_ok && negb (ok r) then Some (Failed (http_error what r))
               else match payload r with
                    | None => Some (Failed SyntaxError)
                    | Some _ => None
                    end
           end
       end.

(** Every request of [c] whose reply is fatal is the last thing [c] does, and
    [c] fails as that reply makes the helper fail -- where the helper tests
    [ok], under one of the texts [labels]. *)
Definition final {A} (w : World) (checks_ok : bool) (signal : option nat)
    (labels : list string) (c : M A) : Prop :=
  forall t0, exists d,
    snd (c t0) = t0 ++ d /\
    forall t req rest what0 f0,
      d = t ++ EvFetch req :: rest ->
      fate checks_ok signal what0 (net w (t0 ++ t) req) = Some f0 ->
      rest = [] /\
      exists what,
        (checks_ok = true -> In what labels) /\
        failure_of (fst (c t0)) = fate checks_ok signal what (net w (t0 ++ t) req).

Definition async_labels : list string :=
  ["Error querying auth endpoint"; "Error querying RPC node";
   "Error querying zk query api"; "Error querying prover"].

Definition chainlink_labels : list string :=
  ["Error querying auth endpoint"; "Error querying RPC node"; "Error querying prover"].


(** ** Further mock backends *)

(** The job backend, except that the status call number [k] (from 0) is
    answered with [503]. *)
Definition unavailable : Reply :=
  mkReply (After 20) (Resolved (mkResponse 503 "Service Unavailable"
                                  (Some (JObj [("status", JStr "done")])))).

Definition flaky_job_net (k : nat) (t : Trace) (req : Request) : Reply :=
  if is_status req && (status_calls t =? k)%nat then unavailable
  else job_net (fun _ => JStr "pending") t req.

Definition flaky_job_world (k : nat) : World :=
  mkWorld (flaky_job_net k) mock_plan (fun r _ _ => mock_verify r) mock_verify.

(** The backend of the synchronous client, except that the RPC node answers
    [503]. *)
Definition unavailable_node_net (t : Trace) (req : Request) : Reply :=
  if ends_with "/auth/apikey" (url req) || ends_with "/v1/prove" (url req)
  then node_net (JStr "0xAB12") (After 20) t req
  else unavailable.

Definition unavailable_node_world : World :=
  mkWorld unavailable_node_net mock_plan (fun r _ _ => mock_verify r) mock_verify.



(** The same world, but every answer carries the status line [line t req]
    chooses for it. *)
Definition with_status (line : nat * string) (r : Reply) : Reply :=
  mkReply (latency r)
    (match settled r with
     | Resolved resp => Resolved (mkResponse (fst line) (snd line) (payload resp))
     | Rejected reason => Rejected reason
     end).

Definition restatused (line : Trace -> Request -> nat * string) (w : World) : World :=
  mkWorld (fun t req => with_status (line t req) (net w t req))
    (wasm_plan_prover_query_dory w) (wasm_verify_prover_response_dory w)
    (wasm_verify_prover_response_hyper_kzg w).

(** The job backend, except that the status call number [k] (from 0) is never
    answered. *)
Definition stalled_job_net (k : nat) (t : Trace) (req : Request) : Reply :=
  if is_status req && (status_calls t =? k)%nat
  then mkReply Never (Rejected "unreachable")
  else job_net (fun _ => JStr "pending") t req.

Definition stalled_job_world (k : nat) : World :=
  mkWorld (stalled_job_net k) mock_plan (fun r _ _ => mock_verify r) mock_verify.

(** ** Further vocabulary: answers *)

(** What the helper that awaits a reply hands on: the parsed body, provided
    the request was not aborted ([signal] is the helper's timer), the reply
    came and was not rejected, its status is in 200..299 where the helper
    tests [response.ok] ([checks_ok]), and the body parses. *)
Definition answer_of (checks_ok : bool) (signal : option nat) (reply : Reply)
  : option JsVal :=
  if aborted signal (latency reply) then None
  else match latency reply, settled reply with
       | After _, Resolved r => if checks_ok && negb (ok r) then None else payload r
       | _, _ => None
       end.

(** Why [proofOfSqlQuery] fails at request [req], issued after [t], with
    [f]: the reply is fatal, or its body parses to something the member
    read of the step ([accessToken], [queryId], [status]) cannot be read
    from. *)
Definition ts_cause (w : World) (t : Trace) (req : Request) (f : Failure) : Prop :=
  fate false None EmptyString (net w t req) = Some f
  \/ exists body p e,
       answer_of false None (net w t req) = Some body /\
       In p ["accessToken"; "queryId"; "status"] /\
       member p body = Threw e /\
       f = Failed e.

(** Whenever [c] fails, the last thing it did was a request, and that request
    is why. *)
Definition accounted {A} (w : World) (c : M A) : Prop :=
  forall t0, exists d,
    snd (c t0) = t0 ++ d /\
    forall f, failure_of (fst (c t0)) = Some f ->
      exists t req, d = t ++ [EvFetch req] /\ ts_cause w (t0 ++ t) req f.

(** The job backend, except that the status endpoint answers [200] with the
    body [null]. *)
Definition void_status_net (t : Trace) (req : Request) : Reply :=
  if is_status req then answer JNull
  else job_net (fun _ => JStr "pending") t req.

Definition void_status_world : World :=
  mkWorld void_status_net mock_plan (fun r _ _ => mock_verify r) mock_verify.

(** The answers that open a job of the asynchronous client: the token is the
    [accessToken] of the auth answer, the block hash the [attestationsFor] of
    the [result] of the attestation answer. *)
Definition async_opening (w : World) (this : Async.SxTClient) (blockHash : option string)
    (accessToken bestBlockHash : JsVal) : Prop :=
  exists authResponse attestationsResponse attested,
    key_missing (Async.sxtApiKey this) = false /\
    answer_of true None (net w [] (async_auth_request this)) = Some authResponse /\
    member "accessToken" authResponse = Returned accessToken /\
    answer_of true None (net w [EvFetch (async_auth_request this)]
                           (attestation_request this blockHash))
    = Some attestationsResponse /\
    member "result" attestationsResponse = Returned attested /\
    member "attestationsFor" attested = Returned bestBlockHash.

(** An auth endpoint that answers [200] with a body without token. *)
Definition tokenless_net (t : Trace) (req : Request) : Reply :=
  if ends_with "/auth/apikey" (url req)
  then answer (JObj [("userId", JStr "u1")])
  else job_net (fun _ => JStr "done") t req.

Definition tokenless_world : World :=
  mkWorld tokenless_net mock_plan (fun r _ _ => mock_verify r) mock_verify.

(** An auth endpoint that refuses the key: [401] with an error body.  The
    rest is the job backend. *)
Definition refusing_net (t : Trace) (req : Request) : Reply :=
  if ends_with "/auth/apikey" (url req)
  then mkReply (After 20)
         (Resolved (mkResponse 401 "Unauthorized"
                      (Some (JObj [("error", JStr "invalid api key")]))))
  else job_net (fun _ => JStr "done") t req.

Definition refusing_world : World :=
  mkWorld refusing_net mock_plan (fun r _ _ => mock_verify r) mock_verify.

(** ** The object heap of the wasm glue, [chainlink-functions/source/index.js]

    JS values are handed to wasm as indices into [heap].  The slots below 132
    are reserved (128..131 hold [undefined], [null], [true], [false]); a free
    slot holds the index of the next free one, and [heap_next] is the first
    of them, [heap.length] when there is none. *)

Module Heap.

Record State : Type := mkState {
  heap : list JsVal;
  heap_next : nat
}.

(** [new Array(128).fill(undefined)], [heap.push(undefined, null, true, false)],
    [let heap_next = heap.length]. *)
Definition initial : State :=
  mkState (repeat JUndefined 128 ++ [JUndefined; JNull; JBool true; JBool false]) 132.

(** [heap[idx]]: [undefined] beyond the end. *)
Definition getObject (idx : nat) (s : State) : JsVal := nth idx (heap s) JUndefined.

(** [heap[idx] = v]: beyond the end the array grows up to [idx], and the
    slots in between read as [undefined]. *)
Fixpoint store (idx : nat) (v : JsVal) (h : list JsVal) {struct h} : list JsVal :=
  match h, idx with
  | [], _ => repeat JUndefined idx ++ [v]
  | _ :: rest, O => v :: rest
  | x :: rest, S i => x :: store i v rest
  end.

Definition dropObject (idx : nat) (s : State) : State :=
  if (idx <? 132)%nat then s
  else mkState (store idx (JNum (Z.of_nat (heap_next s))) (heap s)) idx.

Definition takeObject (idx : nat) (s : State) : JsVal * State :=
  let ret := getObject idx s in
  (ret, dropObject idx s).

(** A slot's content read as an index. *)
Definition as_index (v : JsVal) : option nat :=
  match v with
  | JNum n => if (0 <=? n)%Z then Some (Z.to_nat n) else None
  | _ => None
  end.

(** [addHeapObject(obj)].  [heap_next = heap[idx]] is followed as long as the
    slot holds an index; [None] stands for the runs in which it holds something
    else, which then becomes [heap_next]. *)
Definition addHeapObject (obj : JsVal) (s : State) : option (nat * State) :=
  let h := if (heap_next s =? length (heap s))%nat
           then heap s ++ [JNum (Z.of_nat (length (heap s) + 1))]
           else heap s in
  let idx := heap_next s in
  match as_index (nth idx h JUndefined) with
  | Some next => Some (idx, mkState (store idx obj h) next)
  | None => None
  end.

(** The free list of heap [h] from index [i] on: slots from 132 on, each
    holding the index of the next, up to the end of the heap. *)
Inductive chain (h : list JsVal) : nat -> list nat -> Prop :=
| chain_end : chain h (length h) []
| chain_link i n free :
    132 <= i ->
    nth_error h i = Some (JNum (Z.of_nat n)) ->
    ~ In i free ->
    chain h n free ->
    chain h i (i :: free).

(** The reserved slots are there, and [free] is the free list. *)
Definition well_formed (s : State) (free : list nat) : Prop :=
  132 <= length (heap s) /\ chain (heap s) (heap_next s) free.

(** [idx] is a handle in use: given out and not yet taken back. *)
Definition live (s : State) (free : list nat) (idx : nat) : Prop :=
  132 <= idx < length (heap s) /\ ~ In idx free.

(** The states the heap goes through when handles are taken back only while
    in use, or are reserved ones. *)
Inductive reachable : State -> list nat -> Prop :=
| reach_initial : reachable initial []
| reach_add s free obj idx s' :
    reachable s free ->
    addHeapObject obj s = Some (idx, s') ->
    reachable s' (tl free)
| reach_take s free idx :
    reachable s free ->
    live s free idx ->
    reachable (dropObject idx s) (idx :: free)
| reach_take_reserved s free idx :
    reachable s free ->
    idx < 132 ->
    reachable (dropObject idx s) free.

End Heap.

(** ** Arrays of handles in wasm memory, [chainlink-functions/source/index.js]

    An array of JS values goes to wasm as consecutive 32-bit little-endian
    handles in the linear memory, and comes back the same way. *)

Module Glue.

(** The bytes of [wasm.memory.buffer]. *)
Definition Memory : Type := list Z.

(** [x >>> 0] *)
Definition u32 (x : Z) : Z := (x mod 4294967296)%Z.

(** [mem.setUint32(byteOffset, value, true)]: a [RangeError] ([None]) unless
    the four bytes lie within the buffer. *)
Definition setUint32 (byteOffset : nat) (value : Z) (mem : Memory) : option Memory :=
  if (byteOffset + 4 <=? length mem)%nat
  then let v := u32 value in
       Some (firstn byteOffset mem
             ++ [v mod 256; (v / 256) mod 256; (v / 65536) mod 256;
                 (v / 16777216) mod 256]%Z
             ++ skipn (byteOffset + 4) mem)
  else None.

(** [mem.getUint32(byteOffset, true)] *)
Definition getUint32 (byteOffset : nat) (mem : Memory) : option Z :=
  if (byteOffset + 4 <=? length mem)%nat
  then Some (nth byteOffset mem 0
             + 256 * nth (byteOffset + 1) mem 0
             + 65536 * nth (byteOffset + 2) mem 0
             + 16777216 * nth (byteOffset + 3) mem 0)%Z
  else None.

(** The four bytes of [mem] from [byteOffset] on are those of the 32-bit
    number [value], the lowest first. *)
Definition little_endian (mem : Memory) (byteOffset : nat) (value : Z) : Prop :=
  nth byteOffset mem 0%Z = (value mod 256)%Z /\
  nth (byteOffset + 1) mem 0%Z = ((value / 256) mod 256)%Z /\
  nth (byteOffset + 2) mem 0%Z = ((value / 65536) mod 256)%Z /\
  nth (byteOffset + 3) mem 0%Z = ((value / 16777216) mod 256)%Z.

(** What the glue owns: the object heap, the memory it shares with wasm, and
    the length it leaves for the caller of a [pass...] function. *)
Record State : Type := mkState {
  objects : Heap.State;
  memory : Memory;
  WASM_VECTOR_LEN : nat
}.

(** How a function of the glue ends; [S] is the state it leaves behind when
    it throws. *)
Inductive Result (S A : Type) : Type :=
| Done (a : A)
| RangeError (s : S)   (* thrown by the [DataView] *)
| NotAnIndex.          (* [heap_next] has taken a value that is no index *)
Arguments Done {S A} a.
Arguments RangeError {S A} s.
Arguments NotAnIndex {S A}.

(** The body of the loop of [passArrayJsValueToWasm0], from [i] on; [items]
    are [array[i]], [array[i+1]], ... *)
Fixpoint pass_loop (items : list JsVal) (ptr i : nat) (heap : Heap.State) (mem : Memory)
  : Result (Heap.State * Memory) (Heap.State * Memory) :=
  match items with
  | [] => Done (heap, mem)
  | item :: rest =>
      match Heap.addHeapObject item heap with
      | None => NotAnIndex
      | Some (idx, heap') =>
          match setUint32 (ptr + 4 * i) (Z.of_nat idx) mem with
          | None => RangeError (heap', mem)
          | Some mem' => pass_loop rest ptr (S i) heap' mem'
          end
      end
  end.

(** [passArrayJsValueToWasm0(array, malloc)]; [malloc] is the export of the
    wasm module, which returns a signed 32-bit number and may change the
    memory. *)
Definition passArrayJsValueToWasm0 (array : list JsVal)
    (malloc : nat -> nat -> Memory -> Z * Memory) (s : State)
  : Result State (nat * State) :=
  let (r, mem) := malloc (length array * 4) 4 (memory s) in
  let ptr := Z.to_nat (u32 r) in
  match pass_loop array ptr 0 (objects s) mem with
  | Done (heap', mem') => Done (ptr, mkState heap' mem' (length array))
  | RangeError (heap', mem') => RangeError (mkState heap' mem' (WASM_VECTOR_LEN s))
  | NotAnIndex => NotAnIndex
  end.

(** The loop of [getArrayJsValueFromWasm0]: [len] more handles, from byte
    [i] on. *)
Fixpoint get_loop (len : nat) (i : nat) (heap : Heap.State) (mem : Memory)
  : Result Heap.State (list JsVal * Heap.State) :=
  match len with
  | O => Done ([], heap)
  | S len' =>
      match getUint32 i mem with
      | None => RangeError heap
      | Some idx =>
          let (obj, heap') := Heap.takeObject (Z.to_nat idx) heap in
          match get_loop len' (i + 4) heap' mem with
          | Done (result, heap'') => Done (obj :: result, heap'')
          | RangeError heap'' => RangeError heap''
          | NotAnIndex => NotAnIndex
          end
      end
  end.

(** [getArrayJsValueFromWasm0(ptr, len)] *)
Definition getArrayJsValueFromWasm0 (ptr : Z) (len : nat) (s : State)
  : Result State (list JsVal * State) :=
  let ptr := Z.to_nat (u32 ptr) in
  match get_loop len ptr (objects s) (memory s) with
  | Done (result, heap') => Done (result, mkState heap' (memory s) (WASM_VECTOR_LEN s))
  | RangeError heap' => RangeError (mkState heap' (memory s) (WASM_VECTOR_LEN s))
  | NotAnIndex => NotAnIndex
  end.

End Glue.

(** * Proofs *)

(** ** The monad *)

Lemma bind_returned {A B} (c : M A) (k : A -> M B) t b t' :
  bind c k t = (Returned b, t') ->
  exists a t1, c t = (Returned a, t1) /\ k a t1 = (Returned b, t').
Proof.
  unfold bind. destruct (c t) as [[a | e |] t1]; intro H; try discriminate.
  now exists a, t1.
Qed.

Lemma bind_step {A B} (c : M A) (k : A -> M B) t a t1 :
  c t = (Returned a, t1) -> bind c k t = k a t1.
Proof. unfold bind. now intros ->. Qed.

Lemma bind_threw {A B} (c : M A) (k : A -> M B) t e t1 :
  c t = (Threw e, t1) -> bind c k t = (Threw e, t1).
Proof. unfold bind. now intros ->. Qed.

Lemma bind_lift {A B} (o : Outcome A) (k : A -> M B) t :
  bind (lift o) k t
  = match o with
    | Returned a => k a t
    | Threw e => (Threw e, t)
    | Hung => (Hung, t)
    end.
Proof. unfold bind, lift. now destruct o. Qed.

Ltac step H := rewrite (bind_step _ _ _ _ _ H); cbv beta.
Ltac step_lift H := rewrite bind_lift, H; cbv beta iota.

(** ** Strings *)

Lemma ends_with_refl s : ends_with s s = true.
Proof. destruct s; cbn [ends_with]; rewrite String.eqb_refl; reflexivity. Qed.

Lemma ends_with_app suffix p : ends_with suffix (p ++ suffix) = true.
Proof.
  induction p as [| a p IH].
  - apply ends_with_refl.
  - change (String a p ++ suffix)%string with (String a (p ++ suffix)).
    cbn [ends_with]. rewrite IH. apply orb_true_r.
Qed.

Lemma length_app_string (a b : string) :
  String.length (a ++ b) = String.length a + String.length b.
Proof. induction a; simpl; congruence. Qed.

Lemma ends_with_other suffix tail p :
  ends_with suffix tail = false ->
  (forall a q, suffix <> String a (q ++ tail)) ->
  ends_with suffix (p ++ tail) = false.
Proof.
  intros Htail Hneq. induction p as [| a p IH].
  - exact Htail.
  - change (String a p ++ tail)%string with (String a (p ++ tail)).
    cbn [ends_with]. rewrite IH, orb_false_r. apply String.eqb_neq, Hneq.
Qed.

Lemma status_is_not_results p : ends_with "/results" (p ++ "/status") = false.
Proof.
  apply ends_with_other; [reflexivity |].
  intros a q E. destruct q as [| b q].
  - injection E as _ E. discriminate E.
  - apply (f_equal String.length) in E.
    change (String b q ++ "/status")%string with (String b (q ++ "/status")) in E.
    cbn [String.length] in E. rewrite length_app_string in E.
    cbn [String.length] in E. lia.
Qed.

Lemma results_is_not_status p : ends_with "/status" (p ++ "/results") = false.
Proof.
  apply ends_with_other; [reflexivity |].
  intros a q E. apply (f_equal String.length) in E.
  cbn [String.length] in E. rewrite length_app_string in E. cbn [String.length] in E.
  lia.
Qed.

Lemma app_string_assoc (a b c : string) : ((a ++ b) ++ c = a ++ (b ++ c))%string.
Proof. induction a; simpl; congruence. Qed.

Lemma status_request_is_status root tok qid hs :
  is_status (status_request root tok qid hs) = true.
Proof.
  unfold is_status, status_request; cbn [method url].
  rewrite <- !app_string_assoc. apply ends_with_app.
Qed.

Lemma status_request_not_results root tok qid hs :
  is_results (status_request root tok qid hs) = false.
Proof.
  unfold is_results, status_request; cbn [method url].
  rewrite <- !app_string_assoc. apply status_is_not_results.
Qed.

Lemma results_request_is_results root tok qid hs :
  is_results (results_request root tok qid hs) = true.
Proof.
  unfold is_results, results_request; cbn [method url].
  rewrite <- !app_string_assoc. apply ends_with_app.
Qed.

Lemma results_request_not_status root tok qid hs :
  is_status (results_request root tok qid hs) = false.
Proof.
  unfold is_status, results_request; cbn [method url].
  rewrite <- !app_string_assoc. apply results_is_not_status.
Qed.

(** ** Counting in traces *)

Lemma tally_app p (a b : Trace) : tally p (a ++ b) = tally p a + tally p b.
Proof. unfold tally. now rewrite filter_app, length_app. Qed.

Lemma tally_cons p e (t : Trace) :
  tally p (e :: t) = (if p e then 1 else 0) + tally p t.
Proof. unfold tally. cbn [filter]. now destruct (p e). Qed.

Lemma tally_nil p : tally p [] = 0.
Proof. reflexivity. Qed.

Lemma tally_rounds_fetch p req n :
  tally (fetches p) (rounds req n) = if p req then n else 0.
Proof.
  induction n as [| n IH]; cbn [rounds].
  - now destruct (p req).
  - rewrite !tally_cons, IH. cbn [fetches]. destruct (p req); lia.
Qed.

Lemma sleeps_rounds req n : sleeps (rounds req n) = n.
Proof.
  unfold sleeps. induction n as [| n IH]; cbn [rounds]; [reflexivity |].
  rewrite !tally_cons, IH. reflexivity.
Qed.

Lemma rounds_snoc req n :
  rounds req (S n) = rounds req n ++ [EvSleep 1000; EvFetch req].
Proof.
  induction n as [| n IH]; [reflexivity |].
  cbn [rounds app] in *. do 2 f_equal. exact IH.
Qed.

(** ** The polling loop *)

Section Polling.
Variable w : World.
Variable getStatus : M JsVal.
Variable req : Request.
Hypothesis Hasks : asks_status w getStatus req.

Lemma getStatus_said t v :
  status_said (net w t req) = Some v ->
  getStatus t = (Returned v, t ++ [EvFetch req]).
Proof.
  intro H. destruct Hasks as [_ Hs]. destruct (Hs t) as [Htr Hv].
  specialize (Hv v H). rewrite (surjective_pairing (getStatus t)).
  now rewrite Htr, Hv.
Qed.

(** One round of the loop when the endpoint says [v]. *)
Lemma poll_loop_round fuel count t v :
  count < 60 ->
  status_said (net w (t ++ [EvSleep 1000]) req) = Some v ->
  poll_loop getStatus (S fuel) false count t =
  poll_loop getStatus fuel (is_terminal v) (S count) (t ++ rounds req 1).
Proof.
  intros Hc Hv. cbn [poll_loop negb andb].
  apply Nat.ltb_lt in Hc. rewrite Hc.
  unfold sleep, emit, bind at 1.
  rewrite (bind_step _ _ _ _ _ (getStatus_said _ _ Hv)).
  cbn [rounds]. rewrite <- app_assoc. reflexivity.
Qed.

(** The loop stops as soon as [success] holds or the budget is used up. *)
Lemma poll_loop_stop fuel success count t :
  success = true \/ 60 <= count ->
  poll_loop getStatus fuel success count t = (Returned (success, count), t).
Proof.
  intros [-> | Hc]; destruct fuel; cbn [poll_loop negb andb]; try reflexivity.
  - apply Nat.ltb_ge in Hc. rewrite Hc, andb_false_r. reflexivity.
  - apply Nat.ltb_ge in Hc. rewrite Hc, andb_false_r. reflexivity.
Qed.

Variable script : nat -> JsVal.
Variable bound : nat.
Hypothesis Hplays : plays w script bound.

Lemma said_after_sleep t :
  status_calls t < bound ->
  status_said (net w (t ++ [EvSleep 1000]) req) = Some (script (status_calls t)).
Proof.
  intro Hb. destruct Hasks as [Hreq _].
  assert (E : status_calls (t ++ [EvSleep 1000]) = status_calls t).
  { unfold status_calls. rewrite tally_app, tally_cons, tally_nil. cbn. lia. }
  rewrite <- E. apply Hplays; [exact Hreq | lia].
Qed.

Lemma status_calls_round t : status_calls (t ++ rounds req 1) = S (status_calls t).
Proof.
  destruct Hasks as [Hreq _]. unfold status_calls.
  rewrite tally_app, tally_rounds_fetch, Hreq. lia.
Qed.

(** [n] rounds in which the endpoint says nothing terminal. *)
Lemma poll_loop_pending n : forall fuel count t,
  n <= fuel -> count + n <= 60 -> status_calls t + n <= bound ->
  (forall i, i < n -> is_terminal (script (status_calls t + i)) = false) ->
  poll_loop getStatus fuel false count t =
  poll_loop getStatus (fuel - n) false (count + n) (t ++ rounds req n).
Proof.
  induction n as [| n IH]; intros fuel count t Hf Hc Hb Hscript.
  - cbn [rounds]. now rewrite Nat.sub_0_r, Nat.add_0_r, app_nil_r.
  - destruct fuel as [| fuel]; [lia |].
    rewrite (poll_loop_round fuel count t (script (status_calls t)));
      [| lia | apply said_after_sleep; lia].
    replace (is_terminal (script (status_calls t))) with false
      by (symmetry; rewrite <- (Nat.add_0_r (status_calls t)); apply Hscript; lia).
    rewrite IH.
    + cbn [Nat.sub]. rewrite <- app_assoc.
      replace (S count + n) with (count + S n) by lia. reflexivity.
    + lia.
    + lia.
    + rewrite status_calls_round. lia.
    + intros i Hi. rewrite status_calls_round.
      replace (S (status_calls t) + i) with (status_calls t + S i) by lia.
      apply Hscript. lia.
Qed.

(** The budget runs out: 60 is reached without a terminal status. *)
Lemma poll_loop_exhausted fuel count t :
  60 - count <= fuel -> count <= 60 -> status_calls t + (60 - count) <= bound ->
  (forall i, i < 60 - count -> is_terminal (script (status_calls t + i)) = false) ->
  poll_loop getStatus fuel false count t =
  (Returned (false, 60), t ++ rounds req (60 - count)).
Proof.
  intros Hf Hc Hb Hscript.
  rewrite (poll_loop_pending (60 - count)) by (try assumption; lia).
  replace (count + (60 - count)) with 60 by lia.
  apply poll_loop_stop. right. lia.
Qed.

(** A terminal status after [k] other ones. *)
Lemma poll_loop_terminal k fuel count t :
  k < fuel -> count + k < 60 -> status_calls t + k < bound ->
  (forall i, i < k -> is_terminal (script (status_calls t + i)) = false) ->
  is_terminal (script (status_calls t + k)) = true ->
  poll_loop getStatus fuel false count t =
  (Returned (true, count + S k), t ++ rounds req (S k)).
Proof.
  intros Hf Hc Hb Hscript Hlast.
  rewrite (poll_loop_pending k) by (try assumption; lia).
  destruct (fuel - k) as [| fuel'] eqn:Ef; [lia |].
  assert (Hsc : status_calls (t ++ rounds req k) = status_calls t + k).
  { destruct Hasks as [Hreq _]. unfold status_calls.
    now rewrite tally_app, tally_rounds_fetch, Hreq. }
  rewrite (poll_loop_round fuel' (count + k) _ (script (status_calls t + k)));
    [| lia | rewrite <- Hsc; apply said_after_sleep; lia].
  rewrite Hlast, poll_loop_stop by now left.
  rewrite <- app_assoc, (rounds_snoc req k).
  replace (S (count + k)) with (count + S k) by lia. reflexivity.
Qed.

End Polling.

(** The first argument of [poll_loop] never decides: the guard [count < 60]
    stops the loop first. *)
Lemma poll_loop_fuel getStatus : forall fuel fuel' success count t,
  60 - count <= fuel -> 60 - count <= fuel' ->
  poll_loop getStatus fuel success count t =
  poll_loop getStatus fuel' success count t.
Proof.
  induction fuel as [| fuel IH]; intros fuel' success count t H H'.
  - assert (Hc : (count <? 60)%nat = false) by (apply Nat.ltb_ge; lia).
    destruct fuel'; cbn [poll_loop]; rewrite Hc, andb_false_r; reflexivity.
  - destruct fuel' as [| fuel'].
    + assert (Hc : (count <? 60)%nat = false) by (apply Nat.ltb_ge; lia).
      cbn [poll_loop]; rewrite Hc, andb_false_r; reflexivity.
    + cbn [poll_loop]. destruct (negb success && (count <? 60)%nat); [| reflexivity].
      unfold bind. destruct (sleep 1000 t) as [[[] | e |] t1]; try reflexivity.
      destruct (getStatus t1) as [[v | e |] t2]; try reflexivity.
      apply IH; lia.
Qed.

(** ** What a computation adds to the trace *)

Lemma emits_ret {A} P (a : A) : emits P (ret a).
Proof. intro t. exists []. now rewrite app_nil_r. Qed.

Lemma emits_throw {A} P e : emits P (@throw A e).
Proof. intro t. exists []. now rewrite app_nil_r. Qed.

Lemma emits_lift {A} P (o : Outcome A) : emits P (lift o).
Proof. intro t. exists []. now rewrite app_nil_r. Qed.

Lemma emits_emit (P : Event -> Prop) e : P e -> emits P (emit e).
Proof. intros H t. exists [e]. split; [reflexivity | now constructor]. Qed.

Lemma emits_fetch (P : Event -> Prop) w req signal :
  P (EvFetch req) -> emits P (fetch w req signal).
Proof.
  intros H t. exists [EvFetch req]. split; [| now constructor].
  unfold fetch. destruct (aborted _ _); [reflexivity |].
  destruct (latency _); [| reflexivity]. now destruct (settled _).
Qed.

Lemma emits_bind {A B} P (c : M A) (k : A -> M B) :
  emits P c -> (forall a, emits P (k a)) -> emits P (bind c k).
Proof.
  intros Hc Hk t. unfold bind. destruct (Hc t) as (d & Hd & HP).
  destruct (c t) as [[a | e |] t1]; cbn [snd] in Hd; subst t1.
  - destruct (Hk a (t ++ d)) as (d' & Hd' & HP').
    exists (d ++ d'). rewrite Hd', app_assoc. split; [reflexivity |].
    apply Forall_app. now split.
  - now exists d.
  - now exists d.
Qed.

Lemma emits_json P r : emits P (json r).
Proof. unfold json. destruct (payload r); [apply emits_ret | apply emits_throw]. Qed.

Lemma emits_poll_loop P getStatus :
  P (EvSleep 1000) -> emits P getStatus ->
  forall fuel success count, emits P (poll_loop getStatus fuel success count).
Proof.
  intros Hs Hg. induction fuel as [| fuel IH]; intros success count;
    cbn [poll_loop]; destruct (negb success && (count <? 60)%nat);
    try apply emits_ret.
  apply emits_bind; [now apply emits_emit |]. intros _.
  apply emits_bind; [exact Hg |]. intro v. apply IH.
Qed.

Ltac emits_step :=
  first
    [ apply emits_ret | apply emits_throw | apply emits_lift | apply emits_json
    | apply emits_fetch | apply emits_emit
    | apply emits_bind; [| intro]
    | match goal with
      | |- emits _ (if ?b then _ else _) => destruct b
      | |- emits _ (match ?x with _ => _ end) => destruct x
      end ].

Lemma tally_none p (t : Trace) : Forall (fun e => p e = false) t -> tally p t = 0.
Proof.
  unfold tally. induction 1 as [| e t He _ IH]; [reflexivity |].
  cbn [filter]. now rewrite He.
Qed.

Lemma posts_are_quiet d :
  Forall is_post d ->
  status_calls d = 0 /\ result_calls d = 0 /\ sleeps d = 0 /\ verifications d = 0.
Proof.
  intro H. repeat split; apply tally_none; eapply Forall_impl; try exact H;
    intros e (req & -> & Hm); cbn; unfold is_status, is_results;
    try rewrite Hm; reflexivity.
Qed.

(** ** The asynchronous client *)

Section AsyncFacts.
Variable w : World.
Variable this : Async.SxTClient.

Let root := Async.zkQueryRootURL this.

Lemma async_statusOf_asks tok qid :
  asks_status w (Async.statusOf w this tok qid)
    (status_request root tok qid json_header).
Proof.
  split; [apply status_request_is_status |]. intro t.
  unfold Async.statusOf, Async.getZkQueryStatus, Async.getZkQueryApi,
    Async.getHttpRequest, status_said, bind, fetch, json, ret, throw, lift.
  fold root. change (mkRequest GET _ _ None) with (status_request root tok qid json_header).
  cbn [aborted].
  destruct (net w t _) as [[ms |] [resp | reason]]; cbn [latency settled];
    try (split; [reflexivity | discriminate]).
  destruct (ok resp); cbn [negb]; try (split; [reflexivity | discriminate]).
  destruct (payload resp) as [parsed |]; try (split; [reflexivity | discriminate]).
  destruct (member "status" parsed) as [v | e |];
    split; try reflexivity; try discriminate.
  now intros v' [= ->].
Qed.

Lemma async_submitted_posts q bh : emits is_post (Async.submitted w this q bh).
Proof.
  unfold Async.submitted, Async.getAccessToken, Async.getAttestations,
    Async.submitZkQueryRequest, Async.postZkQueryApi, Async.querySubstrateRpc,
    Async.postHttpRequest.
  repeat emits_step; eexists; split; reflexivity.
Qed.

(** The session is opened with nothing but [POST] requests behind it. *)
Lemma async_submitted_quiet q bh o t0 :
  run (Async.submitted w this q bh) = (o, t0) ->
  status_calls t0 = 0 /\ result_calls t0 = 0 /\ sleeps t0 = 0 /\ verifications t0 = 0.
Proof.
  intro H. destruct (async_submitted_posts q bh []) as (d & Hd & HP).
  unfold run in H. rewrite H in Hd. cbn in Hd. subst t0. now apply posts_are_quiet.
Qed.

Section AsyncPolling.
Variable script : nat -> JsVal.
Variable bound : nat.
Hypothesis Hplays : plays w script bound.
Variables tok qid : JsVal.

Let sreq := status_request root tok qid json_header.

Lemma async_first_status t :
  status_calls t < bound ->
  Async.statusOf w this tok qid t =
  (Returned (script (status_calls t)), t ++ [EvFetch sreq]).
Proof.
  intro Hb. apply (getStatus_said w _ _ (async_statusOf_asks tok qid)).
  apply Hplays; [apply status_request_is_status | exact Hb].
Qed.

(** A terminal status at call [k]: the initial check and [k] rounds. *)
Lemma async_polled_terminal k t :
  status_calls t = 0 -> k <= 60 -> k < bound ->
  (forall i, i < k -> is_terminal (script i) = false) ->
  is_terminal (script k) = true ->
  Async.polled w this tok qid t =
  (Returned (true, k), t ++ EvFetch sreq :: rounds sreq k).
Proof.
  intros H0 Hk Hb Hscript Hlast. unfold Async.polled.
  rewrite (bind_step _ _ _ _ _ (async_first_status t ltac:(lia))). rewrite H0.
  unfold while_polling. destruct k as [| k].
  - rewrite Hlast. rewrite poll_loop_stop by now left.
    cbn [rounds]. reflexivity.
  - rewrite (Hscript 0) by lia.
    assert (Hs1 : status_calls (t ++ [EvFetch sreq]) = 1).
    { unfold status_calls in *. rewrite tally_app, H0, tally_cons, tally_nil.
      cbn [fetches]. unfold sreq. now rewrite status_request_is_status. }
    rewrite (poll_loop_terminal w _ _ (async_statusOf_asks tok qid) script bound
               Hplays k); rewrite ?Hs1; try lia.
    + rewrite <- app_assoc. reflexivity.
    + intros i Hi. apply Hscript. lia.
    + exact Hlast.
Qed.

(** No terminal status in 61 calls: the initial check and 60 rounds. *)
Lemma async_polled_exhausted t :
  status_calls t = 0 -> 61 <= bound ->
  (forall i, i < 61 -> is_terminal (script i) = false) ->
  Async.polled w this tok qid t =
  (Returned (false, 60), t ++ EvFetch sreq :: rounds sreq 60).
Proof.
  intros H0 Hb Hscript. unfold Async.polled.
  rewrite (bind_step _ _ _ _ _ (async_first_status t ltac:(lia))). rewrite H0.
  unfold while_polling. rewrite (Hscript 0) by lia.
  assert (Hs1 : status_calls (t ++ [EvFetch sreq]) = 1).
  { unfold status_calls in *. rewrite tally_app, H0, tally_cons, tally_nil.
    cbn [fetches]. unfold sreq. now rewrite status_request_is_status. }
  rewrite (poll_loop_exhausted w _ _ (async_statusOf_asks tok qid) script bound
             Hplays); rewrite ?Hs1; try (cbn; lia).
  - rewrite <- app_assoc. reflexivity.
  - intros i Hi. apply Hscript. cbn in Hi. lia.
Qed.

End AsyncPolling.

(** The last part of [queryAndVerify]: one result request, then the verifier
    on what it returned. *)
Lemma async_fetchedAndVerified_trace tok qid t :
  let rreq := results_request root tok qid json_header in
  (exists response,
      Async.fetchedAndVerified w this tok qid t =
      (match wasm_verify_prover_response_hyper_kzg w response with
       | inl e => Threw (WasmError e)
       | inr v => Returned v
       end, t ++ [EvFetch rreq; EvVerifyHyperKzg response]))
  \/ (snd (Async.fetchedAndVerified w this tok qid t) = t ++ [EvFetch rreq]
      /\ forall v, fst (Async.fetchedAndVerified w this tok qid t) <> Returned v).
Proof.
  intro rreq.
  unfold Async.fetchedAndVerified, Async.getZkQueryResult, Async.getZkQueryApi,
    Async.getHttpRequest, verify_prover_response_hyper_kzg,
    bind, fetch, json, ret, throw, emit.
  fold root. change (mkRequest GET _ _ None) with rreq. cbn [aborted].
  destruct (net w t rreq) as [[ms |] [resp | reason]]; cbn [latency settled];
    try (right; split; [reflexivity | discriminate]).
  destruct (ok resp); cbn [negb]; try (right; split; [reflexivity | discriminate]).
  destruct (payload resp) as [response |];
    try (right; split; [reflexivity | discriminate]).
  left. exists response. rewrite <- app_assoc.
  now destruct (wasm_verify_prover_response_hyper_kzg w response).
Qed.

End AsyncFacts.

Section AsyncRuns.
Variable w : World.
Variable this : Async.SxTClient.
Variables (q : string) (bh : option string).
Variables (tok qid : JsVal) (t0 : Trace).
Hypothesis Hsubmitted : run (Async.submitted w this q bh) = (Returned (tok, qid), t0).

Let sreq := status_request (Async.zkQueryRootURL this) tok qid json_header.

Lemma async_run_after_polling x t1 :
  Async.polled w this tok qid t0 = (Returned x, t1) ->
  run (Async.queryAndVerify w this q bh) = Async.fetchedAndVerified w this tok qid t1.
Proof.
  intro Hp. unfold run, Async.queryAndVerify.
  rewrite (bind_step _ _ _ _ _ Hsubmitted). cbn [fst snd].
  now rewrite (bind_step _ _ _ _ _ Hp).
Qed.

Lemma async_finish_counts t :
  let r := Async.fetchedAndVerified w this tok qid t in
  status_calls (snd r) = status_calls t /\
  result_calls (snd r) = result_calls t + 1 /\
  sleeps (snd r) = sleeps t.
Proof.
  cbn zeta.
  destruct (async_fetchedAndVerified_trace w this tok qid t) as [[resp ->] | [-> _]];
    cbn [snd]; unfold status_calls, result_calls, sleeps;
    rewrite !tally_app, !tally_cons, !tally_nil; cbn [fetches is_sleep];
    rewrite results_request_is_results, results_request_not_status; lia.
Qed.

Lemma async_polling_counts n :
  let t1 := t0 ++ EvFetch sreq :: rounds sreq n in
  status_calls t1 = n + 1 /\ result_calls t1 = 0 /\ sleeps t1 = n.
Proof.
  destruct (async_submitted_quiet w this q bh _ _ Hsubmitted) as (Hs & Hr & Hz & _).
  cbn zeta. unfold status_calls, result_calls, sleeps in *.
  rewrite !tally_app, !tally_cons, !tally_rounds_fetch, Hs, Hr, Hz.
  fold (sleeps (rounds sreq n)). rewrite sleeps_rounds. cbn [fetches is_sleep].
  unfold sreq. rewrite status_request_is_status, status_request_not_results. lia.
Qed.

End AsyncRuns.

(** ** [proofOfSqlQuery] *)

Section TsFacts.
Variable w : World.

Lemma ts_getRequestStatus_asks tok qid :
  asks_status w (Ts.getRequestStatus w qid tok) (status_request ts_root tok qid []).
Proof.
  split; [apply status_request_is_status |]. intro t.
  unfold Ts.getRequestStatus, status_said, bind, fetch, json, ret, throw, lift.
  change (mkRequest GET _ _ None) with (status_request ts_root tok qid []).
  cbn [aborted].
  destruct (net w t _) as [[ms |] [resp | reason]]; cbn [latency settled];
    try (split; [reflexivity | discriminate]).
  destruct (payload resp) as [parsed |].
  - destruct (member "status" parsed) as [v | e |];
      (split; [reflexivity |]); destruct (ok resp); try discriminate.
    now intros v' [= ->].
  - split; [reflexivity |]. destruct (ok resp); discriminate.
Qed.

Lemma ts_submitted_posts q apiKey : emits is_post (Ts.submitted w q apiKey).
Proof.
  unfold Ts.submitted, Ts.getAccessToken, Ts.postQuerySubmitRequest.
  repeat emits_step; eexists; split; reflexivity.
Qed.

Lemma ts_submitted_quiet q apiKey o t0 :
  run (Ts.submitted w q apiKey) = (o, t0) ->
  status_calls t0 = 0 /\ result_calls t0 = 0 /\ sleeps t0 = 0 /\ verifications t0 = 0.
Proof.
  intro H. destruct (ts_submitted_posts q apiKey []) as (d & Hd & HP).
  unfold run in H. rewrite H in Hd. cbn in Hd. subst t0. now apply posts_are_quiet.
Qed.

Section TsPolling.
Variable script : nat -> JsVal.
Variable bound : nat.
Hypothesis Hplays : plays w script bound.
Variables tok qid : JsVal.

Let sreq := status_request ts_root tok qid [].

Lemma ts_polled_terminal k t :
  status_calls t = 0 -> k < 60 -> k < bound ->
  (forall i, i < k -> is_terminal (script i) = false) ->
  is_terminal (script k) = true ->
  Ts.polled w tok qid t = (Returned (true, S k), t ++ rounds sreq (S k)).
Proof.
  intros H0 Hk Hb Hscript Hlast. unfold Ts.polled, while_polling.
  rewrite (poll_loop_terminal w _ _ (ts_getRequestStatus_asks tok qid) script bound
             Hplays k); rewrite ?H0; cbn [Nat.add Nat.sub];
    try lia; try reflexivity; assumption.
Qed.

Lemma ts_polled_exhausted t :
  status_calls t = 0 -> 60 <= bound ->
  (forall i, i < 60 -> is_terminal (script i) = false) ->
  Ts.polled w tok qid t = (Returned (false, 60), t ++ rounds sreq 60).
Proof.
  intros H0 Hb Hscript. unfold Ts.polled, while_polling.
  rewrite (poll_loop_exhausted w _ _ (ts_getRequestStatus_asks tok qid) script bound
             Hplays); rewrite ?H0; cbn [Nat.add Nat.sub];
    try lia; try reflexivity; assumption.
Qed.

End TsPolling.

(** [getResults] issues the result request and returns the parsed body as it
    is. *)
Lemma ts_getResults_trace tok qid t :
  let rreq := results_request ts_root tok qid [] in
  snd (Ts.getResults w qid tok t) = t ++ [EvFetch rreq] /\
  forall v, fst (Ts.getResults w qid tok t) = Returned v ->
            exists resp, settled (net w t rreq) = Resolved resp /\ payload resp = Some v.
Proof.
  intro rreq. unfold Ts.getResults, bind, fetch, json, ret, throw.
  change (mkRequest GET _ _ None) with rreq. cbn [aborted].
  destruct (net w t rreq) as [[ms |] [resp | reason]]; cbn [latency settled];
    try (split; [reflexivity | discriminate]).
  destruct (payload resp) as [parsed |] eqn:E; (split; [reflexivity |]).
  - intros v [= <-]. now exists resp.
  - discriminate.
Qed.

Section TsRuns.
Variables (q : string) (apiKey : option string).
Variables (tok qid : JsVal) (t0 : Trace).
Hypothesis Hsubmitted : run (Ts.submitted w q apiKey) = (Returned (tok, qid), t0).

Let sreq := status_request ts_root tok qid [].

Lemma ts_run_after_polling x t1 :
  Ts.polled w tok qid t0 = (Returned x, t1) ->
  run (Ts.proofOfSqlQuery w q apiKey) = Ts.getResults w qid tok t1.
Proof.
  intro Hp. unfold run, Ts.proofOfSqlQuery.
  rewrite (bind_step _ _ _ _ _ Hsubmitted). cbn [fst snd].
  now rewrite (bind_step _ _ _ _ _ Hp).
Qed.

Lemma ts_finish_counts t :
  let r := Ts.getResults w qid tok t in
  status_calls (snd r) = status_calls t /\
  result_calls (snd r) = result_calls t + 1 /\
  sleeps (snd r) = sleeps t.
Proof.
  cbn zeta. destruct (ts_getResults_trace tok qid t) as [-> _].
  unfold status_calls, result_calls, sleeps.
  rewrite !tally_app, !tally_cons, !tally_nil; cbn [fetches is_sleep].
  rewrite results_request_is_results, results_request_not_status. lia.
Qed.

Lemma ts_polling_counts n :
  let t1 := t0 ++ rounds sreq n in
  status_calls t1 = n /\ result_calls t1 = 0 /\ sleeps t1 = n.
Proof.
  destruct (ts_submitted_quiet _ _ _ _ Hsubmitted) as (Hs & Hr & Hz & _).
  cbn zeta. unfold status_calls, result_calls, sleeps in *.
  rewrite !tally_app, !tally_rounds_fetch, Hs, Hr, Hz.
  fold (sleeps (rounds sreq n)). rewrite sleeps_rounds.
  unfold sreq. rewrite status_request_is_status, status_request_not_results. lia.
Qed.

End TsRuns.
End TsFacts.

(** ** The mock backends *)

Lemma job_world_plays script bound : plays (job_world script) script bound.
Proof.
  intros t req Hreq _. unfold is_status in Hreq.
  cbn [net job_world]. unfold job_net.
  destruct (method req); [| discriminate]. rewrite Hreq. reflexivity.
Qed.

Lemma pending_then_before k last i :
  i < k -> is_terminal (pending_then k last i) = false.
Proof.
  intro H. unfold pending_then. apply Nat.ltb_lt in H. now rewrite H.
Qed.

Lemma pending_then_at k last : pending_then k last k = JStr last.
Proof. unfold pending_then. now rewrite Nat.ltb_irrefl. Qed.

(** ** Polling: the claims *)

(** C4: for every [k < 60], when the job-status endpoint answers [pending] to
    its first [k] calls and [done] to the next one, the polling of both
    asynchronous clients ends with [success] set, and exactly [k + 1] status
    requests have been issued, in the polling and in the whole run. *)
Theorem pending_then_done_takes_k_plus_1_status_calls
    (w : World) (this : Async.SxTClient) (q : string) (bh apiKey : option string)
    (k : nat) :
  k < 60 ->
  plays w (pending_then k "done") (S k) ->
  (forall tok qid t0,
      run (Async.submitted w this q bh) = (Returned (tok, qid), t0) ->
      exists t1,
        Async.polled w this tok qid t0 = (Returned (true, k), t1) /\
        status_calls t1 = k + 1 /\
        status_calls (snd (run (Async.queryAndVerify w this q bh))) = k + 1)
  /\
  (forall tok qid t0,
      run (Ts.submitted w q apiKey) = (Returned (tok, qid), t0) ->
      exists t1,
        Ts.polled w tok qid t0 = (Returned (true, k + 1), t1) /\
        status_calls t1 = k + 1 /\
        status_calls (snd (run (Ts.proofOfSqlQuery w q apiKey))) = k + 1).
Proof.
  intros Hk Hplays. split; intros tok qid t0 Hsub.
  - destruct (async_submitted_quiet _ _ _ _ _ _ Hsub) as (Hs0 & _).
    assert (Hp := async_polled_terminal w this _ _ Hplays tok qid k t0 Hs0
                    ltac:(lia) ltac:(lia) (pending_then_before k "done")).
    rewrite pending_then_at in Hp. specialize (Hp eq_refl).
    eexists. split; [exact Hp |].
    destruct (async_polling_counts w this q bh tok qid t0 Hsub k) as (Hs1 & _).
    split; [exact Hs1 |].
    rewrite (async_run_after_polling w this q bh tok qid t0 Hsub _ _ Hp).
    destruct (async_finish_counts w this tok qid
                (t0 ++ EvFetch (status_request (Async.zkQueryRootURL this) tok qid
                                  json_header)
                    :: rounds (status_request (Async.zkQueryRootURL this) tok qid
                                 json_header) k)) as (-> & _).
    exact Hs1.
  - destruct (ts_submitted_quiet _ _ _ _ _ Hsub) as (Hs0 & _).
    assert (Hp := ts_polled_terminal w _ _ Hplays tok qid k t0 Hs0
                    Hk ltac:(lia) (pending_then_before k "done")).
    rewrite pending_then_at in Hp. specialize (Hp eq_refl).
    replace (k + 1) with (S k) by lia.
    eexists. split; [exact Hp |].
    destruct (ts_polling_counts w q apiKey tok qid t0 Hsub (S k)) as (Hs1 & _).
    split; [exact Hs1 |].
    rewrite (ts_run_after_polling w q apiKey tok qid t0 Hsub _ _ Hp).
    destruct (ts_finish_counts w tok qid
                (t0 ++ rounds (status_request ts_root tok qid []) (S k))) as (-> & _).
    exact Hs1.
Qed.


(** C3, as amended: when the job-status endpoint never answers with a terminal
    status, polling ends, [success] unset, after 60 rounds of the loop, each a
    sleep of 1000 ms and a status request: 60 status requests in
    [proofOfSqlQuery], 61 in [SxTClient.queryAndVerify], which checks once
    before the loop.  No error is raised for it: the run goes on exactly as the
    result step goes on from there, and the job-result endpoint receives one
    call. *)
Theorem exhausted_polling_is_followed_by_the_result_request
    (w : World) (this : Async.SxTClient) (q : string) (bh apiKey : option string) :
  (forall script tok qid t0,
      plays w script 61 ->
      (forall i, i < 61 -> is_terminal (script i) = false) ->
      run (Async.submitted w this q bh) = (Returned (tok, qid), t0) ->
      exists t1,
        Async.polled w this tok qid t0 = (Returned (false, 60), t1) /\
        status_calls t1 = 61 /\ sleeps t1 = 60 /\ result_calls t1 = 0 /\
        run (Async.queryAndVerify w this q bh)
        = Async.fetchedAndVerified w this tok qid t1 /\
        status_calls (snd (run (Async.queryAndVerify w this q bh))) = 61 /\
        result_calls (snd (run (Async.queryAndVerify w this q bh))) = 1)
  /\
  (forall script tok qid t0,
      plays w script 60 ->
      (forall i, i < 60 -> is_terminal (script i) = false) ->
      run (Ts.submitted w q apiKey) = (Returned (tok, qid), t0) ->
      exists t1,
        Ts.polled w tok qid t0 = (Returned (false, 60), t1) /\
        status_calls t1 = 60 /\ sleeps t1 = 60 /\ result_calls t1 = 0 /\
        run (Ts.proofOfSqlQuery w q apiKey) = Ts.getResults w qid tok t1 /\
        status_calls (snd (run (Ts.proofOfSqlQuery w q apiKey))) = 60 /\
        result_calls (snd (run (Ts.proofOfSqlQuery w q apiKey))) = 1).
Proof.
  split; intros script tok qid t0 Hplays Hscript Hsub.
  - destruct (async_submitted_quiet _ _ _ _ _ _ Hsub) as (Hs0 & _).
    assert (Hp := async_polled_exhausted w this _ _ Hplays tok qid t0 Hs0
                    (le_n 61) Hscript).
    eexists. split; [exact Hp |].
    destruct (async_polling_counts w this q bh tok qid t0 Hsub 60) as (Hs1 & Hr1 & Hz1).
    repeat (split; [assumption |]).
    rewrite (async_run_after_polling w this q bh tok qid t0 Hsub _ _ Hp).
    split; [reflexivity |].
    destruct (async_finish_counts w this tok qid
                (t0 ++ EvFetch (status_request (Async.zkQueryRootURL this) tok qid
                                  json_header)
                    :: rounds (status_request (Async.zkQueryRootURL this) tok qid
                                 json_header) 60)) as (-> & -> & _).
    rewrite Hr1. split; [exact Hs1 | reflexivity].
  - destruct (ts_submitted_quiet _ _ _ _ _ Hsub) as (Hs0 & _).
    assert (Hp := ts_polled_exhausted w _ _ Hplays tok qid t0 Hs0 (le_n 60) Hscript).
    eexists. split; [exact Hp |].
    destruct (ts_polling_counts w q apiKey tok qid t0 Hsub 60) as (Hs1 & Hr1 & Hz1).
    repeat (split; [assumption |]).
    rewrite (ts_run_after_polling w q apiKey tok qid t0 Hsub _ _ Hp).
    split; [reflexivity |].
    destruct (ts_finish_counts w tok qid
                (t0 ++ rounds (status_request ts_root tok qid []) 60))
      as (-> & -> & _).
    rewrite Hr1. split; [exact Hs1 | reflexivity].
Qed.

(** ** The synchronous client *)

Section ChainlinkFacts.
Variable w : World.
Variable this : Chainlink.SxTClient.

Lemma chainlink_post_trace url hs data t :
  snd (Chainlink.postHttpRequest w url hs data t)
  = t ++ [EvFetch (mkRequest POST url hs (if truthy data then Some data else None))].
Proof.
  unfold Chainlink.postHttpRequest, fetch. destruct (aborted _ _); [reflexivity |].
  destruct (latency _); [| reflexivity]. now destruct (settled _).
Qed.

Lemma chainlink_checked_trace (c : M Response) what t req :
  snd (c t) = t ++ [EvFetch req] ->
  snd (bind c (fun r => if negb (ok r) then throw (http_error what r) else json r) t)
  = t ++ [EvFetch req].
Proof.
  intro H. unfold bind. destruct (c t) as [[r | e |] t1]; cbn [snd] in *; subst; trivial.
  destruct (negb (ok r)); [reflexivity |]. unfold json. now destruct (payload r).
Qed.

Lemma chainlink_getAccessToken_shape t :
  (key_missing (Chainlink.sxtApiKey this) = true /\
   Chainlink.getAccessToken w this t = (Threw (Error "API Key Not Found"), t))
  \/ (key_missing (Chainlink.sxtApiKey this) = false /\
      snd (Chainlink.getAccessToken w this t) = t ++ [EvFetch (auth_request this)]).
Proof.
  unfold Chainlink.getAccessToken.
  destruct (key_missing (Chainlink.sxtApiKey this)); [now left | right].
  split; [reflexivity |]. apply chainlink_checked_trace, chainlink_post_trace.
Qed.

Lemma chainlink_getCommitment_trace key t :
  snd (Chainlink.getCommitment w this key t)
  = t ++ [EvFetch (commitment_request this key)].
Proof. apply chainlink_checked_trace, chainlink_post_trace. Qed.

Lemma chainlink_getProof_trace tok pq t :
  snd (Chainlink.getProof w this tok pq t) = t ++ [EvFetch (proof_request this tok pq)].
Proof. apply chainlink_checked_trace, chainlink_post_trace. Qed.

Lemma plan_run q cs t :
  plan_prover_query_dory w q cs t
  = (match wasm_plan_prover_query_dory w q cs with
     | inl e => Threw (WasmError e)
     | inr planned => Returned planned
     end, t ++ [EvPlan q cs]).
Proof.
  unfold plan_prover_query_dory, bind, emit, throw, ret.
  now destruct (wasm_plan_prover_query_dory w q cs).
Qed.

Lemma verify_dory_run response expr cs t :
  verify_prover_response_dory w response expr cs t
  = (verdict (wasm_verify_prover_response_dory w response expr cs),
     t ++ [EvVerifyDory response expr cs]).
Proof.
  unfold verify_prover_response_dory, bind, emit, throw, ret, verdict.
  now destruct (wasm_verify_prover_response_dory w response expr cs).
Qed.

Lemma new_TableRefAndCommitment_run table commitment t o t' :
  new_TableRefAndCommitment table commitment t = (o, t') ->
  t' = t /\ forall fetched, o = Returned fetched -> table_ref fetched = table.
Proof.
  unfold new_TableRefAndCommitment, bind, lift, ret.
  destruct (passStringToWasm0 commitment); intros [= <- <-]; split; trivial;
    try discriminate.
  now intros fetched [= <-].
Qed.

Ltac shape_done :=
  cbn; repeat split; intros; try lia; try discriminate; try assumption;
  try reflexivity.

(** Every run of [queryAndVerify] is an initial segment of [linear_run]: the
    number of steps performed decides what is known about it. *)
Lemma chainlink_run_shape q table key :
  let r := run (Chainlink.queryAndVerify w this q table key) in
  exists n tok fetched planned resp,
    snd r = firstn n (linear_run this q key tok fetched planned resp) /\
    n <= 5 /\
    (3 <= n -> table_ref fetched = table) /\
    (4 <= n -> wasm_plan_prover_query_dory w q [fetched] = inr planned) /\
    (n = 5 ->
     fst r = verdict (wasm_verify_prover_response_dory w resp
                        (query_expr_json planned) (commitments planned))) /\
    (n < 5 -> forall v, fst r <> Returned v).
Proof.
  pose (c0 := mkTableRefAndCommitment EmptyString EmptyString).
  pose (p0 := mkPlanned JNull JNull []).
  cbv [run Chainlink.queryAndVerify bind lift].
  destruct (chainlink_getAccessToken_shape []) as [[_ ->] | [_ Ht]].
  { exists 0, JNull, c0, p0, JNull. shape_done. }
  destruct (Chainlink.getAccessToken w this []) as [[a | e |] t1];
    cbn [snd app] in Ht; subst t1;
    try solve [exists 1, JNull, c0, p0, JNull; shape_done].
  destruct (member "accessToken" a) as [tok | e |];
    try solve [exists 1, JNull, c0, p0, JNull; shape_done].
  assert (Hc := chainlink_getCommitment_trace key [EvFetch (auth_request this)]).
  destruct (Chainlink.getCommitment w this key _) as [[cr | e |] t2];
    cbn [snd app] in Hc; subst t2;
    try solve [exists 2, JNull, c0, p0, JNull; shape_done].
  destruct (member "result" cr) as [result | e |];
    try solve [exists 2, JNull, c0, p0, JNull; shape_done].
  destruct (slice2 result) as [commitment | e |];
    try solve [exists 2, JNull, c0, p0, JNull; shape_done].
  destruct (new_TableRefAndCommitment table commitment _) as [o t3] eqn:En.
  apply new_TableRefAndCommitment_run in En. destruct En as [-> Htable].
  destruct o as [fetched | e |];
    try solve [exists 2, JNull, c0, p0, JNull; shape_done].
  specialize (Htable fetched eq_refl).
  rewrite plan_run.
  destruct (wasm_plan_prover_query_dory w q [fetched]) as [e | planned] eqn:Ep.
  { exists 3, tok, fetched, p0, JNull. shape_done. }
  cbn [app].
  assert (Hg := chainlink_getProof_trace tok (prover_query_json planned)
                  [EvFetch (auth_request this);
                   EvFetch (commitment_request this key); EvPlan q [fetched]]).
  destruct (Chainlink.getProof w this tok _ _) as [[resp | e |] t4];
    cbn [snd app] in Hg; subst t4;
    try solve [exists 4, tok, fetched, planned, JNull; shape_done].
  rewrite verify_dory_run.
  exists 5, tok, fetched, planned, resp. shape_done.
Qed.

End ChainlinkFacts.

(** *** Order of the steps *)



(** With the timer of [postHttpRequest] nothing stays pending. *)








(** *** The commitments handed to the verifier *)

(** C6: in the synchronous flow the commitments given to the verifier are the
    [commitments] member of what the planner returned for the fetched
    commitment -- and the plan given to it is the planner's too. *)
Theorem verify_receives_the_planned_commitments
    (w : World) (this : Chainlink.SxTClient) (q table key : string)
    (resp expr : JsVal) (cs : list TableRefAndCommitment) :
  let trace := snd (run (Chainlink.queryAndVerify w this q table key)) in
  In (EvVerifyDory resp expr cs) trace ->
  exists fetched planned,
    table_ref fetched = table /\
    In (EvPlan q [fetched]) trace /\
    wasm_plan_prover_query_dory w q [fetched] = inr planned /\
    cs = commitments planned /\
    expr = query_expr_json planned.
Proof.
  cbn zeta.
  destruct (chainlink_run_shape w this q table key)
    as (n & tok & fetched & planned & resp' & Htr & Hn & Htable & Hplan & _).
  cbn zeta in Htr. rewrite Htr. intro Hin.
  assert (E : n = 5).
  { do 5 (destruct n as [| n];
          [cbn in Hin; intuition discriminate |]). lia. }
  subst n. cbn in Hin.
  destruct Hin as [H | [H | [H | [H | [H | []]]]]]; try discriminate.
  injection H as <- <- <-.
  exists fetched, planned. repeat split; try (apply Htable || apply Hplan); try lia.
  cbn. auto.
Qed.

(** *** A storage key without value *)

(** C7, as amended: when the state-read RPC succeeds but its [result] is
    [null] or absent, the run is rejected with the [TypeError] the runtime
    raises on [result.slice(2)]; the two requests made so far are all the run
    does: nothing is planned, sent to the prover or verified. *)
Theorem missing_commitment_is_a_TypeError
    (w : World) (this : Chainlink.SxTClient) (q table key : string)
    (a tok cr result : JsVal) (t1 t2 : Trace) :
  Chainlink.getAccessToken w this [] = (Returned a, t1) ->
  member "accessToken" a = Returned tok ->
  Chainlink.getCommitment w this key t1 = (Returned cr, t2) ->
  member "result" cr = Returned result ->
  result = JNull \/ result = JUndefined ->
  run (Chainlink.queryAndVerify w this q table key)
  = (Threw (TypeError ("Cannot read properties of " ++ js_to_string result
                         ++ " (reading 'slice')")),
     [EvFetch (auth_request this); EvFetch (commitment_request this key)]).
Proof.
  intros Ha Htok Hcr Hres Hnone.
  assert (Ht1 : t1 = [EvFetch (auth_request this)]).
  { destruct (chainlink_getAccessToken_shape w this []) as [[_ E] | [_ E]];
      rewrite Ha in E; [discriminate | exact E]. }
  assert (Ht2 : t2 = t1 ++ [EvFetch (commitment_request this key)]).
  { rewrite <- (chainlink_getCommitment_trace w this key t1). now rewrite Hcr. }
  unfold run, Chainlink.queryAndVerify.
  step Ha. step_lift Htok. step Hcr. step_lift Hres. rewrite bind_lift. subst t2 t1.
  destruct Hnone as [-> | ->]; reflexivity.
Qed.

(** ** Timeouts *)

Lemma punctual_quiet {A} w (c : M A) :
  (forall t, snd (c t) = t) -> punctual w c.
Proof.
  intros H t0. exists []. rewrite app_nil_r. split; [apply H |].
  intros t req rest E. destruct t; discriminate.
Qed.

Lemma punctual_ret {A} w (a : A) : punctual w (ret a).
Proof. now apply punctual_quiet. Qed.

Lemma punctual_throw {A} w e : punctual w (@throw A e).
Proof. now apply punctual_quiet. Qed.

Lemma punctual_lift {A} w (o : Outcome A) : punctual w (lift o).
Proof. now apply punctual_quiet. Qed.

Lemma punctual_json w r : punctual w (json r).
Proof. apply punctual_quiet. intro t. unfold json. now destruct (payload r). Qed.

Lemma punctual_plan w q cs : punctual w (plan_prover_query_dory w q cs).
Proof.
  intro t0. exists [EvPlan q cs]. rewrite plan_run. split; [reflexivity |].
  intros [| x [| y t]] req rest E; discriminate.
Qed.

Lemma punctual_verify w response expr cs :
  punctual w (verify_prover_response_dory w response expr cs).
Proof.
  intro t0. exists [EvVerifyDory response expr cs]. rewrite verify_dory_run.
  split; [reflexivity |]. intros [| x [| y t]] req rest E; discriminate.
Qed.

Lemma punctual_new_TableRefAndCommitment w table commitment :
  punctual w (new_TableRefAndCommitment table commitment).
Proof.
  apply punctual_quiet. intro t.
  destruct (new_TableRefAndCommitment table commitment t) as [o t'] eqn:E.
  apply new_TableRefAndCommitment_run in E. now destruct E as [-> _].
Qed.

(** A request under the 3000 ms timer. *)
Lemma fetch_slow w req t :
  slow (latency (net w t req)) ->
  fetch w req (Some 3000) t = (Threw AbortError, t ++ [EvFetch req]).
Proof.
  unfold fetch, slow, aborted. destruct (latency (net w t req)) as [ms |]; intro H.
  - apply Nat.ltb_lt in H. now rewrite H.
  - reflexivity.
Qed.

Lemma punctual_fetch w req : punctual w (fetch w req (Some 3000)).
Proof.
  intro t0. exists [EvFetch req]. split.
  - unfold fetch. destruct (aborted _ _); [reflexivity |].
    destruct (latency _); [| reflexivity]. now destruct (settled _).
  - intros [| x [| y t]] req' rest E; try discriminate.
    injection E as <- <-. rewrite app_nil_r. intro H.
    now rewrite (fetch_slow _ _ _ H).
Qed.

Lemma punctual_bind {A B} w (c : M A) (k : A -> M B) :
  punctual w c -> (forall a, punctual w (k a)) -> punctual w (bind c k).
Proof.
  intros Hc Hk t0. destruct (Hc t0) as (d & Hd & Hslow). unfold bind.
  destruct (c t0) as [[a | e |] t1] eqn:Ec; cbn [fst snd] in *; subst t1;
    try solve [exists d; split; [reflexivity |];
               intros t req rest E Hs; destruct (Hslow t req rest E Hs) as [Ho ->];
               (discriminate Ho || (injection Ho as ->; now split))].
  destruct (Hk a (t0 ++ d)) as (d' & Hd' & Hslow').
  exists (d ++ d'). rewrite Hd', app_assoc. split; [reflexivity |].
  intros t req rest E Hs.
  apply app_eq_app in E. destruct E as (l & [[-> E] | [-> E]]).
  - destruct l as [| x l].
    + rewrite app_nil_r in *. cbn in E. subst d'.
      apply (Hslow' [] req rest eq_refl). now rewrite app_nil_r.
    + injection E as <- ->.
      destruct (Hslow t req l eq_refl Hs) as [Habs _]. discriminate.
  - apply (Hslow' l req rest E). now rewrite <- app_assoc.
Qed.

Ltac punctual_step :=
  first
    [ apply punctual_ret | apply punctual_throw | apply punctual_lift
    | apply punctual_json | apply punctual_fetch | apply punctual_plan
    | apply punctual_verify | apply punctual_new_TableRefAndCommitment
    | apply punctual_bind; [| intro]
    | match goal with
      | |- punctual _ (if ?b then _ else _) => destruct b
      end ].

Lemma chainlink_punctual w this q table key :
  punctual w (Chainlink.queryAndVerify w this q table key).
Proof.
  unfold Chainlink.queryAndVerify, Chainlink.getAccessToken, Chainlink.getCommitment,
    Chainlink.getProof, Chainlink.postHttpRequest.
  cbn zeta. repeat punctual_step.
Qed.

(** C9: every request the synchronous client issues through [postHttpRequest]
    runs under a timer of 3000 ms.  A request of [postHttpRequest] that the
    transport has not settled by then is rejected with [AbortError], one that
    is settled earlier is not; and in a run of [queryAndVerify], whichever of
    its requests is the slow one -- for the access token, the commitment or
    the proof -- it is the last thing the run does, and the run is rejected
    with [AbortError]. *)
Theorem requests_are_aborted_after_3000_ms
    (w : World) (this : Chainlink.SxTClient) (q table key : string) :
  (forall url hs data t,
      let req := mkRequest POST url hs (if truthy data then Some data else None) in
      slow (latency (net w t req)) ->
      Chainlink.postHttpRequest w url hs data t = (Threw AbortError, t ++ [EvFetch req]))
  /\
  (forall url hs data t ms,
      let req := mkRequest POST url hs (if truthy data then Some data else None) in
      latency (net w t req) = After ms -> ms < 3000 ->
      fst (Chainlink.postHttpRequest w url hs data t) <> Threw AbortError)
  /\
  (forall t req rest,
      snd (run (Chainlink.queryAndVerify w this q table key)) = t ++ EvFetch req :: rest ->
      slow (latency (net w t req)) ->
      fst (run (Chainlink.queryAndVerify w this q table key)) = Threw AbortError
      /\ rest = []).
Proof.
  split; [| split].
  - intros url hs data t req H. apply fetch_slow, H.
  - intros url hs data t ms req Hl Hms.
    unfold Chainlink.postHttpRequest, fetch. fold req. rewrite Hl. cbn [aborted].
    assert (E : (3000 <? ms)%nat = false) by (apply Nat.ltb_ge; lia).
    rewrite E. destruct (settled _); discriminate.
  - intros t req rest Htr Hs.
    destruct (chainlink_punctual w this q table key []) as (d & Hd & Hslow).
    unfold run in *. cbn [app] in Hd. rewrite Hd in Htr. apply (Hslow t req rest Htr Hs).
Qed.

(** ** No timer in the asynchronous client *)

Lemma never_aborts_bind {A B} (c : M A) (k : A -> M B) :
  never_aborts c -> (forall a, never_aborts (k a)) -> never_aborts (bind c k).
Proof.
  intros Hc Hk t. unfold bind. specialize (Hc t).
  destruct (c t) as [[a | e |] t1]; cbn [fst] in *; [apply Hk | | discriminate].
  intros [= ->]. now apply Hc.
Qed.

Lemma never_aborts_ret {A} (a : A) : never_aborts (ret a).
Proof. intro t. discriminate. Qed.

Lemma never_aborts_emit e : never_aborts (emit e).
Proof. intro t. discriminate. Qed.

Lemma never_aborts_fetch w req : never_aborts (fetch w req None).
Proof.
  intro t. unfold fetch. cbn [aborted]. destruct (latency _); [| discriminate].
  destruct (settled _); discriminate.
Qed.

Lemma never_aborts_json r : never_aborts (json r).
Proof. intro t. unfold json. destruct (payload r); discriminate. Qed.

Lemma never_aborts_member p v : never_aborts (lift (member p v)).
Proof. intro t. unfold lift. destruct v; discriminate. Qed.

Lemma never_aborts_http_error what r : never_aborts (@throw JsVal (http_error what r)).
Proof. intro t. discriminate. Qed.

Lemma never_aborts_poll_loop getStatus :
  never_aborts getStatus ->
  forall fuel success count, never_aborts (poll_loop getStatus fuel success count).
Proof.
  intro Hg. induction fuel as [| fuel IH]; intros success count;
    cbn [poll_loop]; destruct (negb success && (count <? 60)%nat);
    try apply never_aborts_ret.
  apply never_aborts_bind; [apply never_aborts_emit |]. intros _.
  apply never_aborts_bind; [exact Hg |]. intro v. apply IH.
Qed.

Ltac never_aborts_step :=
  first
    [ apply never_aborts_ret | apply never_aborts_json | apply never_aborts_fetch
    | apply never_aborts_member | apply never_aborts_http_error
    | apply never_aborts_emit
    | apply never_aborts_poll_loop
    | apply never_aborts_bind; [| intro]
    | match goal with
      | |- never_aborts (if ?b then _ else _) => destruct b
      | |- never_aborts (match ?x with _ => _ end) => destruct x
      | |- never_aborts (throw _) => intro; discriminate
      end ].

Lemma async_never_aborts w this q bh :
  never_aborts (Async.queryAndVerify w this q bh).
Proof.
  unfold Async.queryAndVerify, Async.submitted, Async.polled, while_polling,
    Async.fetchedAndVerified, Async.statusOf, Async.getZkQueryStatus,
    Async.getZkQueryResult, Async.getZkQueryApi, Async.submitZkQueryRequest,
    Async.postZkQueryApi, Async.getAttestations, Async.querySubstrateRpc,
    Async.getAccessToken, Async.postHttpRequest, Async.getHttpRequest,
    verify_prover_response_hyper_kzg.
  cbn zeta. repeat never_aborts_step.
Qed.

(** Two computations that do the same on every trace. *)
Lemma bind_ext {A B} (c c' : M A) (k k' : A -> M B) :
  (forall t, c t = c' t) -> (forall a t, k a t = k' a t) ->
  forall t, bind c k t = bind c' k' t.
Proof.
  intros Hc Hk t. unfold bind. rewrite Hc.
  destruct (c' t) as [[a | e |] t1]; [apply Hk | reflexivity | reflexivity].
Qed.

Lemma poll_loop_ext (g g' : M JsVal) :
  (forall t, g t = g' t) ->
  forall fuel success count t,
    poll_loop g fuel success count t = poll_loop g' fuel success count t.
Proof.
  intro Hg. induction fuel as [| fuel IH]; intros success count t;
    cbn [poll_loop]; destruct (negb success && (count <? 60)%nat); try reflexivity.
  apply bind_ext; [reflexivity |]. intros _ t1.
  apply bind_ext; [exact Hg |]. intros v t2. apply IH.
Qed.

Lemma fetch_slowed d w req t : fetch (slowed d w) req None t = fetch w req None t.
Proof.
  unfold fetch, slowed, delay. cbn [net latency settled aborted].
  now destruct (latency (net w t req)).
Qed.

Ltac ext_step :=
  first
    [ apply fetch_slowed
    | apply poll_loop_ext; intro
    | apply bind_ext; [intro | intros ? ?]
    | match goal with
      | |- (if ?b then _ else _) _ = (if ?b then _ else _) _ => destruct b
      | |- (match ?x with _ => _ end) _ = (match ?x with _ => _ end) _ => destruct x
      end
    | reflexivity ].

Lemma async_slowed d w this q bh t :
  Async.queryAndVerify (slowed d w) this q bh t = Async.queryAndVerify w this q bh t.
Proof.
  unfold Async.queryAndVerify, Async.submitted, Async.polled, while_polling,
    Async.fetchedAndVerified, Async.statusOf, Async.getZkQueryStatus,
    Async.getZkQueryResult, Async.getZkQueryApi, Async.submitZkQueryRequest,
    Async.postZkQueryApi, Async.getAttestations, Async.querySubstrateRpc,
    Async.getAccessToken, Async.postHttpRequest, Async.getHttpRequest,
    verify_prover_response_hyper_kzg.
  cbn zeta. repeat ext_step.
Qed.

(** C10: the asynchronous client's [postHttpRequest] and [getHttpRequest] pass
    on the signal of a controller that nothing aborts.  Neither helper, and
    no run of [queryAndVerify], is ever rejected with [AbortError]; and the
    run is the same however late the transport answers: delaying every answer
    by [d] ms changes neither its outcome nor its trace. *)
Theorem async_requests_are_never_aborted
    (w : World) (this : Async.SxTClient) (q : string) (bh : option string) :
  (forall url hs data t,
      fst (Async.postHttpRequest w url hs data t) <> Threw AbortError) /\
  (forall url hs t,
      fst (Async.getHttpRequest w url hs t) <> Threw AbortError) /\
  fst (run (Async.queryAndVerify w this q bh)) <> Threw AbortError /\
  (forall d,
      run (Async.queryAndVerify (slowed d w) this q bh)
      = run (Async.queryAndVerify w this q bh)).
Proof.
  repeat split.
  - intros url hs data t. apply never_aborts_fetch.
  - intros url hs t. apply never_aborts_fetch.
  - apply async_never_aborts.
  - intro d. apply async_slowed.
Qed.

(** ** Credentials *)

Lemma bind_first {A B} (c : M A) (k : A -> M B) e :
  (forall a, emits (fun _ => True) (k a)) ->
  (exists rest, snd (c []) = e :: rest) ->
  exists rest, snd (bind c k []) = e :: rest.
Proof.
  intros Hk [rest H]. unfold bind.
  destruct (c []) as [[a | e' |] t1]; cbn [snd] in H; subst t1;
    try now exists rest.
  destruct (Hk a (e :: rest)) as (d & -> & _). now exists (rest ++ d).
Qed.

Ltac emits_any :=
  repeat first [ exact I | apply emits_poll_loop | emits_step ].

(** C5, as amended: an [SxTClient], synchronous or asynchronous, whose API key
    is missing or empty fails in [queryAndVerify] with
    [Error("API Key Not Found")] before any request is issued.
    [proofOfSqlQuery] has no such check: whatever its [apiKey], the first
    thing it does is to post it to the auth endpoint. *)
Theorem missing_api_key_stops_SxTClient_before_any_request :
  (forall w (this : Chainlink.SxTClient) q table key,
      key_missing (Chainlink.sxtApiKey this) = true ->
      run (Chainlink.queryAndVerify w this q table key)
      = (Threw (Error "API Key Not Found"), []))
  /\
  (forall w (this : Async.SxTClient) q bh,
      key_missing (Async.sxtApiKey this) = true ->
      run (Async.queryAndVerify w this q bh)
      = (Threw (Error "API Key Not Found"), []))
  /\
  (forall w q apiKey,
      exists rest,
        snd (run (Ts.proofOfSqlQuery w q apiKey))
        = EvFetch (mkRequest POST "https://proxy.api.makeinfinite.dev/auth/apikey"
                     [("apikey", key_header apiKey)] None) :: rest).
Proof.
  repeat split.
  - intros w this q table key H.
    unfold run, Chainlink.queryAndVerify, Chainlink.getAccessToken. now rewrite H.
  - intros w this q bh H.
    unfold run, Async.queryAndVerify, Async.submitted, Async.getAccessToken.
    now rewrite H.
  - intros w q apiKey.
    unfold run, Ts.proofOfSqlQuery, Ts.submitted, Ts.getAccessToken.
    apply bind_first.
    { intro session. unfold Ts.polled, while_polling, Ts.getRequestStatus, Ts.getResults.
      emits_any. }
    apply bind_first.
    { intro tok. unfold Ts.postQuerySubmitRequest. emits_any. }
    apply bind_first.
    { intro response. emits_any. }
    exists []. unfold fetch. cbn [aborted app].
    destruct (latency _); [| reflexivity]. now destruct (settled _).
Qed.

(** ** What is returned *)

Lemma ts_never_verifies w q apiKey :
  emits (fun e => is_verify e = false) (Ts.proofOfSqlQuery w q apiKey).
Proof.
  unfold Ts.proofOfSqlQuery, Ts.submitted, Ts.getAccessToken,
    Ts.postQuerySubmitRequest, Ts.polled, while_polling, Ts.getRequestStatus,
    Ts.getResults.
  repeat first [ reflexivity | apply emits_poll_loop | emits_step ].
Qed.

(** C2, as amended: what [SxTClient.queryAndVerify] returns, in the synchronous
    and in the asynchronous client, is what the verifier returned, and the call
    of the verifier is the last thing the run did; otherwise the run throws
    (or stays pending).  [proofOfSqlQuery] never calls a verifier: what it
    returns is the body of the answer to its result request, as it came. *)
Theorem queryAndVerify_returns_only_verified_results :
  (forall w (this : Chainlink.SxTClient) q table key v,
      fst (run (Chainlink.queryAndVerify w this q table key)) = Returned v ->
      exists t resp expr cs,
        snd (run (Chainlink.queryAndVerify w this q table key))
        = t ++ [EvVerifyDory resp expr cs] /\
        wasm_verify_prover_response_dory w resp expr cs = inr v)
  /\
  (forall w (this : Async.SxTClient) q bh v,
      fst (run (Async.queryAndVerify w this q bh)) = Returned v ->
      exists t resp,
        snd (run (Async.queryAndVerify w this q bh)) = t ++ [EvVerifyHyperKzg resp] /\
        wasm_verify_prover_response_hyper_kzg w resp = inr v)
  /\
  (forall w q apiKey,
      verifications (snd (run (Ts.proofOfSqlQuery w q apiKey))) = 0 /\
      forall v,
        fst (run (Ts.proofOfSqlQuery w q apiKey)) = Returned v ->
        exists t rreq resp,
          snd (run (Ts.proofOfSqlQuery w q apiKey)) = t ++ [EvFetch rreq] /\
          is_results rreq = true /\
          settled (net w t rreq) = Resolved resp /\
          payload resp = Some v).
Proof.
  split; [| split].
  - intros w this q table key v Hv.
    destruct (chainlink_run_shape w this q table key)
      as (n & tok & fetched & planned & resp & Htr & Hn & _ & _ & H5 & Hlt).
    cbn zeta in *.
    assert (E : n = 5).
    { destruct (Nat.eq_dec n 5) as [E | E]; [exact E |].
      exfalso. apply (Hlt ltac:(lia) v Hv). }
    subst n. specialize (H5 eq_refl). rewrite Hv in H5.
    exists (firstn 4 (linear_run this q key tok fetched planned resp)),
      resp, (query_expr_json planned), (commitments planned).
    split; [exact Htr |].
    destruct (wasm_verify_prover_response_dory w resp _ _); [discriminate |].
    cbn in H5. congruence.
  - intros w this q bh v Hv.
    destruct (run (Async.queryAndVerify w this q bh)) as [o tr] eqn:Er.
    cbn [fst snd] in *. subst o. unfold run, Async.queryAndVerify in Er.
    apply bind_returned in Er. destruct Er as (session & t0 & _ & Er).
    apply bind_returned in Er. destruct Er as (x & t1 & _ & Er).
    destruct (async_fetchedAndVerified_trace w this (fst session) (snd session) t1)
      as [[resp E] | [_ E]].
    + rewrite E in Er. injection Er as Ev <-.
      exists (t1 ++ [EvFetch (results_request (Async.zkQueryRootURL this)
                               (fst session) (snd session) json_header)]), resp.
      rewrite <- app_assoc. split; [reflexivity |].
      destruct (wasm_verify_prover_response_hyper_kzg w resp); [discriminate |].
      congruence.
    + exfalso. apply (E v). now rewrite Er.
  - intros w q apiKey. split.
    + destruct (ts_never_verifies w q apiKey []) as (d & Hd & HP).
      unfold run. rewrite Hd. now apply tally_none.
    + intros v Hv.
      destruct (run (Ts.proofOfSqlQuery w q apiKey)) as [o tr] eqn:Er.
      cbn [fst snd] in *. subst o. unfold run, Ts.proofOfSqlQuery in Er.
      apply bind_returned in Er. destruct Er as (session & t0 & _ & Er).
      apply bind_returned in Er. destruct Er as (x & t1 & _ & Er).
      destruct (ts_getResults_trace w (fst session) (snd session) t1) as [Htr Hret].
      rewrite Er in Htr, Hret. cbn [fst snd] in *.
      destruct (Hret v eq_refl) as (resp & Hs & Hp).
      exists t1, (results_request ts_root (fst session) (snd session) []), resp.
      repeat split; try assumption. apply results_request_is_results.
Qed.

(** ** Runs on the mock backends

    Each statement above with a premise is applied here to a concrete
    backend, and each statement of the specification that the clients do not
    satisfy is evaluated on one. *)

Lemma pending_then_done_witness :
  status_calls (snd (run (Async.queryAndVerify (job_world (pending_then 3 "done"))
                            async_client scenario_query None))) = 3 + 1
  /\ status_calls (snd (run (Ts.proofOfSqlQuery (job_world (pending_then 3 "done"))
                               scenario_query (Some "sxt-key")))) = 3 + 1.
Proof.
  destruct (pending_then_done_takes_k_plus_1_status_calls
              (job_world (pending_then 3 "done")) async_client scenario_query
              None (Some "sxt-key") 3 ltac:(lia) (job_world_plays _ _)) as [Ha Ht].
  destruct (Ha _ _ _ eq_refl) as (t1 & _ & _ & H1).
  destruct (Ht _ _ _ eq_refl) as (t2 & _ & _ & H2).
  split; assumption.
Defined.



(** C3 does not hold: the status endpoint says [pending] for ever; the run does
    not fail, it requests the result after 61 status requests (60 in
    [proofOfSqlQuery]) and returns. *)
Lemma pending_job_result_is_requested_and_returned :
  let w := job_world (fun _ => JStr "pending") in
  let r := run (Async.queryAndVerify w async_client scenario_query None) in
  let r' := run (Ts.proofOfSqlQuery w scenario_query (Some "sxt-key")) in
  plays w (fun _ => JStr "pending") 1000 /\
  fst r = Returned (JObj [("count", JNum 42)]) /\
  status_calls (snd r) = 61 /\ result_calls (snd r) = 1 /\ verifications (snd r) = 1 /\
  fst r' = Returned proof_of_42 /\
  status_calls (snd r') = 60 /\ result_calls (snd r') = 1.
Proof.
  cbv zeta. split; [apply job_world_plays |].
  repeat split; vm_compute; reflexivity.
Qed.

Lemma exhausted_polling_witness :
  let w := job_world (fun _ => JStr "pending") in
  status_calls (snd (run (Async.queryAndVerify w async_client scenario_query None))) = 61
  /\ result_calls (snd (run (Async.queryAndVerify w async_client scenario_query None))) = 1
  /\ status_calls (snd (run (Ts.proofOfSqlQuery w scenario_query (Some "sxt-key")))) = 60
  /\ result_calls (snd (run (Ts.proofOfSqlQuery w scenario_query (Some "sxt-key")))) = 1.
Proof.
  cbv zeta.
  destruct (exhausted_polling_is_followed_by_the_result_request
              (job_world (fun _ => JStr "pending")) async_client scenario_query
              None (Some "sxt-key")) as [Ha Ht].
  destruct (Ha (fun _ => JStr "pending") _ _ _
              (job_world_plays _ _) (fun _ _ => eq_refl) eq_refl)
    as (t1 & _ & _ & _ & _ & _ & H1 & H2).
  destruct (Ht (fun _ => JStr "pending") _ _ _
              (job_world_plays _ _) (fun _ _ => eq_refl) eq_refl)
    as (t2 & _ & _ & _ & _ & _ & H3 & H4).
  repeat split; assumption.
Defined.

(** C2 does not hold: [proofOfSqlQuery] returns the answer of the job-result
    endpoint, and no verifier has seen it. *)
Lemma proofOfSqlQuery_returns_an_unverified_response :
  let r := run (Ts.proofOfSqlQuery (job_world (pending_then 0 "done"))
                  scenario_query (Some "sxt-key")) in
  fst r = Returned proof_of_42 /\ verifications (snd r) = 0 /\ result_calls (snd r) = 1.
Proof. cbv zeta. repeat split; vm_compute; reflexivity. Qed.

Lemma verified_results_witness :
  (exists t resp expr cs,
      snd (run (Chainlink.queryAndVerify (node_world (JStr "0xAB12") (After 20))
                  sync_client scenario_query scenario_table "0xkey"))
      = t ++ [EvVerifyDory resp expr cs] /\
      mock_verify resp = inr (JObj [("count", JNum 42)]))
  /\
  (exists t resp,
      snd (run (Async.queryAndVerify (job_world (pending_then 1 "done"))
                  async_client scenario_query None))
      = t ++ [EvVerifyHyperKzg resp] /\
      mock_verify resp = inr (JObj [("count", JNum 42)])).
Proof.
  destruct queryAndVerify_returns_only_verified_results as (Hsync & Hasync & _).
  split.
  - apply (Hsync (node_world (JStr "0xAB12") (After 20)) sync_client scenario_query
             scenario_table "0xkey" (JObj [("count", JNum 42)])).
    reflexivity.
  - apply (Hasync (job_world (pending_then 1 "done")) async_client scenario_query
             None (JObj [("count", JNum 42)])).
    reflexivity.
Defined.

(** C5 does not hold: with an empty or a missing [apiKey], [proofOfSqlQuery]
    does not fail; it issues all its four requests. *)
Lemma proofOfSqlQuery_sends_requests_without_a_key :
  let w := job_world (pending_then 0 "done") in
  let r := run (Ts.proofOfSqlQuery w scenario_query (Some EmptyString)) in
  let r' := run (Ts.proofOfSqlQuery w scenario_query None) in
  key_missing (Some EmptyString) = true /\ fst r = Returned proof_of_42 /\ http_calls (snd r) = 4 /\
  key_missing None = true /\ fst r' = Returned proof_of_42 /\ http_calls (snd r') = 4.
Proof. cbv zeta. repeat split; vm_compute; reflexivity. Qed.

Lemma missing_api_key_witness :
  run (Chainlink.queryAndVerify (node_world (JStr "0xAB12") (After 20))
         keyless_sync_client scenario_query scenario_table "0xkey")
  = (Threw (Error "API Key Not Found"), [])
  /\
  run (Async.queryAndVerify (job_world (pending_then 0 "done"))
         keyless_async_client scenario_query None)
  = (Threw (Error "API Key Not Found"), []).
Proof.
  destruct missing_api_key_stops_SxTClient_before_any_request as (Hsync & Hasync & _).
  split.
  - apply Hsync. reflexivity.
  - apply Hasync. reflexivity.
Defined.

Lemma planned_commitments_witness :
  exists fetched planned,
    table_ref fetched = scenario_table /\
    In (EvPlan scenario_query [fetched])
       (snd (run (Chainlink.queryAndVerify (node_world (JStr "0xAB12") (After 20))
                    sync_client scenario_query scenario_table "0xkey"))) /\
    mock_plan scenario_query [fetched] = inr planned /\
    [mkTableRefAndCommitment "ETHEREUM.TRANSACTIONS" "00AB12"] = commitments planned /\
    JObj [("plan", JStr scenario_query)] = query_expr_json planned.
Proof.
  apply (verify_receives_the_planned_commitments
           (node_world (JStr "0xAB12") (After 20)) sync_client scenario_query
           scenario_table "0xkey" proof_of_42).
  vm_compute. do 4 right. left. reflexivity.
Defined.

(** The end-to-end scenario: token [tok1], stored commitment [0xAB12], a
    verifier that maps the prover's response to [{count: 42}].  The run makes
    one request each to the auth, the commitment and the prover endpoint, and
    the commitments the verifier gets are the planner's, not the ones fetched
    before planning. *)
Lemma end_to_end_scenario :
  run (Chainlink.queryAndVerify (node_world (JStr "0xAB12") (After 20))
         sync_client scenario_query scenario_table "0xkey")
  = (Returned (JObj [("count", JNum 42)]),
     linear_run sync_client scenario_query "0xkey" (JStr "tok1")
       (mkTableRefAndCommitment scenario_table "AB12")
       (mkPlanned (JObj [("query", JStr scenario_query)])
          (JObj [("plan", JStr scenario_query)])
          [mkTableRefAndCommitment "ETHEREUM.TRANSACTIONS" "00AB12"])
       proof_of_42).
Proof. reflexivity. Qed.

(** C7 does not hold: the state-read RPC answers [{result: null}]; the run is
    rejected, but with the runtime's [TypeError], not with an error the client
    throws for a commitment that is not there. *)
Lemma missing_commitment_is_not_a_client_error :
  let r := run (Chainlink.queryAndVerify (node_world JNull (After 20))
                  sync_client scenario_query scenario_table "0xkey") in
  fst r = Threw (TypeError "Cannot read properties of null (reading 'slice')") /\
  ~ (exists message, fst r = Threw (Error message)).
Proof.
  cbv zeta. split; [reflexivity |]. intros [message H]. vm_compute in H. discriminate.
Qed.

Lemma missing_commitment_witness :
  run (Chainlink.queryAndVerify (node_world JNull (After 20))
         sync_client scenario_query scenario_table "0xkey")
  = (Threw (TypeError "Cannot read properties of null (reading 'slice')"),
     [EvFetch (auth_request sync_client);
      EvFetch (commitment_request sync_client "0xkey")]).
Proof.
  apply (missing_commitment_is_a_TypeError (node_world JNull (After 20)) sync_client
           scenario_query scenario_table "0xkey"
           (JObj [("accessToken", JStr "tok1")]) (JStr "tok1")
           (JObj [("jsonrpc", JStr "2.0"); ("id", JNum 1); ("result", JNull)]) JNull
           [EvFetch (auth_request sync_client)]
           [EvFetch (auth_request sync_client);
            EvFetch (commitment_request sync_client "0xkey")]);
    try reflexivity.
  left. reflexivity.
Defined.


Lemma abort_witness :
  fst (run (Chainlink.queryAndVerify (node_world (JStr "0xAB12") (After 3001))
              sync_client scenario_query scenario_table "0xkey"))
  = Threw AbortError.
Proof.
  destruct (requests_are_aborted_after_3000_ms
              (node_world (JStr "0xAB12") (After 3001)) sync_client scenario_query
              scenario_table "0xkey") as (_ & _ & H).
  apply (H [] (auth_request sync_client) []).
  - reflexivity.
  - cbn. lia.
Defined.

Lemma never_aborted_witness :
  run (Async.queryAndVerify (slowed 4000 (job_world (pending_then 1 "done")))
         async_client scenario_query None)
  = run (Async.queryAndVerify (job_world (pending_then 1 "done"))
           async_client scenario_query None).
Proof.
  apply (async_requests_are_never_aborted (job_world (pending_then 1 "done"))
           async_client scenario_query None).
Defined.

(** * More of the clients *)

Ltac finish_shape :=
  cbn; repeat split; intros; try lia; try discriminate; try assumption;
  try reflexivity.

(** ** The shape of the asynchronous runs *)

(** Whatever [getStatus] returns, the loop adds whole rounds to the trace, and
    no more of them than [count] leaves. *)
Lemma poll_loop_trace getStatus req :
  (forall t, snd (getStatus t) = t ++ [EvFetch req]) ->
  forall fuel success count t,
  exists n,
    snd (poll_loop getStatus fuel success count t) = t ++ rounds req n /\
    n <= 60 - count /\
    (success = true -> n = 0) /\
    (success = false -> count < 60 -> 0 < fuel -> 0 < n).
Proof.
  intro Hg. induction fuel as [| fuel IH]; intros success count t; cbn [poll_loop].
  - exists 0. cbn [rounds]. rewrite app_nil_r.
    destruct (negb success && (count <? 60)%nat); cbn; repeat split; lia.
  - destruct (negb success && (count <? 60)%nat) eqn:G.
    + apply andb_true_iff in G. destruct G as [Gs Gc].
      apply Nat.ltb_lt in Gc. apply negb_true_iff in Gs. subst success.
      unfold sleep, emit, bind at 1.
      specialize (Hg (t ++ [EvSleep 1000])).
      unfold bind. destruct (getStatus (t ++ [EvSleep 1000])) as [[v | e |] t1];
        cbn [snd] in Hg; subst t1.
      * destruct (IH (is_terminal v) (S count) ((t ++ [EvSleep 1000]) ++ [EvFetch req]))
          as (n & Hn & Hle & _).
        exists (S n). rewrite Hn. cbn [rounds]. rewrite <- !app_assoc.
        repeat split; try lia; try discriminate.
      * exists 1. cbn [rounds snd]. rewrite <- !app_assoc.
        repeat split; try lia; try discriminate.
      * exists 1. cbn [rounds snd]. rewrite <- !app_assoc.
        repeat split; try lia; try discriminate.
    + exists 0. cbn [rounds snd]. rewrite app_nil_r.
      apply andb_false_iff in G. repeat split; try lia.
      intros -> Hc _. destruct G as [G | G]; [discriminate |].
      apply Nat.ltb_ge in G. lia.
Qed.

Section AsyncShape.
Variable w : World.
Variable this : Async.SxTClient.

Lemma async_post_trace url hs data t :
  snd (Async.postHttpRequest w url hs data t)
  = t ++ [EvFetch (mkRequest POST url hs (if truthy data then Some data else None))].
Proof.
  unfold Async.postHttpRequest, fetch. cbn [aborted].
  destruct (latency _); [| reflexivity]. now destruct (settled _).
Qed.

Lemma async_getAccessToken_shape t :
  (key_missing (Async.sxtApiKey this) = true /\
   Async.getAccessToken w this t = (Threw (Error "API Key Not Found"), t))
  \/ (key_missing (Async.sxtApiKey this) = false /\
      snd (Async.getAccessToken w this t) = t ++ [EvFetch (async_auth_request this)]).
Proof.
  unfold Async.getAccessToken.
  destruct (key_missing (Async.sxtApiKey this)); [now left | right].
  split; [reflexivity |]. apply chainlink_checked_trace, async_post_trace.
Qed.

Lemma async_getAttestations_trace bh t :
  snd (Async.getAttestations w this bh t) = t ++ [EvFetch (attestation_request this bh)].
Proof.
  unfold Async.getAttestations, attestation_request, requested_block.
  destruct bh as [h |]; [destruct (String.eqb h EmptyString) |]; cbn [negb];
    apply chainlink_checked_trace, async_post_trace.
Qed.

Lemma async_submit_trace tok q hash t :
  snd (Async.submitZkQueryRequest w this tok
         (JObj [("sqlText", JStr q); ("sourceNetwork", JStr "mainnet");
                ("commitmentScheme", JStr "HYPER_KZG");
                ("blockHash", hash); ("timeout", JNull)]) t)
  = t ++ [EvFetch (submit_request this tok q hash)].
Proof. apply chainlink_checked_trace, async_post_trace. Qed.

(** The submission is an initial segment of its three requests. *)
Lemma async_submitted_shape q bh :
  let r := run (Async.submitted w this q bh) in
  exists n tok hash,
    snd r = firstn n (submission this q bh tok hash) /\
    n <= 3 /\
    (forall session, fst r = Returned session -> n = 3 /\ fst session = tok).
Proof.
  cbv [run Async.submitted bind lift].
  destruct (async_getAccessToken_shape []) as [[_ ->] | [_ Ht]].
  { exists 0, JNull, JNull. finish_shape. }
  destruct (Async.getAccessToken w this []) as [[a | e |] t1];
    cbn [snd app] in Ht; subst t1;
    try solve [exists 1, JNull, JNull; finish_shape].
  destruct (member "accessToken" a) as [tok | e |];
    try solve [exists 1, JNull, JNull; finish_shape].
  assert (Hc := async_getAttestations_trace bh [EvFetch (async_auth_request this)]).
  destruct (Async.getAttestations w this bh _) as [[ar | e |] t2];
    cbn [snd app] in Hc; subst t2;
    try solve [exists 2, JNull, JNull; finish_shape].
  destruct (member "result" ar) as [attested | e |];
    try solve [exists 2, JNull, JNull; finish_shape].
  destruct (member "attestationsFor" attested) as [hash | e |];
    try solve [exists 2, JNull, JNull; finish_shape].
  assert (Hs := async_submit_trace tok q hash
                  [EvFetch (async_auth_request this);
                   EvFetch (attestation_request this bh)]).
  destruct (Async.submitZkQueryRequest w this tok _ _) as [[sr | e |] t3];
    cbn [snd app] in Hs; subst t3;
    try solve [exists 3, tok, hash; finish_shape].
  destruct (member "queryId" sr) as [qid | e |];
    try solve [exists 3, tok, hash; finish_shape].
  exists 3, tok, hash. cbn. split; [reflexivity |]. split; [lia |].
  intros session [= <-]. split; reflexivity.
Qed.

End AsyncShape.

Lemma bind_hung {A B} (c : M A) (k : A -> M B) t t1 :
  c t = (Hung, t1) -> bind c k t = (Hung, t1).
Proof. unfold bind. now intros ->. Qed.

(** The polling of the asynchronous client: the check before the loop, then
    whole rounds. *)
Lemma async_polled_trace w this tok qid t :
  let sreq := status_request (Async.zkQueryRootURL this) tok qid json_header in
  exists n,
    n <= 60 /\
    snd (Async.polled w this tok qid t) = t ++ EvFetch sreq :: rounds sreq n.
Proof.
  intro sreq. destruct (async_statusOf_asks w this tok qid) as [_ Hasks].
  fold sreq in Hasks. unfold Async.polled, bind.
  destruct (Hasks t) as [Hs0 _].
  destruct (Async.statusOf w this tok qid t) as [[v | e |] t1]; cbn [snd] in Hs0;
    subst t1; try solve [exists 0; split; [lia | reflexivity]].
  unfold while_polling.
  destruct (poll_loop_trace (Async.statusOf w this tok qid) sreq
              (fun t => proj1 (Hasks t)) (60 - 0) (is_terminal v) 0 (t ++ [EvFetch sreq]))
    as (n & Hn & Hle & _ & _).
  exists n. split; [lia |]. rewrite Hn, <- app_assoc. reflexivity.
Qed.

(** The segments of a run of the asynchronous [queryAndVerify]. *)
Lemma async_run_segments
    (w : World) (this : Async.SxTClient) (q : string) (bh : option string) :
  let r := run (Async.queryAndVerify w this q bh) in
  (exists n tok hash,
      n <= 3 /\ snd r = firstn n (submission this q bh tok hash) /\
      forall v, fst r <> Returned v)
  \/
  (exists tok hash qid n tail,
      let sreq := status_request (Async.zkQueryRootURL this) tok qid json_header in
      let rreq := results_request (Async.zkQueryRootURL this) tok qid json_header in
      n <= 60 /\
      snd r = submission this q bh tok hash ++ EvFetch sreq :: rounds sreq n ++ tail /\
      ((tail = [] /\ forall v, fst r <> Returned v)
       \/ (tail = [EvFetch rreq] /\ forall v, fst r <> Returned v)
       \/ (exists response,
              tail = [EvFetch rreq; EvVerifyHyperKzg response] /\
              fst r = verdict (wasm_verify_prover_response_hyper_kzg w response)))).
Proof.
  cbn zeta.
  destruct (async_submitted_shape w this q bh) as (n0 & tok & hash & Htr & Hn0 & Hret).
  cbn zeta in *. unfold run in *. unfold Async.queryAndVerify.
  destruct (Async.submitted w this q bh []) as [[[tok' qid] | e |] t0] eqn:Esub;
    cbn [fst snd] in *.
  2: { left. exists n0, tok, hash. rewrite (bind_threw _ _ _ _ _ Esub).
       repeat split; try assumption; discriminate. }
  2: { left. exists n0, tok, hash. rewrite (bind_hung _ _ _ _ Esub).
       repeat split; try assumption; discriminate. }
  destruct (Hret _ eq_refl) as [-> Etok]. cbn [fst] in Etok. subst tok'.
  change (firstn 3 (submission this q bh tok hash))
    with (submission this q bh tok hash) in Htr. subst t0.
  step Esub. cbn [fst snd].
  right. exists tok, hash, qid.
  set (sreq := status_request (Async.zkQueryRootURL this) tok qid json_header).
  set (rreq := results_request (Async.zkQueryRootURL this) tok qid json_header).
  set (t0 := submission this q bh tok hash).
  destruct (async_polled_trace w this tok qid t0) as (n & Hn & Hp). fold sreq in Hp.
  destruct (Async.polled w this tok qid t0) as [[x | e |] t2] eqn:Ep;
    cbn [snd] in Hp; subst t2.
  2: { exists n, []. rewrite (bind_threw _ _ _ _ _ Ep), app_nil_r.
       repeat split; try lia. left. split; [reflexivity | discriminate]. }
  2: { exists n, []. rewrite (bind_hung _ _ _ _ Ep), app_nil_r.
       repeat split; try lia. left. split; [reflexivity | discriminate]. }
  step Ep.
  destruct (async_fetchedAndVerified_trace w this tok qid
              (t0 ++ EvFetch sreq :: rounds sreq n)) as [[resp E] | [Etr Eo]].
  - exists n, [EvFetch rreq; EvVerifyHyperKzg resp]. rewrite E. cbn [fst snd].
    rewrite <- !app_assoc. repeat split; try lia.
    right. right. exists resp. split; reflexivity.
  - exists n, [EvFetch rreq]. rewrite Etr. rewrite <- !app_assoc.
    repeat split; try lia. right. left. split; [reflexivity | exact Eo].
Qed.

(** X1.  Every run of the asynchronous [queryAndVerify], whatever the backend
    answers: either it ends within the three requests of the submission,
    without returning; or the submission is followed by one status request,
    by [n <= 60] rounds of a 1000 ms sleep and the same status request, and
    then by nothing, by the result request, or by the result request and one
    call of the verifier, whose verdict is the outcome.  Status and result
    requests carry the token and the job id of that run. *)
Theorem async_run_shape
    (w : World) (this : Async.SxTClient) (q : string) (bh : option string) :
  let r := run (Async.queryAndVerify w this q bh) in
  (exists n tok hash,
      n <= 3 /\ snd r = firstn n (submission this q bh tok hash) /\
      forall v, fst r <> Returned v)
  \/
  (exists tok hash qid n tail,
      let sreq := status_request (Async.zkQueryRootURL this) tok qid json_header in
      let rreq := results_request (Async.zkQueryRootURL this) tok qid json_header in
      n <= 60 /\
      snd r = submission this q bh tok hash ++ EvFetch sreq :: rounds sreq n ++ tail /\
      ((tail = [] /\ forall v, fst r <> Returned v)
       \/ (tail = [EvFetch rreq] /\ forall v, fst r <> Returned v)
       \/ (exists response,
              tail = [EvFetch rreq; EvVerifyHyperKzg response] /\
              fst r = verdict (wasm_verify_prover_response_hyper_kzg w response)))).
Proof. exact (async_run_segments w this q bh). Qed.

(** X2.  The polling budget holds against any backend: no run of the
    asynchronous [queryAndVerify] issues more than 61 status requests, sleeps
    more than 60 times (each time for 1000 ms, once before every status
    request but the first), requests the result more than once or calls the
    verifier more than once. *)
Theorem async_run_bounds
    (w : World) (this : Async.SxTClient) (q : string) (bh : option string) :
  let t := snd (run (Async.queryAndVerify w this q bh)) in
  status_calls t <= 61 /\ sleeps t <= 60 /\
  result_calls t <= 1 /\ verifications t <= 1 /\
  (status_calls t = 0 \/ status_calls t = sleeps t + 1) /\
  Forall (fun e => is_sleep e = true -> e = EvSleep 1000) t.
Proof.
  cbn zeta.
  assert (Hsub : forall n tok hash,
             Forall is_post (firstn n (submission this q bh tok hash))).
  { intros n tok hash.
    assert (H : Forall is_post (submission this q bh tok hash)).
    { repeat constructor; eexists; (split; [reflexivity |]); try reflexivity.
      unfold attestation_request. now destruct (requested_block bh). }
    rewrite <- (firstn_skipn n) in H. now apply Forall_app in H. }
  assert (Hsl : forall (d : Trace), Forall is_post d ->
             Forall (fun e => is_sleep e = true -> e = EvSleep 1000) d).
  { intros d Hd. eapply Forall_impl; [| exact Hd].
    intros e (req & -> & _). discriminate. }
  destruct (async_run_segments w this q bh)
    as [(n & tok & hash & _ & -> & _)
       | (tok & hash & qid & n & tail & Hn & -> & Htail)].
  - destruct (posts_are_quiet _ (Hsub n tok hash)) as (-> & -> & -> & ->).
    repeat split; try lia. apply Hsl, Hsub.
  - cbn zeta in *.
    set (sreq := status_request (Async.zkQueryRootURL this) tok qid json_header) in *.
    set (rreq := results_request (Async.zkQueryRootURL this) tok qid json_header) in *.
    destruct (posts_are_quiet _ (Hsub 3 tok hash)) as (Hs & Hr & Hz & Hv).
    change (firstn 3 (submission this q bh tok hash))
      with (submission this q bh tok hash) in *.
    assert (Hss : is_status sreq = true) by apply status_request_is_status.
    assert (Hsr : is_results sreq = false) by apply status_request_not_results.
    assert (Hrs : is_status rreq = false) by apply results_request_not_status.
    assert (Hrr : is_results rreq = true) by apply results_request_is_results.
    assert (Hrounds : Forall (fun e => is_sleep e = true -> e = EvSleep 1000)
                        (rounds sreq n)).
    { clear. induction n as [| n IH]; cbn [rounds]; constructor; [reflexivity |].
      constructor; [discriminate | exact IH]. }
    unfold status_calls, result_calls, sleeps, verifications in *.
    rewrite !tally_app, !tally_cons, !tally_app, !tally_rounds_fetch, Hs, Hr, Hz, Hv.
    fold (sleeps (rounds sreq n)). rewrite sleeps_rounds.
    assert (Hvr : tally is_verify (rounds sreq n) = 0).
    { clear. induction n as [| n IH]; cbn [rounds]; [reflexivity |].
      rewrite !tally_cons, IH. reflexivity. }
    rewrite Hvr. cbn [fetches is_sleep is_verify]. rewrite Hss, Hsr.
    destruct Htail as [[-> _] | [[-> _] | (resp & -> & _)]];
      rewrite ?tally_cons, ?tally_nil; cbn [fetches is_sleep is_verify];
      rewrite ?Hrs, ?Hrr;
      (repeat split; try lia);
      (apply Forall_app; split; [apply Hsl, (Hsub 3) |]);
      (constructor; [discriminate |]);
      (apply Forall_app; split; [exact Hrounds |]);
      repeat (constructor; try discriminate).
Qed.

(** ** The shape of the runs of [proofOfSqlQuery] *)

Section TsShape.
Variable w : World.

Lemma ts_fetch_trace req t : snd (fetch w req None t) = t ++ [EvFetch req].
Proof.
  unfold fetch. cbn [aborted]. destruct (latency _); [| reflexivity].
  now destruct (settled _).
Qed.

Lemma ts_parsed_member_trace req p t :
  snd (bind (fetch w req None)
         (fun response => bind (json response) (fun parsed => lift (member p parsed))) t)
  = t ++ [EvFetch req].
Proof.
  unfold bind. assert (H := ts_fetch_trace req t).
  destruct (fetch w req None t) as [[r | e |] t1]; cbn [snd] in *; subst; trivial.
  unfold json, ret, throw, lift. now destruct (payload r).
Qed.

Lemma ts_submitted_shape q apiKey :
  let r := run (Ts.submitted w q apiKey) in
  exists n tok,
    snd r = firstn n [EvFetch (ts_auth_request apiKey); EvFetch (ts_submit_request q tok)] /\
    1 <= n <= 2 /\
    (forall session, fst r = Returned session -> n = 2 /\ fst session = tok).
Proof.
  cbv [run Ts.submitted]. cbv zeta.
  assert (Ha := ts_parsed_member_trace (ts_auth_request apiKey) "accessToken" []).
  change (bind (fetch w (ts_auth_request apiKey) None) _) with (Ts.getAccessToken w apiKey) in Ha.
  destruct (Ts.getAccessToken w apiKey []) as [[tok | e |] t1] eqn:Ea; cbn [snd app] in Ha;
    subst t1.
  2: { rewrite (bind_threw _ _ _ _ _ Ea). exists 1, JNull. finish_shape. }
  2: { rewrite (bind_hung _ _ _ _ Ea). exists 1, JNull. finish_shape. }
  step Ea.
  assert (Hs := ts_parsed_member_trace (ts_submit_request q tok) "queryId"
                  [EvFetch (ts_auth_request apiKey)]).
  change (bind (fetch w (ts_submit_request q tok) None) _)
    with (Ts.postQuerySubmitRequest w q tok) in Hs.
  destruct (Ts.postQuerySubmitRequest w q tok _) as [[qid | e |] t2] eqn:Es;
    cbn [snd app] in Hs; subst t2.
  2: { rewrite (bind_threw _ _ _ _ _ Es). exists 2, tok. finish_shape. }
  2: { rewrite (bind_hung _ _ _ _ Es). exists 2, tok. finish_shape. }
  step Es. exists 2, tok. unfold ret. cbn [fst snd firstn]. split; [reflexivity |].
  split; [lia |]. intros session [= <-]. split; reflexivity.
Qed.

Lemma ts_polled_trace tok qid t :
  let sreq := status_request ts_root tok qid [] in
  exists n,
    1 <= n <= 60 /\
    snd (Ts.polled w tok qid t) = t ++ rounds sreq n.
Proof.
  intro sreq. destruct (ts_getRequestStatus_asks w tok qid) as [_ Hasks].
  fold sreq in Hasks. unfold Ts.polled, while_polling.
  destruct (poll_loop_trace (Ts.getRequestStatus w qid tok) sreq
              (fun t => proj1 (Hasks t)) (60 - 0) false 0 t)
    as (n & Hn & Hle & _ & Hpos).
  exists n. split; [| exact Hn]. split; [apply Hpos; cbn; lia | lia].
Qed.

End TsShape.

(** X3.  Every run of [proofOfSqlQuery], whatever the backend answers: the
    auth request, the submission, then [n] rounds of a 1000 ms sleep and a
    status request, with [1 <= n <= 60], then one result request -- or it
    ends earlier without returning.  The loop sleeps before its first status
    request too; nothing is ever verified. *)
Theorem ts_run_shape (w : World) (q : string) (apiKey : option string) :
  let r := run (Ts.proofOfSqlQuery w q apiKey) in
  (exists n tok,
      1 <= n <= 2 /\
      snd r = firstn n [EvFetch (ts_auth_request apiKey);
                        EvFetch (ts_submit_request q tok)] /\
      forall v, fst r <> Returned v)
  \/
  (exists tok qid n tail,
      let sreq := status_request ts_root tok qid [] in
      let rreq := results_request ts_root tok qid [] in
      1 <= n <= 60 /\
      snd r = [EvFetch (ts_auth_request apiKey); EvFetch (ts_submit_request q tok)]
              ++ rounds sreq n ++ tail /\
      ((tail = [] /\ forall v, fst r <> Returned v) \/ tail = [EvFetch rreq])).
Proof.
  cbn zeta.
  destruct (ts_submitted_shape w q apiKey) as (n0 & tok & Htr & Hn0 & Hret).
  cbn zeta in *. unfold run in *. unfold Ts.proofOfSqlQuery.
  destruct (Ts.submitted w q apiKey []) as [[[tok' qid] | e |] t0] eqn:Esub;
    cbn [fst snd] in *.
  2: { left. exists n0, tok. rewrite (bind_threw _ _ _ _ _ Esub).
       repeat split; try assumption; try lia; discriminate. }
  2: { left. exists n0, tok. rewrite (bind_hung _ _ _ _ Esub).
       repeat split; try assumption; try lia; discriminate. }
  destruct (Hret _ eq_refl) as [-> Etok]. cbn [fst] in Etok. subst tok'.
  cbn [firstn] in Htr. subst t0.
  step Esub. cbn [fst snd]. right. exists tok, qid.
  set (sreq := status_request ts_root tok qid []).
  set (rreq := results_request ts_root tok qid []).
  set (t0 := [EvFetch (ts_auth_request apiKey); EvFetch (ts_submit_request q tok)]).
  destruct (ts_polled_trace w tok qid t0) as (n & Hn & Hp). fold sreq in Hp.
  destruct (Ts.polled w tok qid t0) as [[x | e |] t2] eqn:Ep; cbn [snd] in Hp; subst t2.
  2: { exists n, []. rewrite (bind_threw _ _ _ _ _ Ep), app_nil_r.
       repeat split; try lia. left. split; [reflexivity | discriminate]. }
  2: { exists n, []. rewrite (bind_hung _ _ _ _ Ep), app_nil_r.
       repeat split; try lia. left. split; [reflexivity | discriminate]. }
  step Ep. exists n, [EvFetch rreq].
  destruct (ts_getResults_trace w tok qid (t0 ++ rounds sreq n)) as [-> _].
  rewrite <- app_assoc. repeat split; try lia. now right.
Qed.

(** ** Failures are final *)

Lemma fate_is_fatal checks signal what what' reply f :
  fate checks signal what reply = Some f ->
  exists f', fate checks signal what' reply = Some f'.
Proof.
  unfold fate. destruct (aborted signal (latency reply)); [eauto |].
  destruct (latency reply); [| eauto].
  destruct (settled reply) as [r | reason]; [| eauto].
  destruct (checks && negb (ok r)); [eauto |].
  destruct (payload r); [discriminate | eauto].
Qed.

Section Final.
Variable w : World.
Variable checks : bool.
Variable signal : option nat.
Variable labels : list string.

Local Abbreviation final' := (final w checks signal labels).

Lemma final_quiet {A} (c : M A) : (forall t, snd (c t) = t) -> final' c.
Proof.
  intros H t0. exists []. rewrite app_nil_r. split; [apply H |].
  intros t req rest what0 f0 E. destruct t; discriminate.
Qed.

Lemma final_ret {A} (a : A) : final' (ret a).
Proof. now apply final_quiet. Qed.

Lemma final_throw {A} e : final' (@throw A e).
Proof. now apply final_quiet. Qed.

Lemma final_lift {A} (o : Outcome A) : final' (lift o).
Proof. now apply final_quiet. Qed.

Lemma final_sleep ms : final' (sleep ms).
Proof.
  intro t0. exists [EvSleep ms]. split; [reflexivity |].
  intros [| x [| y t]] req rest what0 f0 E; discriminate.
Qed.

Lemma final_plan q cs : final' (plan_prover_query_dory w q cs).
Proof.
  intro t0. exists [EvPlan q cs]. rewrite plan_run. split; [reflexivity |].
  intros [| x [| y t]] req rest what0 f0 E; discriminate.
Qed.

Lemma final_verify_dory response expr cs :
  final' (verify_prover_response_dory w response expr cs).
Proof.
  intro t0. exists [EvVerifyDory response expr cs]. rewrite verify_dory_run.
  split; [reflexivity |]. intros [| x [| y t]] req rest what0 f0 E; discriminate.
Qed.

Lemma final_verify_hyper_kzg response :
  final' (verify_prover_response_hyper_kzg w response).
Proof.
  intro t0. exists [EvVerifyHyperKzg response]. split.
  - unfold verify_prover_response_hyper_kzg, bind, emit, throw, ret.
    now destruct (wasm_verify_prover_response_hyper_kzg w response).
  - intros [| x [| y t]] req rest what0 f0 E; discriminate.
Qed.

Lemma final_new_TableRefAndCommitment table commitment :
  final' (new_TableRefAndCommitment table commitment).
Proof.
  apply final_quiet. intro t.
  destruct (new_TableRefAndCommitment table commitment t) as [o t'] eqn:E.
  apply new_TableRefAndCommitment_run in E. now destruct E as [-> _].
Qed.

Lemma final_bind {A B} (c : M A) (k : A -> M B) :
  final' c -> (forall a, final' (k a)) -> final' (bind c k).
Proof.
  intros Hc Hk t0. destruct (Hc t0) as (d & Hd & Hfatal). unfold bind.
  destruct (c t0) as [[a | e |] t1] eqn:Ec; cbn [fst snd] in *; subst t1.
  - destruct (Hk a (t0 ++ d)) as (d' & Hd' & Hfatal').
    exists (d ++ d'). rewrite Hd', app_assoc. split; [reflexivity |].
    intros t req rest what0 f0 E Hf.
    apply app_eq_app in E. destruct E as (l & [[-> E] | [-> E]]).
    + destruct l as [| x l].
      * cbn in E. subst d'.
        destruct (Hfatal' [] req rest what0 f0 eq_refl) as [-> (what & Hin & Hw)];
          [now rewrite !app_nil_r in * |].
        split; [reflexivity |]. exists what. split; [exact Hin |].
        now rewrite !app_nil_r in *.
      * injection E as <- ->.
        destruct (Hfatal t req l what0 f0 eq_refl Hf) as [_ (what & _ & Habs)].
        destruct (fate_is_fatal _ _ _ what _ _ Hf) as [f' Hf'].
        rewrite Hf' in Habs. discriminate.
    + destruct (Hfatal' l req rest what0 f0 E) as [-> (what & Hin & Hw)];
        [now rewrite <- app_assoc |].
      split; [reflexivity |]. exists what. split; [exact Hin |].
      now rewrite <- app_assoc in Hw.
  - exists d. split; [reflexivity |]. exact Hfatal.
  - exists d. split; [reflexivity |]. exact Hfatal.
Qed.

(** A helper of the kind "fetch, test [ok], parse". *)
Lemma final_checked req what :
  checks = true -> In what labels ->
  final' (bind (fetch w req signal)
            (fun r => if negb (ok r) then throw (http_error what r) else json r)).
Proof.
  intros -> Hin t0. exists [EvFetch req]. split.
  - apply chainlink_checked_trace. unfold fetch.
    destruct (aborted _ _); [reflexivity |].
    destruct (latency _); [| reflexivity]. now destruct (settled _).
  - intros [| x [| y t]] req' rest what0 f0 E Hf; try discriminate.
    injection E as <- <-. rewrite app_nil_r in *. split; [reflexivity |].
    exists what. split; [intros _; exact Hin |].
    unfold bind, fetch, fate, json, throw, ret in *.
    destruct (aborted signal (latency (net w t0 req))); [reflexivity |].
    destruct (latency (net w t0 req)); [| reflexivity].
    destruct (settled (net w t0 req)) as [r | reason]; [| reflexivity].
    cbn [andb]. destruct (negb (ok r)); [reflexivity |].
    now destruct (payload r).
Qed.

Lemma fetch_trace req t : snd (fetch w req signal t) = t ++ [EvFetch req].
Proof.
  unfold fetch. destruct (aborted _ _); [reflexivity |].
  destruct (latency _); [| reflexivity]. now destruct (settled _).
Qed.

Lemma fetch_parsed_run {A} req (k : JsVal -> M A) t0 :
  match fate false signal EmptyString (net w t0 req) with
  | Some f =>
      snd (bind (fetch w req signal) (fun r => bind (json r) k) t0) = t0 ++ [EvFetch req]
      /\ failure_of (fst (bind (fetch w req signal) (fun r => bind (json r) k) t0))
         = Some f
  | None =>
      exists v,
        bind (fetch w req signal) (fun r => bind (json r) k) t0
        = k v (t0 ++ [EvFetch req])
  end.
Proof.
  unfold bind, fetch, fate, json, throw, ret.
  destruct (aborted signal (latency (net w t0 req))); [now split |].
  destruct (latency (net w t0 req)); [| now split].
  destruct (settled (net w t0 req)) as [r | reason]; [| now split].
  cbn [andb]. destruct (payload r) as [v |]; [| now split].
  now exists v.
Qed.

(** A helper of the kind "fetch, parse, go on", which never tests [ok]. *)
Lemma final_parsed {A} req (k : JsVal -> M A) :
  checks = false -> (forall v, final' (k v)) ->
  final' (bind (fetch w req signal) (fun r => bind (json r) k)).
Proof.
  intros -> Hk t0. assert (Hrun := fetch_parsed_run req k t0).
  destruct (fate false signal EmptyString (net w t0 req)) as [f |] eqn:Ef.
  - destruct Hrun as [Htr Hfail]. exists [EvFetch req]. split; [exact Htr |].
    intros [| x [| y t]] req' rest what0 f0 E Hf; try discriminate.
    injection E as <- <-. rewrite app_nil_r in *. split; [reflexivity |].
    exists what0. split; [discriminate |]. rewrite Hfail, <- Ef.
    unfold fate. reflexivity.
  - destruct Hrun as [v Hrun]. rewrite Hrun.
    destruct (Hk v (t0 ++ [EvFetch req])) as (d' & Hd' & Hfatal').
    exists (EvFetch req :: d'). rewrite Hd', <- app_assoc. split; [reflexivity |].
    intros t req' rest what0 f0 E Hf. destruct t as [| x t].
    + injection E as <- <-. rewrite app_nil_r in Hf.
      destruct (fate_is_fatal _ _ _ EmptyString _ _ Hf) as [f' Hf'].
      rewrite Hf' in Ef. discriminate.
    + injection E as <- E.
      destruct (Hfatal' t req' rest what0 f0 E) as [-> (what & Hin & Hw)];
        [now rewrite <- app_assoc |].
      split; [reflexivity |]. exists what. split; [exact Hin |].
      now rewrite <- app_assoc in Hw.
Qed.

(** The loop, over a status request that is final. *)
Lemma final_poll_loop getStatus :
  final' getStatus ->
  forall fuel success count, final' (poll_loop getStatus fuel success count).
Proof.
  intro Hg. induction fuel as [| fuel IH]; intros success count;
    cbn [poll_loop]; destruct (negb success && (count <? 60)%nat);
    try apply final_ret.
  apply final_bind; [apply final_sleep |]. intros _.
  apply final_bind; [exact Hg |]. intro v. apply IH.
Qed.

Lemma final_ext {A} (c c' : M A) : (forall t, c t = c' t) -> final' c -> final' c'.
Proof.
  intros E Hc t0. destruct (Hc t0) as (d & Hd & Hfatal). exists d.
  rewrite <- E. now split.
Qed.

(** A helper of the kind "fetch, parse". *)
Lemma final_parsed_only req :
  checks = false -> final' (bind (fetch w req signal) (fun r => json r)).
Proof.
  intro Hc.
  apply (final_ext (bind (fetch w req signal) (fun r => bind (json r) ret))).
  - intro t. apply bind_ext; [reflexivity |]. intros r t1.
    unfold bind, json, ret, throw. now destruct (payload r).
  - apply final_parsed; [exact Hc |]. intro v. apply final_ret.
Qed.

End Final.

Ltac final_step :=
  first
    [ apply final_ret | apply final_throw | apply final_lift | apply final_sleep
    | apply final_plan | apply final_verify_dory | apply final_verify_hyper_kzg
    | apply final_new_TableRefAndCommitment
    | apply final_checked; [reflexivity | cbn; tauto]
    | apply final_parsed_only; reflexivity
    | apply final_parsed; [reflexivity | intro]
    | apply final_poll_loop
    | apply final_bind; [| intro]
    | match goal with
      | |- final _ _ _ _ (if ?b then _ else _) => destruct b
      | |- final _ _ _ _ (match ?x with _ => _ end) => destruct x
      end ].

Lemma async_final w this q bh :
  final w true None async_labels (Async.queryAndVerify w this q bh).
Proof.
  unfold Async.queryAndVerify, Async.submitted, Async.polled, while_polling,
    Async.fetchedAndVerified, Async.statusOf, Async.getZkQueryStatus,
    Async.getZkQueryResult, Async.getZkQueryApi, Async.submitZkQueryRequest,
    Async.postZkQueryApi, Async.getAttestations, Async.querySubstrateRpc,
    Async.getAccessToken, Async.postHttpRequest, Async.getHttpRequest.
  cbn zeta. repeat final_step.
Qed.

Lemma ts_final w q apiKey :
  final w false None [] (Ts.proofOfSqlQuery w q apiKey).
Proof.
  unfold Ts.proofOfSqlQuery, Ts.submitted, Ts.getAccessToken,
    Ts.postQuerySubmitRequest, Ts.polled, while_polling, Ts.getRequestStatus,
    Ts.getResults.
  cbn zeta. repeat final_step.
Qed.

Lemma chainlink_final w this q table key :
  final w true (Some 3000) chainlink_labels (Chainlink.queryAndVerify w this q table key).
Proof.
  unfold Chainlink.queryAndVerify, Chainlink.getAccessToken, Chainlink.getCommitment,
    Chainlink.getProof, Chainlink.postHttpRequest.
  cbn zeta. repeat final_step.
Qed.

(** X4.  No retry and no fallback in the asynchronous client.  In a run of
    [queryAndVerify], a request the transport never settles or rejects, or
    one answered with a status outside 200..299 or with a body that does not
    parse, is the last event of the run: the run stays pending, throws the
    transport's error, throws [Error("<text>: <status>: <statusText>")] with
    one of the four texts of the client, or throws the parser's error. *)
Theorem async_failures_are_final
    (w : World) (this : Async.SxTClient) (q : string) (bh : option string)
    (t : Trace) (req : Request) (rest : Trace) (what0 : string) (f0 : Failure) :
  snd (run (Async.queryAndVerify w this q bh)) = t ++ EvFetch req :: rest ->
  fate true None what0 (net w t req) = Some f0 ->
  rest = [] /\
  exists what,
    In what async_labels /\
    failure_of (fst (run (Async.queryAndVerify w this q bh)))
    = fate true None what (net w t req).
Proof.
  intros Htr Hf. destruct (async_final w this q bh []) as (d & Hd & Hfatal).
  unfold run in *. cbn [app] in *. rewrite Hd in Htr.
  destruct (Hfatal t req rest what0 f0 Htr Hf) as [-> (what & Hin & Hw)].
  split; [reflexivity |]. exists what. split; [now apply Hin | exact Hw].
Qed.

Lemma async_failure_witness :
  let r := run (Async.queryAndVerify (flaky_job_world 2) async_client scenario_query None) in
  skipn 8 (snd r) = [] /\
  exists what,
    In what async_labels /\
    failure_of (fst r)
    = fate true None what
        (net (flaky_job_world 2) (firstn 7 (snd r))
           (status_request "https://api.makeinfinite.dev" (JStr "tok1") (JStr "job-7")
              json_header)).
Proof.
  exact (async_failures_are_final (flaky_job_world 2) async_client scenario_query None
           (firstn 7 (snd (run (Async.queryAndVerify (flaky_job_world 2) async_client
                                  scenario_query None))))
           (status_request "https://api.makeinfinite.dev" (JStr "tok1") (JStr "job-7")
              json_header)
           (skipn 8 (snd (run (Async.queryAndVerify (flaky_job_world 2) async_client
                                 scenario_query None))))
           "Error querying prover"
           (Failed (Error "Error querying prover: 503: Service Unavailable"))
           eq_refl eq_refl).
Defined.

(** *** Every failure of [proofOfSqlQuery] has a cause *)

Lemma member_never_hangs p v : member p v <> Hung.
Proof. destruct v; discriminate. Qed.

Section Accounted.
Variable w : World.

Lemma accounted_ret {A} (a : A) : accounted w (ret a).
Proof. intro t0. exists []. rewrite app_nil_r. split; [reflexivity | discriminate]. Qed.

Lemma accounted_sleep ms : accounted w (sleep ms).
Proof. intro t0. exists [EvSleep ms]. split; [reflexivity | discriminate]. Qed.

Lemma accounted_bind {A B} (c : M A) (k : A -> M B) :
  accounted w c -> (forall a, accounted w (k a)) -> accounted w (bind c k).
Proof.
  intros Hc Hk t0. destruct (Hc t0) as (d1 & Hd1 & Hf1). unfold bind.
  destruct (c t0) as [[a | e |] t1]; cbn [fst snd] in *; subst t1.
  - destruct (Hk a (t0 ++ d1)) as (d2 & Hd2 & Hf2).
    exists (d1 ++ d2). rewrite Hd2, app_assoc. split; [reflexivity |].
    intros f Hf. destruct (Hf2 f Hf) as (t & req & -> & Hcause).
    exists (d1 ++ t), req. rewrite !app_assoc in *. now split.
  - exists d1. split; [reflexivity | exact Hf1].
  - exists d1. split; [reflexivity | exact Hf1].
Qed.

(** A helper of the kind "fetch, parse, read a member". *)
Lemma accounted_parsed_member req p :
  In p ["accessToken"; "queryId"; "status"] ->
  accounted w (bind (fetch w req None)
                 (fun response =>
                    bind (json response) (fun parsed => lift (member p parsed)))).
Proof.
  intros Hp t0. exists [EvFetch req]. split; [apply ts_parsed_member_trace |].
  intros f Hf. exists [], req. rewrite app_nil_r. split; [reflexivity |].
  unfold ts_cause, fate, answer_of. revert Hf.
  unfold bind, fetch, json, ret, throw, lift. cbn [aborted andb].
  destruct (latency (net w t0 req)); [| now left].
  destruct (settled (net w t0 req)) as [r | reason]; [| now left].
  destruct (payload r) as [body |]; [| now left].
  destruct (member p body) as [v | e |] eqn:E; cbn [fst failure_of].
  - discriminate.
  - intros [= <-]. right. exists body, p, e. repeat split; assumption.
  - now destruct (member_never_hangs p body).
Qed.

(** A helper of the kind "fetch, parse". *)
Lemma accounted_parsed req :
  accounted w (bind (fetch w req None) json).
Proof.
  intro t0. exists [EvFetch req]. split.
  - unfold bind. assert (H := ts_fetch_trace w req t0).
    destruct (fetch w req None t0) as [[r | e |] t1]; cbn [snd] in *; subst; trivial.
    unfold json, ret, throw. now destruct (payload r).
  - intros f Hf. exists [], req. rewrite app_nil_r. split; [reflexivity |].
    left. unfold fate. revert Hf.
    unfold bind, fetch, json, ret, throw. cbn [aborted andb].
    destruct (latency (net w t0 req)); [| trivial].
    destruct (settled (net w t0 req)) as [r | reason]; [| trivial].
    destruct (payload r) as [body |]; [discriminate | trivial].
Qed.

Lemma accounted_poll_loop getStatus :
  accounted w getStatus ->
  forall fuel success count, accounted w (poll_loop getStatus fuel success count).
Proof.
  intros Hg. induction fuel as [| fuel IH]; intros success count; cbn [poll_loop];
    destruct (negb success && (count <? 60)%nat); try apply accounted_ret.
  apply accounted_bind; [apply accounted_sleep | intros _].
  apply accounted_bind; [exact Hg | intro v; apply IH].
Qed.

End Accounted.

Lemma ts_accounted w q apiKey : accounted w (Ts.proofOfSqlQuery w q apiKey).
Proof.
  unfold Ts.proofOfSqlQuery, Ts.submitted, Ts.polled, while_polling.
  apply accounted_bind.
  - apply accounted_bind.
    + apply accounted_parsed_member. now left.
    + intro tok. apply accounted_bind; [| intro qid; apply accounted_ret].
      apply accounted_parsed_member. right. now left.
  - intro session. apply accounted_bind; [| intros _; apply accounted_parsed].
    apply accounted_poll_loop. apply accounted_parsed_member. right. right. now left.
Qed.

(** X5.  [proofOfSqlQuery] never retries, and it fails in three ways only.
    A request that is never settled or is rejected, or whose answer does not
    parse as JSON, is the last event of the run, which stays pending or
    throws that error.  And whenever a run does not return, its last event
    is a request of which one of these is true, or whose answer parses to a
    body -- [null] -- from which [accessToken], [queryId] or [status] cannot
    be read: the run then throws the [TypeError] of that read.  The HTTP
    status of an answer plays no part. *)
Theorem ts_failures_are_final (w : World) (q : string) (apiKey : option string) :
  let r := run (Ts.proofOfSqlQuery w q apiKey) in
  (forall t req rest f0,
      snd r = t ++ EvFetch req :: rest ->
      fate false None EmptyString (net w t req) = Some f0 ->
      rest = [] /\ failure_of (fst r) = Some f0)
  /\
  (forall f,
      failure_of (fst r) = Some f ->
      exists t req,
        snd r = t ++ [EvFetch req] /\
        (fate false None EmptyString (net w t req) = Some f
         \/ exists body p e,
              answer_of false None (net w t req) = Some body /\
              In p ["accessToken"; "queryId"; "status"] /\
              member p body = Threw e /\
              (body = JNull \/ body = JUndefined) /\
              f = Failed e)).
Proof.
  cbn zeta. split.
  - intros t req rest f0 Htr Hf.
    destruct (ts_final w q apiKey []) as (d & Hd & Hfatal).
    unfold run in *. cbn [app] in *. rewrite Hd in Htr.
    destruct (Hfatal t req rest EmptyString f0 Htr Hf) as [-> (what & _ & Hw)].
    split; [reflexivity |]. rewrite Hw, <- Hf. reflexivity.
  - intros f Hf. destruct (ts_accounted w q apiKey []) as (d & Hd & Hcause).
    unfold run in *. cbn [app] in *.
    destruct (Hcause f Hf) as (t & req & -> & [Hfate | (body & p & e & Hb & Hp & Hm & ->)]).
    + exists t, req. split; [exact Hd | now left].
    + exists t, req. split; [exact Hd |]. right. exists body, p, e.
      repeat split; try assumption.
      destruct body; try discriminate Hm; [now right | now left].
Qed.

Lemma ts_failure_witness :
  (let r := run (Ts.proofOfSqlQuery (stalled_job_world 1) scenario_query
                   (Some "sxt-key")) in
   skipn 6 (snd r) = [] /\ failure_of (fst r) = Some Pending)
  /\
  (let r := run (Ts.proofOfSqlQuery void_status_world scenario_query (Some "sxt-key")) in
   exists t req,
     snd r = t ++ [EvFetch req] /\
     (fate false None EmptyString (net void_status_world t req)
      = Some (Failed (TypeError "Cannot read properties of null (reading 'status')"))
      \/ exists body p e,
           answer_of false None (net void_status_world t req) = Some body /\
           In p ["accessToken"; "queryId"; "status"] /\
           member p body = Threw e /\
           (body = JNull \/ body = JUndefined) /\
           Failed (TypeError "Cannot read properties of null (reading 'status')")
           = Failed e)).
Proof.
  split.
  - exact (proj1 (ts_failures_are_final (stalled_job_world 1) scenario_query
                    (Some "sxt-key"))
             (firstn 5 (snd (run (Ts.proofOfSqlQuery (stalled_job_world 1) scenario_query
                                    (Some "sxt-key")))))
             (status_request ts_root (JStr "tok1") (JStr "job-7") [])
             (skipn 6 (snd (run (Ts.proofOfSqlQuery (stalled_job_world 1) scenario_query
                                   (Some "sxt-key")))))
             Pending eq_refl eq_refl).
  - exact (proj2 (ts_failures_are_final void_status_world scenario_query (Some "sxt-key"))
             (Failed (TypeError "Cannot read properties of null (reading 'status')"))
             eq_refl).
Defined.

(** A helper of the kind "fetch, test [ok], parse": one request, and the
    reply decides. *)
Lemma checked_run w req signal what t :
  snd (bind (fetch w req signal)
         (fun r => if negb (ok r) then throw (http_error what r) else json r) t)
  = t ++ [EvFetch req]
  /\ match fate true signal what (net w t req) with
     | Some f =>
         failure_of (fst (bind (fetch w req signal)
                            (fun r => if negb (ok r) then throw (http_error what r)
                                      else json r) t)) = Some f
     | None =>
         exists v,
           bind (fetch w req signal)
             (fun r => if negb (ok r) then throw (http_error what r) else json r) t
           = (Returned v, t ++ [EvFetch req])
     end.
Proof.
  unfold bind, fetch, fate, json, throw, ret.
  destruct (aborted signal (latency (net w t req))); [now split |].
  destruct (latency (net w t req)); [| now split].
  destruct (settled (net w t req)) as [r | reason]; [| now split].
  cbn [andb]. destruct (negb (ok r)); [now split |].
  destruct (payload r) as [v |]; [| now split].
  split; [reflexivity | eauto].
Qed.

Lemma bind_failure {A B} (c : M A) (k : A -> M B) t f :
  failure_of (fst (c t)) = Some f ->
  failure_of (fst (bind c k t)) = Some f /\ snd (bind c k t) = snd (c t).
Proof.
  unfold bind. destruct (c t) as [[a | e |] t1]; cbn; try discriminate; now split.
Qed.

Lemma nil_split {X} (t : list X) x rest : [] = t ++ x :: rest -> False.
Proof. destruct t; discriminate. Qed.

Lemma cons_split {X} (a : X) L t x rest :
  a :: L = t ++ x :: rest ->
  (t = [] /\ x = a /\ rest = L) \/ (exists t', t = a :: t' /\ L = t' ++ x :: rest).
Proof.
  destruct t as [| e t]; cbn [app]; intro H; injection H as -> ->; [left | right]; eauto.
Qed.

(** All the places of a request in a trace that is known. *)
Ltac locate H :=
  match type of H with
  | [] = _ ++ _ :: _ => exfalso; exact (nil_split _ _ _ H)
  | _ :: _ = _ ++ _ :: _ =>
      let t' := fresh "t" in
      let E := fresh "E" in
      apply cons_split in H;
      destruct H as [(-> & E & ->) | (t' & -> & H)];
      [ first [ discriminate E | injection E as -> ] | locate H ]
  end.

(** X6.  No retry and no fallback in the synchronous client.  In a run of
    [queryAndVerify], a request that is aborted by the timer, rejected by the
    transport, answered with a status outside 200..299 or with a body that
    does not parse is the last event of the run, which throws accordingly;
    for a failure status the error is
    [Error("<text>: <status>: <statusText>")] with the text of the step:
    [Error querying auth endpoint] for the first request, the one to the auth
    endpoint, [Error querying RPC node] for the second, the state read, and
    [Error querying prover] for the request to the prover, which follows the
    planning. *)
Theorem chainlink_failures_are_final
    (w : World) (this : Chainlink.SxTClient) (q table key : string)
    (t : Trace) (req : Request) (rest : Trace) (what0 : string) (f0 : Failure) :
  snd (run (Chainlink.queryAndVerify w this q table key)) = t ++ EvFetch req :: rest ->
  fate true (Some 3000) what0 (net w t req) = Some f0 ->
  rest = [] /\
  exists what,
    In what chainlink_labels /\
    failure_of (fst (run (Chainlink.queryAndVerify w this q table key)))
    = fate true (Some 3000) what (net w t req) /\
    ((t = [] /\ req = auth_request this /\ what = "Error querying auth endpoint")
     \/ (t = [EvFetch (auth_request this)] /\ req = commitment_request this key /\
         what = "Error querying RPC node")
     \/ (exists tok fetched planned,
            t = [EvFetch (auth_request this); EvFetch (commitment_request this key);
                 EvPlan q [fetched]] /\
            req = proof_request this tok (prover_query_json planned) /\
            what = "Error querying prover")).
Proof.
  intros Htr Hf. unfold run in *.
  remember (Chainlink.queryAndVerify w this q table key []) as R eqn:Er.
  assert (Hnot : forall what, fate true (Some 3000) what (net w t req) = None -> False).
  { intros what Hnone. destruct (fate_is_fatal _ _ _ what _ _ Hf) as [f' Hf']. congruence. }
  unfold Chainlink.queryAndVerify, Chainlink.getAccessToken in Er.
  destruct (key_missing (Chainlink.sxtApiKey this)).
  { exfalso. cbv [bind throw] in Er. subst R. cbn [snd] in Htr. locate Htr. }
  (* the auth request *)
  change (Chainlink.postHttpRequest w (Chainlink.authRootURL this) _ JNull)
    with (fetch w (auth_request this) (Some 3000)) in Er.
  destruct (checked_run w (auth_request this) (Some 3000) "Error querying auth endpoint" [])
    as [Htr1 Hcase1].
  destruct (fate true (Some 3000) "Error querying auth endpoint"
              (net w [] (auth_request this))) as [f1 |] eqn:F1.
  { destruct (bind_failure _ (fun authResponse =>
        accessToken <- lift (member "accessToken" authResponse) ;;
        commitmentResponse <- Chainlink.getCommitment w this key ;;
        result <- lift (member "result" commitmentResponse) ;;
        commitment <- lift (slice2 result) ;;
        fetched <- new_TableRefAndCommitment table commitment ;;
        plannedProverQuery <- plan_prover_query_dory w q [fetched] ;;
        proverResponseJson <- Chainlink.getProof w this accessToken
                                (prover_query_json plannedProverQuery) ;;
        verify_prover_response_dory w proverResponseJson
          (query_expr_json plannedProverQuery) (commitments plannedProverQuery))
      _ _ Hcase1) as [Hfail Hsnd].
    rewrite <- Er in Hfail, Hsnd. rewrite Hsnd, Htr1 in Htr. cbn [app] in Htr.
    locate Htr. split; [reflexivity |].
    exists "Error querying auth endpoint". split; [now left |].
    split; [now rewrite Hfail, F1 |]. left. repeat split. }
  destruct Hcase1 as [auth Ha]. clear Htr1.
  rewrite (bind_step _ _ _ _ _ Ha) in Er. cbv beta in Er. cbn [app] in Er.
  rewrite bind_lift in Er.
  destruct (member "accessToken" auth) as [tok | e |].
  2, 3: exfalso; subst R; cbn [snd] in Htr; locate Htr; exact (Hnot _ F1).
  (* the state read *)
  unfold Chainlink.getCommitment in Er.
  change (Chainlink.postHttpRequest w (Chainlink.substrateNodeURL this) _ _)
    with (fetch w (commitment_request this key) (Some 3000)) in Er.
  destruct (checked_run w (commitment_request this key) (Some 3000)
              "Error querying RPC node" [EvFetch (auth_request this)])
    as [Htr2 Hcase2].
  destruct (fate true (Some 3000) "Error querying RPC node"
              (net w [EvFetch (auth_request this)] (commitment_request this key)))
    as [f2 |] eqn:F2.
  { destruct (bind_failure _ (fun commitmentResponse =>
        result <- lift (member "result" commitmentResponse) ;;
        commitment <- lift (slice2 result) ;;
        fetched <- new_TableRefAndCommitment table commitment ;;
        plannedProverQuery <- plan_prover_query_dory w q [fetched] ;;
        proverResponseJson <- Chainlink.getProof w this tok
                                (prover_query_json plannedProverQuery) ;;
        verify_prover_response_dory w proverResponseJson
          (query_expr_json plannedProverQuery) (commitments plannedProverQuery))
      _ _ Hcase2) as [Hfail Hsnd].
    rewrite <- Er in Hfail, Hsnd. rewrite Hsnd, Htr2 in Htr. cbn [app] in Htr.
    locate Htr; [exfalso; exact (Hnot _ F1) |]. split; [reflexivity |].
    exists "Error querying RPC node". split; [right; now left |].
    split; [now rewrite Hfail, F2 |]. right. left. repeat split. }
  destruct Hcase2 as [cr Hcr]. clear Htr2.
  rewrite (bind_step _ _ _ _ _ Hcr) in Er. cbv beta in Er. cbn [app] in Er.
  rewrite bind_lift in Er.
  destruct (member "result" cr) as [result | e |].
  2, 3: exfalso; subst R; cbn [snd] in Htr; locate Htr;
        [exact (Hnot _ F1) | exact (Hnot _ F2)].
  rewrite bind_lift in Er.
  destruct (slice2 result) as [commitment | e |].
  2, 3: exfalso; subst R; cbn [snd] in Htr; locate Htr;
        [exact (Hnot _ F1) | exact (Hnot _ F2)].
  unfold new_TableRefAndCommitment in Er. unfold bind at 1 in Er. rewrite bind_lift in Er.
  destruct (passStringToWasm0 commitment) as [hex | e |].
  2, 3: exfalso; subst R; cbn [snd] in Htr; locate Htr;
        [exact (Hnot _ F1) | exact (Hnot _ F2)].
  unfold ret at 1 in Er. unfold bind at 1 in Er. rewrite plan_run in Er.
  set (fetched := mkTableRefAndCommitment table hex) in *. cbn [app] in Er.
  destruct (wasm_plan_prover_query_dory w q [fetched]) as [e | planned].
  { exfalso. subst R. cbn [snd] in Htr. locate Htr;
      [exact (Hnot _ F1) | exact (Hnot _ F2)]. }
  (* the request to the prover *)
  unfold Chainlink.getProof in Er.
  change (Chainlink.postHttpRequest w (Chainlink.proverRootURL this) _ _)
    with (fetch w (proof_request this tok (prover_query_json planned)) (Some 3000)) in Er.
  set (t3 := [EvFetch (auth_request this); EvFetch (commitment_request this key);
              EvPlan q [fetched]]) in *.
  destruct (checked_run w (proof_request this tok (prover_query_json planned)) (Some 3000)
              "Error querying prover" t3) as [Htr4 Hcase4].
  destruct (fate true (Some 3000) "Error querying prover"
              (net w t3 (proof_request this tok (prover_query_json planned))))
    as [f4 |] eqn:F4.
  { destruct (bind_failure _ (fun proverResponseJson =>
        verify_prover_response_dory w proverResponseJson
          (query_expr_json planned) (commitments planned))
      _ _ Hcase4) as [Hfail Hsnd].
    rewrite <- Er in Hfail, Hsnd. rewrite Hsnd, Htr4 in Htr. subst t3. cbn [app] in Htr.
    locate Htr; [exfalso; exact (Hnot _ F1) | exfalso; exact (Hnot _ F2) |].
    split; [reflexivity |].
    exists "Error querying prover". split; [right; right; now left |].
    split; [now rewrite Hfail, F4 |]. right. right.
    exists tok, fetched, planned. repeat split. }
  destruct Hcase4 as [resp Hresp]. clear Htr4.
  rewrite (bind_step _ _ _ _ _ Hresp) in Er. cbv beta in Er.
  rewrite verify_dory_run in Er.
  exfalso. subst R t3. cbn [snd app] in Htr.
  locate Htr; [exact (Hnot _ F1) | exact (Hnot _ F2) | exact (Hnot _ F4)].
Qed.

Lemma chainlink_failure_witness :
  let r := run (Chainlink.queryAndVerify unavailable_node_world sync_client scenario_query
                  scenario_table "0xkey") in
  skipn 2 (snd r) = [] /\
  failure_of (fst r)
  = Some (Failed (Error "Error querying RPC node: 503: Service Unavailable")).
Proof.
  destruct (chainlink_failures_are_final unavailable_node_world sync_client scenario_query
              scenario_table "0xkey" [EvFetch (auth_request sync_client)]
              (commitment_request sync_client "0xkey")
              (skipn 2 (snd (run (Chainlink.queryAndVerify unavailable_node_world
                                    sync_client scenario_query scenario_table "0xkey"))))
              "Error querying auth endpoint"
              (Failed (Error "Error querying auth endpoint: 503: Service Unavailable"))
              eq_refl eq_refl) as (Hrest & what & _ & Hfail & Hwhat).
  split; [exact Hrest |].
  destruct Hwhat as [(E & _) | [(_ & _ & ->) | (tok & fetched & planned & E & _)]];
    try discriminate E.
  exact Hfail.
Defined.

(** ** [proofOfSqlQuery] and the HTTP status *)

Lemma ts_parsed_restatused {A} line w req (k : JsVal -> M A) t :
  bind (fetch (restatused line w) req None) (fun r => bind (json r) k) t
  = bind (fetch w req None) (fun r => bind (json r) k) t.
Proof.
  unfold bind, fetch, json, restatused, with_status.
  cbn [net latency settled aborted].
  destruct (latency (net w t req)); [| reflexivity].
  now destruct (settled (net w t req)).
Qed.

Lemma ts_getResults_restatused line w qid tok t :
  Ts.getResults (restatused line w) qid tok t = Ts.getResults w qid tok t.
Proof.
  unfold Ts.getResults, bind, fetch, json, restatused, with_status.
  cbn [net latency settled aborted].
  destruct (latency (net w t _)); [| reflexivity].
  now destruct (settled (net w t _)).
Qed.

(** X7.  [proofOfSqlQuery] never looks at the HTTP status of an answer:
    whatever status lines the backend puts on its answers -- [401] on the
    auth answer, [500] on a status answer -- the run is the same, in outcome
    and in trace, as long as the bodies are. *)
Theorem proofOfSqlQuery_ignores_the_http_status
    (w : World) (line : Trace -> Request -> nat * string)
    (q : string) (apiKey : option string) :
  run (Ts.proofOfSqlQuery (restatused line w) q apiKey)
  = run (Ts.proofOfSqlQuery w q apiKey).
Proof.
  unfold run, Ts.proofOfSqlQuery, Ts.submitted, Ts.polled, while_polling.
  apply bind_ext.
  - intro t. apply bind_ext; [intro t1; apply ts_parsed_restatused |].
    intros tok t1. apply bind_ext; [intro t2; apply ts_parsed_restatused |].
    reflexivity.
  - intros session t. apply bind_ext.
    + apply poll_loop_ext. intro t1. apply ts_parsed_restatused.
    + intros _ t1. apply ts_getResults_restatused.
Qed.

(** ** After a terminal status *)

Lemma locate_after_one {X} (t t1 : list X) x d z rest :
  t ++ x :: d = t1 ++ z :: rest -> length t <= length t1 ->
  (t1 = t /\ z = x /\ rest = d)
  \/ (exists l, t1 = t ++ x :: l /\ d = l ++ z :: rest).
Proof.
  intros E Hlen. apply app_eq_app in E. destruct E as (l & [[-> E] | [-> E]]).
  - rewrite length_app in Hlen. destruct l; [| cbn in Hlen; lia].
    rewrite app_nil_r. cbn in E. injection E as -> ->. now left.
  - destruct l as [| a l].
    + rewrite app_nil_r. cbn in E. injection E as -> ->. now left.
    + injection E as <- ->. right. now exists l.
Qed.

Lemma locate_after_two {X} (t t1 : list X) x y d z rest :
  t ++ x :: y :: d = t1 ++ z :: rest -> length t <= length t1 ->
  (t1 = t /\ z = x)
  \/ (t1 = t ++ [x] /\ z = y /\ rest = d)
  \/ (exists l, t1 = (t ++ [x; y]) ++ l /\ d = l ++ z :: rest).
Proof.
  intros E Hlen. destruct (locate_after_one _ _ _ _ _ _ E Hlen) as [(-> & -> & _) | (l & -> & E')].
  - now left.
  - right. destruct l as [| b l].
    + left. cbn in E'. injection E' as -> ->. repeat split.
    + right. injection E' as <- ->. exists l. now rewrite <- app_assoc.
Qed.

Section AfterTerminal.
Variable w : World.
Variable getStatus : M JsVal.
Variable req : Request.
Hypothesis Hasks : asks_status w getStatus req.

(** In the loop, a status request answered with a terminal status is the
    last event, and the loop ends with [success] set. *)
Lemma poll_loop_after_terminal : forall fuel success count t t1 rest v,
  snd (poll_loop getStatus fuel success count t) = t1 ++ EvFetch req :: rest ->
  length t <= length t1 ->
  status_said (net w t1 req) = Some v -> is_terminal v = true ->
  rest = [] /\
  exists c, fst (poll_loop getStatus fuel success count t) = Returned (true, c).
Proof.
  assert (Hshort : forall (t t1 : Trace) e rest,
             t = t1 ++ e :: rest -> length t <= length t1 -> False).
  { intros t t1 e rest -> H. rewrite length_app in H. cbn in H. lia. }
  induction fuel as [| fuel IH]; intros success count t t1 rest v Htr Hlen Hsaid Hterm.
  - exfalso. cbn [poll_loop] in Htr.
    destruct (negb success && (count <? 60)%nat); cbn in Htr; eapply Hshort; eassumption.
  - cbn [poll_loop] in *.
    destruct (negb success && (count <? 60)%nat);
      [| exfalso; cbn in Htr; eapply Hshort; eassumption].
    unfold sleep, emit, bind at 1 in Htr. unfold sleep, emit, bind at 1.
    destruct Hasks as [_ Hs]. destruct (Hs (t ++ [EvSleep 1000])) as [Hg _].
    unfold bind in *.
    destruct (getStatus (t ++ [EvSleep 1000])) as [[v0 | e |] t2] eqn:Eg;
      cbn [snd] in Hg; subst t2.
    + destruct (poll_loop_trace getStatus req (fun t => proj1 (Hs t)) fuel
                  (is_terminal v0) (S count) ((t ++ [EvSleep 1000]) ++ [EvFetch req]))
        as (n & Hn & _).
      assert (Htr' := Htr). rewrite Hn, <- !app_assoc in Htr'. cbn [app] in Htr'.
      destruct (locate_after_two _ _ _ _ _ _ _ Htr' Hlen)
        as [[_ Habs] | [(-> & _ & ->) | (l & -> & Hd)]].
      * discriminate.
      * rewrite (getStatus_said w _ _ Hasks _ _ Hsaid) in Eg. injection Eg as <-.
        rewrite Hterm in *. rewrite poll_loop_stop in Htr, Hn |- * by now left.
        cbn [snd] in Hn.
        assert (E : rounds req n = []).
        { apply (app_inv_head ((t ++ [EvSleep 1000]) ++ [EvFetch req])).
          rewrite app_nil_r. symmetry. exact Hn. }
        rewrite E. split; [reflexivity | cbn [fst]; eauto].
      * apply (IH _ _ _ _ _ v Htr); try assumption.
        rewrite <- app_assoc. cbn [app]. rewrite !length_app. cbn. lia.
    + exfalso. cbn [snd] in Htr. rewrite <- app_assoc in Htr. cbn [app] in Htr.
      destruct (locate_after_two _ _ _ _ _ _ _ Htr Hlen)
        as [[_ Habs] | [(-> & _ & _) | (l & _ & Hd)]].
      * discriminate.
      * rewrite (getStatus_said w _ _ Hasks _ _ Hsaid) in Eg. discriminate.
      * destruct l; discriminate.
    + exfalso. cbn [snd] in Htr. rewrite <- app_assoc in Htr. cbn [app] in Htr.
      destruct (locate_after_two _ _ _ _ _ _ _ Htr Hlen)
        as [[_ Habs] | [(-> & _ & _) | (l & _ & Hd)]].
      * discriminate.
      * rewrite (getStatus_said w _ _ Hasks _ _ Hsaid) in Eg. discriminate.
      * destruct l; discriminate.
Qed.

End AfterTerminal.

Lemma locate_in_middle {X} (p : X -> bool) (a b c t1 : list X) x rest :
  a ++ b ++ c = t1 ++ x :: rest ->
  Forall (fun e => p e = false) a -> Forall (fun e => p e = false) c ->
  p x = true ->
  exists l r, t1 = a ++ l /\ b = l ++ x :: r /\ rest = r ++ c.
Proof.
  intros E Ha Hc Hx.
  assert (Hnot : forall l, Forall (fun e => p e = false) l -> In x l -> False).
  { intros l Hl Hin. rewrite Forall_forall in Hl. specialize (Hl _ Hin). congruence. }
  apply app_eq_app in E. destruct E as (l & [[-> E] | [-> E]]).
  - destruct l as [| y l].
    + cbn [app] in E. destruct b as [| y b].
      * exfalso. apply (Hnot c Hc). cbn [app] in E. rewrite <- E. now left.
      * injection E as E1 E2. subst y rest. exists [], b. rewrite !app_nil_r. repeat split.
    + exfalso. injection E as E1 _. subst y. apply (Hnot _ Ha). apply in_or_app. right. now left.
  - apply app_eq_app in E. destruct E as (l2 & [[-> E] | [-> E]]).
    + destruct l2 as [| y r].
      * exfalso. apply (Hnot c Hc). cbn [app] in E. rewrite <- E. now left.
      * injection E as E1 E2. subst y rest. exists l, r. repeat split.
    + exfalso. apply (Hnot c Hc). rewrite E. apply in_or_app. right. now left.
Qed.

Lemma rounds_fetch sreq req : forall n,
  In (EvFetch req) (rounds sreq n) -> req = sreq.
Proof.
  induction n as [| n IH]; cbn [rounds In]; [easy |].
  intros [H | [H | H]]; [discriminate | now injection H | now apply IH].
Qed.

Lemma rounds_not_results sreq n :
  is_results sreq = false ->
  Forall (fun e => fetches is_results e = false) (rounds sreq n).
Proof.
  intro H. induction n as [| n IH]; cbn [rounds]; repeat constructor; assumption.
Qed.

Lemma async_polled_after_terminal w this tok qid t t1 rest v :
  let sreq := status_request (Async.zkQueryRootURL this) tok qid json_header in
  snd (Async.polled w this tok qid t) = t1 ++ EvFetch sreq :: rest ->
  length t <= length t1 ->
  status_said (net w t1 sreq) = Some v -> is_terminal v = true ->
  rest = [] /\ exists c, fst (Async.polled w this tok qid t) = Returned (true, c).
Proof.
  intros sreq Htr Hlen Hsaid Hterm.
  assert (Hasks := async_statusOf_asks w this tok qid). fold sreq in Hasks.
  unfold Async.polled in *.
  destruct (proj2 Hasks t) as [Hs0 _].
  destruct (Async.statusOf w this tok qid t) as [[v0 | e |] t2] eqn:E0;
    cbn [snd] in Hs0; subst t2.
  - step E0. rewrite (bind_step _ _ _ _ _ E0) in Htr. cbv beta in Htr.
    unfold while_polling in *.
    destruct (poll_loop_trace (Async.statusOf w this tok qid) sreq
                (fun t => proj1 (proj2 Hasks t)) (60 - 0) (is_terminal v0) 0
                (t ++ [EvFetch sreq])) as (n & Hn & _).
    assert (Htr' := Htr). rewrite Hn, <- app_assoc in Htr'. cbn [app] in Htr'.
    destruct (locate_after_one _ _ _ _ _ _ Htr' Hlen) as [(-> & _ & ->) | (l & -> & Hd)].
    + rewrite (getStatus_said w _ _ Hasks _ _ Hsaid) in E0. injection E0 as <-.
      rewrite Hterm in *. rewrite poll_loop_stop in Hn |- * by now left.
      cbn [snd] in Hn.
      assert (E : rounds sreq n = []).
      { apply (app_inv_head (t ++ [EvFetch sreq])). rewrite app_nil_r. symmetry. exact Hn. }
      rewrite E. split; [reflexivity | cbn [fst]; eauto].
    + apply (poll_loop_after_terminal w _ sreq Hasks _ _ _ _ _ _ v Htr);
        try assumption.
      rewrite !length_app. cbn. lia.
  - exfalso. rewrite (bind_threw _ _ _ _ _ E0) in Htr. cbn [snd] in Htr.
    destruct (locate_after_one _ _ _ _ _ _ Htr Hlen) as [(-> & _ & _) | (l & _ & Hd)].
    + rewrite (getStatus_said w _ _ Hasks _ _ Hsaid) in E0. discriminate.
    + destruct l; discriminate.
  - exfalso. rewrite (bind_hung _ _ _ _ E0) in Htr. cbn [snd] in Htr.
    destruct (locate_after_one _ _ _ _ _ _ Htr Hlen) as [(-> & _ & _) | (l & _ & Hd)].
    + rewrite (getStatus_said w _ _ Hasks _ _ Hsaid) in E0. discriminate.
    + destruct l; discriminate.
Qed.

Lemma Forall_firstn_of {X} (P : X -> Prop) n (l : list X) :
  Forall P l -> Forall P (firstn n l).
Proof.
  intro H. rewrite <- (firstn_skipn n l) in H. now apply Forall_app in H.
Qed.

Lemma submission_no_status this q bh tok hash :
  Forall (fun e => fetches is_status e = false) (submission this q bh tok hash).
Proof.
  unfold submission, attestation_request.
  destruct (requested_block bh); repeat constructor.
Qed.

Lemma no_status_in (t t1 rest : Trace) req :
  Forall (fun e => fetches is_status e = false) t ->
  t = t1 ++ EvFetch req :: rest -> is_status req = true -> False.
Proof.
  intros H -> Hst. apply Forall_app in H. destruct H as [_ H].
  inversion H as [| ? ? Hreq]. cbn [fetches] in Hreq. congruence.
Qed.

(** X8.  In every run of the asynchronous [queryAndVerify], in any world: a
    status request that is answered with a terminal status is the last one.
    No sleep and no status request follow it; the next event is the request
    for the result of the same job with the same token, and after that at
    most the call of the verifier. *)
Theorem async_terminal_status_ends_polling
    (w : World) (this : Async.SxTClient) (q : string) (bh : option string)
    (t1 rest : Trace) (req : Request) (v : JsVal) :
  let r := run (Async.queryAndVerify w this q bh) in
  snd r = t1 ++ EvFetch req :: rest ->
  is_status req = true ->
  status_said (net w t1 req) = Some v ->
  is_terminal v = true ->
  exists tok qid,
    let rreq := results_request (Async.zkQueryRootURL this) tok qid json_header in
    req = status_request (Async.zkQueryRootURL this) tok qid json_header /\
    ((rest = [EvFetch rreq] /\ forall x, fst r <> Returned x)
     \/ exists response,
          rest = [EvFetch rreq; EvVerifyHyperKzg response] /\
          fst r = verdict (wasm_verify_prover_response_hyper_kzg w response)).
Proof.
  cbn zeta. intros Htr Hst Hsaid Hterm.
  destruct (async_submitted_shape w this q bh) as (n0 & tok & hash & Hsub & Hn0 & Hret).
  cbn zeta in *. unfold run in *. unfold Async.queryAndVerify in *.
  assert (Hquiet := Forall_firstn_of _ n0 _ (submission_no_status this q bh tok hash)).
  destruct (Async.submitted w this q bh []) as [[[tok' qid] | e |] t0] eqn:Esub;
    cbn [fst snd] in *.
  2: { exfalso. rewrite (bind_threw _ _ _ _ _ Esub) in Htr. cbn [snd] in Htr.
       rewrite <- Hsub in Hquiet. exact (no_status_in _ _ _ _ Hquiet Htr Hst). }
  2: { exfalso. rewrite (bind_hung _ _ _ _ Esub) in Htr. cbn [snd] in Htr.
       rewrite <- Hsub in Hquiet. exact (no_status_in _ _ _ _ Hquiet Htr Hst). }
  destruct (Hret _ eq_refl) as [-> Etok]. cbn [fst] in Etok. subst tok'.
  rewrite <- Hsub in Hquiet. clear Hsub Hret Hn0.
  rewrite (bind_step _ _ _ _ _ Esub) in Htr |- *. cbv beta in *. cbn [fst snd] in *.
  exists tok, qid.
  set (sreq := status_request (Async.zkQueryRootURL this) tok qid json_header) in *.
  set (rreq := results_request (Async.zkQueryRootURL this) tok qid json_header) in *.
  destruct (async_polled_trace w this tok qid t0) as (n & _ & Hp). fold sreq in Hp.
  assert (Hmid : forall tail,
             Forall (fun e => fetches is_status e = false) tail ->
             (t0 ++ EvFetch sreq :: rounds sreq n) ++ tail = t1 ++ EvFetch req :: rest ->
             req = sreq /\ rest = tail /\
             exists c, fst (Async.polled w this tok qid t0) = Returned (true, c)).
  { intros tail Htail E. rewrite <- app_assoc in E.
    destruct (locate_in_middle (fetches is_status) _ _ _ _ _ _ E Hquiet Htail Hst)
      as (l & r & -> & HP & ->).
    assert (Hreq : req = sreq).
    { assert (Hin : In (EvFetch req) (EvFetch sreq :: rounds sreq n))
        by (rewrite HP; apply in_or_app; right; now left).
      destruct Hin as [Hin | Hin]; [now injection Hin | exact (rounds_fetch _ _ _ Hin)]. }
    subst req. rewrite HP, app_assoc in Hp.
    destruct (async_polled_after_terminal w this tok qid t0 (t0 ++ l) r v Hp)
      as (-> & Hc); try assumption.
    - rewrite length_app. lia.
    - repeat split. exact Hc. }
  destruct (Async.polled w this tok qid t0) as [[x | e |] t2] eqn:Ep;
    cbn [fst snd] in Hp, Hmid; subst t2.
  2: { exfalso. rewrite (bind_threw _ _ _ _ _ Ep) in Htr. cbn [snd] in Htr.
       destruct (Hmid [] (Forall_nil _)) as (_ & _ & c & Hc);
         [now rewrite app_nil_r | discriminate]. }
  2: { exfalso. rewrite (bind_hung _ _ _ _ Ep) in Htr. cbn [snd] in Htr.
       destruct (Hmid [] (Forall_nil _)) as (_ & _ & c & Hc);
         [now rewrite app_nil_r | discriminate]. }
  rewrite (bind_step _ _ _ _ _ Ep) in Htr |- *. cbv beta in *.
  assert (Hrr : fetches is_status (EvFetch rreq) = false)
    by apply results_request_not_status.
  destruct (async_fetchedAndVerified_trace w this tok qid
              (t0 ++ EvFetch sreq :: rounds sreq n)) as [(response & Hf) | (Hf & Hno)];
    fold rreq in Hf.
  - rewrite Hf in Htr |- *. cbn [fst snd] in *.
    destruct (Hmid [EvFetch rreq; EvVerifyHyperKzg response]) as (-> & -> & _);
      [repeat constructor; exact Hrr | exact Htr |].
    split; [reflexivity |]. right. exists response. split; reflexivity.
  - rewrite Hf in Htr.
    destruct (Hmid [EvFetch rreq]) as (-> & -> & _);
      [repeat constructor; exact Hrr | exact Htr |].
    split; [reflexivity |]. left. split; [reflexivity | exact Hno].
Qed.

Lemma async_terminal_status_witness :
  let w := job_world (pending_then 2 "canceled") in
  exists tok qid,
    status_request "https://api.makeinfinite.dev" (JStr "tok1") (JStr "job-7") json_header
    = status_request (Async.zkQueryRootURL async_client) tok qid json_header /\
    ((skipn 8 (snd (run (Async.queryAndVerify w async_client scenario_query None)))
      = [EvFetch (results_request (Async.zkQueryRootURL async_client) tok qid json_header)]
      /\ forall x, fst (run (Async.queryAndVerify w async_client scenario_query None))
                   <> Returned x)
     \/ exists response,
          skipn 8 (snd (run (Async.queryAndVerify w async_client scenario_query None)))
          = [EvFetch (results_request (Async.zkQueryRootURL async_client) tok qid json_header);
             EvVerifyHyperKzg response] /\
          fst (run (Async.queryAndVerify w async_client scenario_query None))
          = verdict (wasm_verify_prover_response_hyper_kzg w response)).
Proof.
  exact (async_terminal_status_ends_polling
           (job_world (pending_then 2 "canceled")) async_client scenario_query None
           (firstn 7 (snd (run (Async.queryAndVerify (job_world (pending_then 2 "canceled"))
                                  async_client scenario_query None))))
           (skipn 8 (snd (run (Async.queryAndVerify (job_world (pending_then 2 "canceled"))
                                  async_client scenario_query None))))
           (status_request "https://api.makeinfinite.dev" (JStr "tok1") (JStr "job-7")
              json_header)
           (JStr "canceled") eq_refl eq_refl eq_refl eq_refl).
Defined.

(** X9.  The same for [proofOfSqlQuery]: a status request answered with a
    terminal status is followed by the request for the result of that job,
    and by nothing else. *)
Theorem ts_terminal_status_ends_polling
    (w : World) (q : string) (apiKey : option string)
    (t1 rest : Trace) (req : Request) (v : JsVal) :
  snd (run (Ts.proofOfSqlQuery w q apiKey)) = t1 ++ EvFetch req :: rest ->
  is_status req = true ->
  status_said (net w t1 req) = Some v ->
  is_terminal v = true ->
  exists tok qid,
    req = status_request ts_root tok qid [] /\
    rest = [EvFetch (results_request ts_root tok qid [])].
Proof.
  intros Htr Hst Hsaid Hterm.
  destruct (ts_submitted_shape w q apiKey) as (n0 & tok & Hsub & Hn0 & Hret).
  cbn zeta in *. unfold run in *. unfold Ts.proofOfSqlQuery in *.
  assert (Hquiet : Forall (fun e => fetches is_status e = false)
                     (firstn n0 [EvFetch (ts_auth_request apiKey);
                                 EvFetch (ts_submit_request q tok)]))
    by (apply Forall_firstn_of; repeat constructor).
  destruct (Ts.submitted w q apiKey []) as [[[tok' qid] | e |] t0] eqn:Esub;
    cbn [fst snd] in *.
  2: { exfalso. rewrite (bind_threw _ _ _ _ _ Esub) in Htr. cbn [snd] in Htr.
       rewrite <- Hsub in Hquiet. exact (no_status_in _ _ _ _ Hquiet Htr Hst). }
  2: { exfalso. rewrite (bind_hung _ _ _ _ Esub) in Htr. cbn [snd] in Htr.
       rewrite <- Hsub in Hquiet. exact (no_status_in _ _ _ _ Hquiet Htr Hst). }
  destruct (Hret _ eq_refl) as [-> Etok]. cbn [fst] in Etok. subst tok'.
  rewrite <- Hsub in Hquiet. clear Hsub Hret Hn0.
  rewrite (bind_step _ _ _ _ _ Esub) in Htr. cbv beta in *. cbn [fst snd] in *.
  exists tok, qid.
  set (sreq := status_request ts_root tok qid []) in *.
  set (rreq := results_request ts_root tok qid []) in *.
  assert (Hasks := ts_getRequestStatus_asks w tok qid). fold sreq in Hasks.
  destruct (ts_polled_trace w tok qid t0) as (n & _ & Hp). fold sreq in Hp.
  assert (Hmid : forall tail,
             Forall (fun e => fetches is_status e = false) tail ->
             (t0 ++ rounds sreq n) ++ tail = t1 ++ EvFetch req :: rest ->
             req = sreq /\ rest = tail /\
             exists c, fst (Ts.polled w tok qid t0) = Returned (true, c)).
  { intros tail Htail E. rewrite <- app_assoc in E.
    destruct (locate_in_middle (fetches is_status) _ _ _ _ _ _ E Hquiet Htail Hst)
      as (l & r & -> & HP & ->).
    assert (Hreq : req = sreq).
    { apply (rounds_fetch _ _ n). rewrite HP. apply in_or_app. right. now left. }
    subst req. rewrite HP, app_assoc in Hp. unfold Ts.polled, while_polling in *.
    destruct (poll_loop_after_terminal w _ sreq Hasks _ _ _ _ _ _ v Hp)
      as (-> & Hc); try assumption.
    - rewrite length_app. lia.
    - repeat split. exact Hc. }
  destruct (Ts.polled w tok qid t0) as [[x | e |] t2] eqn:Ep;
    cbn [fst snd] in Hp, Hmid; subst t2.
  2: { exfalso. rewrite (bind_threw _ _ _ _ _ Ep) in Htr. cbn [snd] in Htr.
       destruct (Hmid [] (Forall_nil _)) as (_ & _ & c & Hc);
         [now rewrite app_nil_r | discriminate]. }
  2: { exfalso. rewrite (bind_hung _ _ _ _ Ep) in Htr. cbn [snd] in Htr.
       destruct (Hmid [] (Forall_nil _)) as (_ & _ & c & Hc);
         [now rewrite app_nil_r | discriminate]. }
  rewrite (bind_step _ _ _ _ _ Ep) in Htr. cbv beta in *.
  destruct (ts_getResults_trace w tok qid (t0 ++ rounds sreq n)) as [Hf _].
  fold rreq in Hf. rewrite Hf in Htr.
  destruct (Hmid [EvFetch rreq]) as (-> & -> & _);
    [repeat constructor; apply results_request_not_status | exact Htr |].
  split; reflexivity.
Qed.

Lemma ts_terminal_status_witness :
  exists tok qid,
    status_request ts_root (JStr "tok1") (JStr "job-7") []
    = status_request ts_root tok qid [] /\
    skipn 8 (snd (run (Ts.proofOfSqlQuery (job_world (pending_then 2 "failed"))
                         scenario_query (Some "sxt-key"))))
    = [EvFetch (results_request ts_root tok qid [])].
Proof.
  exact (ts_terminal_status_ends_polling
           (job_world (pending_then 2 "failed")) scenario_query (Some "sxt-key")
           (firstn 7 (snd (run (Ts.proofOfSqlQuery (job_world (pending_then 2 "failed"))
                                  scenario_query (Some "sxt-key")))))
           (skipn 8 (snd (run (Ts.proofOfSqlQuery (job_world (pending_then 2 "failed"))
                                 scenario_query (Some "sxt-key")))))
           (status_request ts_root (JStr "tok1") (JStr "job-7") [])
           (JStr "failed") eq_refl eq_refl eq_refl eq_refl).
Defined.

(** ** Where the arguments come from *)

Lemma checked_returns w req signal what t v t' :
  bind (fetch w req signal)
    (fun r => if negb (ok r) then throw (http_error what r) else json r) t
  = (Returned v, t') ->
  answer_of true signal (net w t req) = Some v /\ t' = t ++ [EvFetch req].
Proof.
  unfold bind, fetch, answer_of, json, throw, ret.
  destruct (aborted signal (latency (net w t req))); [discriminate |].
  destruct (latency (net w t req)); [| discriminate].
  destruct (settled (net w t req)) as [r | reason]; [| discriminate].
  cbn [andb]. destruct (negb (ok r)); [discriminate |].
  destruct (payload r); [| discriminate].
  intro H. injection H as <- <-. split; reflexivity.
Qed.

Lemma lift_returns {A B} (o : Outcome A) (k : A -> M B) t b t' :
  bind (lift o) k t = (Returned b, t') ->
  exists a, o = Returned a /\ k a t = (Returned b, t').
Proof.
  rewrite bind_lift. destruct o as [a | e |]; try discriminate. eauto.
Qed.

Lemma bind_returns {A B} (c : M A) (k : A -> M B) t b t' :
  bind c k t = (Returned b, t') ->
  exists a t1, c t = (Returned a, t1) /\ k a t1 = (Returned b, t').
Proof.
  unfold bind. destruct (c t) as [[a | e |] t1]; try discriminate. eauto.
Qed.

Section AsyncAnswers.
Variable w : World.
Variable this : Async.SxTClient.

Lemma async_getAccessToken_returns t auth t' :
  Async.getAccessToken w this t = (Returned auth, t') ->
  key_missing (Async.sxtApiKey this) = false /\
  answer_of true None (net w t (async_auth_request this)) = Some auth /\
  t' = t ++ [EvFetch (async_auth_request this)].
Proof.
  unfold Async.getAccessToken. destruct (key_missing _); [discriminate |].
  intro H. split; [reflexivity |]. exact (checked_returns _ _ _ _ _ _ _ H).
Qed.

Lemma async_getAttestations_returns bh t att t' :
  Async.getAttestations w this bh t = (Returned att, t') ->
  answer_of true None (net w t (attestation_request this bh)) = Some att /\
  t' = t ++ [EvFetch (attestation_request this bh)].
Proof.
  unfold Async.getAttestations, attestation_request, requested_block.
  destruct bh as [h |]; [destruct (String.eqb h EmptyString) |]; cbn [negb];
    intro H; exact (checked_returns _ _ _ _ _ _ _ H).
Qed.

Lemma async_submitted_returns q bh tok qid t0 :
  run (Async.submitted w this q bh) = (Returned (tok, qid), t0) ->
  exists auth att attested hash sub,
    key_missing (Async.sxtApiKey this) = false /\
    answer_of true None (net w [] (async_auth_request this)) = Some auth /\
    member "accessToken" auth = Returned tok /\
    answer_of true None (net w [EvFetch (async_auth_request this)]
                           (attestation_request this bh)) = Some att /\
    member "result" att = Returned attested /\
    member "attestationsFor" attested = Returned hash /\
    answer_of true None (net w [EvFetch (async_auth_request this);
                                EvFetch (attestation_request this bh)]
                           (submit_request this tok q hash)) = Some sub /\
    member "queryId" sub = Returned qid /\
    t0 = submission this q bh tok hash.
Proof.
  unfold run, Async.submitted. intro H.
  apply bind_returns in H. destruct H as (auth & t1 & Ha & H).
  apply async_getAccessToken_returns in Ha. destruct Ha as (Hkey & Ha & ->).
  apply lift_returns in H. destruct H as (tok' & Htok & H).
  apply bind_returns in H. destruct H as (att & t2 & Hatt & H).
  apply async_getAttestations_returns in Hatt. destruct Hatt as (Hatt & ->).
  apply lift_returns in H. destruct H as (attested & Hres & H).
  apply lift_returns in H. destruct H as (hash & Hhash & H).
  apply bind_returns in H. destruct H as (sub & t3 & Hsub & H).
  apply checked_returns in Hsub. destruct Hsub as (Hsub & ->).
  apply lift_returns in H. destruct H as (qid' & Hqid & H).
  injection H as <- <- <-.
  exists auth, att, attested, hash, sub. cbn [app] in *. repeat split; assumption.
Qed.

End AsyncAnswers.

Lemma bind_cases {A B} (c : M A) (k : A -> M B) t :
  (exists a t1, c t = (Returned a, t1) /\ bind c k t = k a t1)
  \/ (snd (bind c k t) = snd (c t) /\ forall a t1, c t <> (Returned a, t1)).
Proof.
  unfold bind. destruct (c t) as [[a | e |] t1]; [left; eauto | right | right];
    (split; [reflexivity | discriminate]).
Qed.

Lemma lift_cases {A B} (o : Outcome A) (k : A -> M B) t :
  (exists a, o = Returned a /\ bind (lift o) k t = k a t)
  \/ snd (bind (lift o) k t) = t.
Proof.
  rewrite bind_lift. destruct o as [a | e |]; [left; eauto | now right | now right].
Qed.

Section AsyncOpening.
Variable w : World.
Variable this : Async.SxTClient.

(** Once the third request is out, the first two were answered. *)
Lemma async_submitted_prefix q bh :
  2 < length (snd (run (Async.submitted w this q bh))) ->
  exists tok hash,
    async_opening w this bh tok hash /\
    snd (run (Async.submitted w this q bh)) = submission this q bh tok hash.
Proof.
  unfold run, Async.submitted. intro Hlen.
  destruct (bind_cases (Async.getAccessToken w this)
              (fun authResponse =>
                 accessToken <- lift (member "accessToken" authResponse) ;;
                 attestationsResponse <- Async.getAttestations w this bh ;;
                 attested <- lift (member "result" attestationsResponse) ;;
                 bestBlockHash <- lift (member "attestationsFor" attested) ;;
                 submitQueryResponse <- Async.submitZkQueryRequest w this accessToken
                     (JObj [("sqlText", JStr q); ("sourceNetwork", JStr "mainnet");
                            ("commitmentScheme", JStr "HYPER_KZG");
                            ("blockHash", bestBlockHash); ("timeout", JNull)]) ;;
                 queryId <- lift (member "queryId" submitQueryResponse) ;;
                 ret (accessToken, queryId)) [])
    as [(auth & t1 & Ha & E) | (E & _)].
  2: { exfalso. rewrite E in Hlen.
       destruct (async_getAccessToken_shape w this []) as [[_ H] | [_ H]];
         rewrite H in Hlen; cbn in Hlen; lia. }
  rewrite E in Hlen |- *. clear E.
  apply async_getAccessToken_returns in Ha. destruct Ha as (Hkey & Ha & ->).
  cbn [app] in *.
  destruct (lift_cases (member "accessToken" auth)
              (fun accessToken =>
                 attestationsResponse <- Async.getAttestations w this bh ;;
                 attested <- lift (member "result" attestationsResponse) ;;
                 bestBlockHash <- lift (member "attestationsFor" attested) ;;
                 submitQueryResponse <- Async.submitZkQueryRequest w this accessToken
                     (JObj [("sqlText", JStr q); ("sourceNetwork", JStr "mainnet");
                            ("commitmentScheme", JStr "HYPER_KZG");
                            ("blockHash", bestBlockHash); ("timeout", JNull)]) ;;
                 queryId <- lift (member "queryId" submitQueryResponse) ;;
                 ret (accessToken, queryId)) [EvFetch (async_auth_request this)])
    as [(tok & Htok & E) | E].
  2: { exfalso. rewrite E in Hlen. cbn in Hlen. lia. }
  rewrite E in Hlen |- *. clear E.
  destruct (bind_cases (Async.getAttestations w this bh)
              (fun attestationsResponse =>
                 attested <- lift (member "result" attestationsResponse) ;;
                 bestBlockHash <- lift (member "attestationsFor" attested) ;;
                 submitQueryResponse <- Async.submitZkQueryRequest w this tok
                     (JObj [("sqlText", JStr q); ("sourceNetwork", JStr "mainnet");
                            ("commitmentScheme", JStr "HYPER_KZG");
                            ("blockHash", bestBlockHash); ("timeout", JNull)]) ;;
                 queryId <- lift (member "queryId" submitQueryResponse) ;;
                 ret (tok, queryId)) [EvFetch (async_auth_request this)])
    as [(att & t2 & Hatt & E) | (E & _)].
  2: { exfalso. rewrite E, async_getAttestations_trace in Hlen. cbn in Hlen. lia. }
  rewrite E in Hlen |- *. clear E.
  apply async_getAttestations_returns in Hatt. destruct Hatt as (Hatt & ->).
  cbn [app] in *.
  destruct (lift_cases (member "result" att)
              (fun attested =>
                 bestBlockHash <- lift (member "attestationsFor" attested) ;;
                 submitQueryResponse <- Async.submitZkQueryRequest w this tok
                     (JObj [("sqlText", JStr q); ("sourceNetwork", JStr "mainnet");
                            ("commitmentScheme", JStr "HYPER_KZG");
                            ("blockHash", bestBlockHash); ("timeout", JNull)]) ;;
                 queryId <- lift (member "queryId" submitQueryResponse) ;;
                 ret (tok, queryId))
              [EvFetch (async_auth_request this); EvFetch (attestation_request this bh)])
    as [(attested & Hres & E) | E].
  2: { exfalso. rewrite E in Hlen. cbn in Hlen. lia. }
  rewrite E in Hlen |- *. clear E.
  destruct (lift_cases (member "attestationsFor" attested)
              (fun bestBlockHash =>
                 submitQueryResponse <- Async.submitZkQueryRequest w this tok
                     (JObj [("sqlText", JStr q); ("sourceNetwork", JStr "mainnet");
                            ("commitmentScheme", JStr "HYPER_KZG");
                            ("blockHash", bestBlockHash); ("timeout", JNull)]) ;;
                 queryId <- lift (member "queryId" submitQueryResponse) ;;
                 ret (tok, queryId))
              [EvFetch (async_auth_request this); EvFetch (attestation_request this bh)])
    as [(hash & Hhash & E) | E].
  2: { exfalso. rewrite E in Hlen. cbn in Hlen. lia. }
  rewrite E. clear E Hlen.
  exists tok, hash. split.
  - exists auth, att, attested. repeat split; assumption.
  - assert (Hs := async_submit_trace w this tok q hash
                    [EvFetch (async_auth_request this);
                     EvFetch (attestation_request this bh)]).
    unfold bind.
    destruct (Async.submitZkQueryRequest w this tok _ _) as [[sub | e |] t3];
      cbn [snd] in Hs; subst t3; try reflexivity.
    unfold lift. now destruct (member "queryId" sub).
Qed.

End AsyncOpening.

Lemma async_fetchedAndVerified_answer w this tok qid t :
  let rreq := results_request (Async.zkQueryRootURL this) tok qid json_header in
  (exists response,
      answer_of true None (net w t rreq) = Some response /\
      Async.fetchedAndVerified w this tok qid t =
      (verdict (wasm_verify_prover_response_hyper_kzg w response),
       t ++ [EvFetch rreq; EvVerifyHyperKzg response]))
  \/ (answer_of true None (net w t rreq) = None /\
      snd (Async.fetchedAndVerified w this tok qid t) = t ++ [EvFetch rreq]).
Proof.
  intro rreq.
  unfold Async.fetchedAndVerified, Async.getZkQueryResult, Async.getZkQueryApi,
    Async.getHttpRequest, verify_prover_response_hyper_kzg, answer_of, verdict,
    bind, fetch, json, ret, throw, emit.
  change (mkRequest GET _ _ None) with rreq. cbn [aborted].
  destruct (net w t rreq) as [[ms |] [resp | reason]]; cbn [latency settled];
    try (right; split; reflexivity).
  cbn [andb]. destruct (ok resp); cbn [negb]; try (right; split; reflexivity).
  destruct (payload resp) as [response |]; try (right; split; reflexivity).
  left. exists response. split; [reflexivity |]. rewrite <- app_assoc.
  now destruct (wasm_verify_prover_response_hyper_kzg w response).
Qed.

(** The trace of a run begins with the trace of its submission, and is that
    trace when the submission does not return. *)
Lemma async_run_begins w this q bh :
  let s := run (Async.submitted w this q bh) in
  let r := run (Async.queryAndVerify w this q bh) in
  (exists tok qid,
      fst s = Returned (tok, qid) /\
      r = bind (Async.polled w this tok qid)
            (fun _ => Async.fetchedAndVerified w this tok qid) (snd s))
  \/ ((forall session, fst s <> Returned session) /\ snd r = snd s).
Proof.
  cbn zeta. unfold run, Async.queryAndVerify.
  destruct (Async.submitted w this q bh []) as [[[tok qid] | e |] t0] eqn:Esub.
  - left. exists tok, qid. split; [reflexivity |]. now rewrite (bind_step _ _ _ _ _ Esub).
  - right. rewrite (bind_threw _ _ _ _ _ Esub). split; [discriminate | reflexivity].
  - right. rewrite (bind_hung _ _ _ _ Esub). split; [discriminate | reflexivity].
Qed.

(** X10.  The job submission of the asynchronous client carries what the
    backend answered, unexamined: whenever the third request of a run goes
    out, it is the submission with the [accessToken] member of the auth
    answer as bearer token and the [attestationsFor] member of the
    attestation answer's [result] as block hash -- [undefined] included, when
    the answer has no such member. *)
Theorem async_submission_carries_the_answers
    (w : World) (this : Async.SxTClient) (q : string) (bh : option string) :
  let r := run (Async.queryAndVerify w this q bh) in
  2 < length (snd r) ->
  exists tok hash,
    async_opening w this bh tok hash /\
    firstn 3 (snd r) = submission this q bh tok hash.
Proof.
  cbn zeta. intro Hlen.
  destruct (async_run_begins w this q bh) as [(tok' & qid & Hs & Hr) | (_ & Hr)];
    cbn zeta in *.
  - destruct (async_submitted_returns w this q bh tok' qid
                (snd (run (Async.submitted w this q bh))))
      as (auth & att & attested & hash & sub & Hkey & Ha & Htok & Hatt & Hres & Hhash
          & _ & _ & Ht0).
    { rewrite <- Hs. apply surjective_pairing. }
    exists tok', hash. split; [exists auth, att, attested; repeat split; assumption |].
    rewrite Hr, Ht0.
    destruct (async_polled_trace w this tok' qid (submission this q bh tok' hash))
      as (n & _ & Hp).
    unfold bind.
    destruct (Async.polled w this tok' qid (submission this q bh tok' hash))
      as [[x | e |] t2]; cbn [snd] in Hp |- *; subst t2; try reflexivity.
    destruct (async_fetchedAndVerified_trace w this tok' qid
                (submission this q bh tok' hash
                 ++ EvFetch (status_request (Async.zkQueryRootURL this) tok' qid json_header)
                 :: rounds (status_request (Async.zkQueryRootURL this) tok' qid json_header) n))
      as [(response & ->) | (-> & _)]; reflexivity.
  - rewrite Hr in Hlen |- *.
    destruct (async_submitted_prefix w this q bh Hlen) as (tok & hash & Hopen & ->).
    exists tok, hash. split; [exact Hopen | reflexivity].
Qed.

Lemma async_submission_witness :
  firstn 3 (snd (run (Async.queryAndVerify tokenless_world async_client scenario_query
                        (Some "ab12"))))
  = submission async_client scenario_query (Some "ab12") JUndefined (JStr "0xb10c").
Proof.
  destruct (async_submission_carries_the_answers tokenless_world async_client
              scenario_query (Some "ab12")) as (tok & hash & Hopen & E).
  - cbn. lia.
  - destruct Hopen as (auth & att & attested & _ & Ha & Htok & Hatt & Hres & Hhash).
    injection Ha as <-. injection Htok as <-.
    injection Hatt as <-. injection Hres as <-. injection Hhash as <-.
    exact E.
Defined.

(** X11.  From the submission on, a run of the asynchronous client lives on
    what the backend answered: the job id of every status request and of the
    result request is the [queryId] member of the submission's answer, their
    token is the one of the auth answer, and the verifier is called on the
    parsed body of the result answer, as it came. *)
Theorem async_job_requests_carry_the_answers
    (w : World) (this : Async.SxTClient) (q : string) (bh : option string) :
  let r := run (Async.queryAndVerify w this q bh) in
  3 < length (snd r) ->
  exists tok hash sub qid n tail,
    let t0 := submission this q bh tok hash in
    let sreq := status_request (Async.zkQueryRootURL this) tok qid json_header in
    let rreq := results_request (Async.zkQueryRootURL this) tok qid json_header in
    async_opening w this bh tok hash /\
    answer_of true None (net w (firstn 2 t0) (submit_request this tok q hash)) = Some sub /\
    member "queryId" sub = Returned qid /\
    snd r = t0 ++ EvFetch sreq :: rounds sreq n ++ tail /\
    (tail = []
     \/ (tail = [EvFetch rreq] /\
         answer_of true None (net w (t0 ++ EvFetch sreq :: rounds sreq n) rreq) = None)
     \/ exists response,
          tail = [EvFetch rreq; EvVerifyHyperKzg response] /\
          answer_of true None (net w (t0 ++ EvFetch sreq :: rounds sreq n) rreq)
          = Some response).
Proof.
  cbn zeta. intro Hlen.
  destruct (async_run_begins w this q bh) as [(tok & qid & Hs & Hr) | (_ & Hr)];
    cbn zeta in *.
  2: { exfalso. rewrite Hr in Hlen.
       destruct (async_submitted_shape w this q bh) as (n0 & tok & hash & Htr & Hn0 & _).
       cbn zeta in Htr. rewrite Htr, length_firstn in Hlen. cbn in Hlen. lia. }
  destruct (async_submitted_returns w this q bh tok qid
              (snd (run (Async.submitted w this q bh))))
    as (auth & att & attested & hash & sub & Hkey & Ha & Htok & Hatt & Hres & Hhash
        & Hsub & Hqid & Ht0).
  { rewrite <- Hs. apply surjective_pairing. }
  rewrite Hr, Ht0. clear Hr Hlen.
  set (t0 := submission this q bh tok hash).
  set (sreq := status_request (Async.zkQueryRootURL this) tok qid json_header).
  set (rreq := results_request (Async.zkQueryRootURL this) tok qid json_header).
  destruct (async_polled_trace w this tok qid t0) as (n & _ & Hp). fold sreq in Hp.
  exists tok, hash, sub, qid, n.
  assert (Hopen : async_opening w this bh tok hash)
    by (exists auth, att, attested; repeat split; assumption).
  unfold bind.
  destruct (Async.polled w this tok qid t0) as [[x | e |] t2]; cbn [snd] in Hp |- *;
    subst t2.
  2, 3: exists []; rewrite app_nil_r; repeat split; try assumption; now left.
  destruct (async_fetchedAndVerified_answer w this tok qid
              (t0 ++ EvFetch sreq :: rounds sreq n)) as [(response & Hans & Hf) | (Hans & Hf)];
    fold rreq in Hans, Hf.
  - exists [EvFetch rreq; EvVerifyHyperKzg response]. rewrite Hf. cbn [snd].
    rewrite <- app_assoc. repeat split; try assumption.
    right. right. exists response. split; [reflexivity | exact Hans].
  - exists [EvFetch rreq]. rewrite Hf. rewrite <- app_assoc.
    repeat split; try assumption. right. left. split; [reflexivity | exact Hans].
Qed.

Lemma async_job_requests_witness :
  let w := job_world (pending_then 1 "done") in
  exists tok hash sub qid n tail,
    let t0 := submission async_client scenario_query None tok hash in
    let sreq := status_request (Async.zkQueryRootURL async_client) tok qid json_header in
    let rreq := results_request (Async.zkQueryRootURL async_client) tok qid json_header in
    async_opening w async_client None tok hash /\
    answer_of true None (net w (firstn 2 t0) (submit_request async_client tok scenario_query hash))
    = Some sub /\
    member "queryId" sub = Returned qid /\
    snd (run (Async.queryAndVerify w async_client scenario_query None))
    = t0 ++ EvFetch sreq :: rounds sreq n ++ tail /\
    (tail = []
     \/ (tail = [EvFetch rreq] /\
         answer_of true None (net w (t0 ++ EvFetch sreq :: rounds sreq n) rreq) = None)
     \/ exists response,
          tail = [EvFetch rreq; EvVerifyHyperKzg response] /\
          answer_of true None (net w (t0 ++ EvFetch sreq :: rounds sreq n) rreq)
          = Some response).
Proof.
  apply (async_job_requests_carry_the_answers (job_world (pending_then 1 "done"))
           async_client scenario_query None).
  cbn. lia.
Defined.

(** X12.  What the synchronous client hands to the planner and to the
    verifier is what the backend answered, unexamined.  When the verifier
    is called, the token of the prover request is the [accessToken] member of
    the auth answer; the commitment given to the planner is the [result] of
    the state-read answer without its first two characters, whatever they
    are; the body of the prover request is the planner's prover query; and
    the verifier gets the parsed body of the prover's answer, as it came. *)
Theorem chainlink_arguments_come_from_the_answers
    (w : World) (this : Chainlink.SxTClient) (q table key : string)
    (resp expr : JsVal) (cs : list TableRefAndCommitment) :
  let r := run (Chainlink.queryAndVerify w this q table key) in
  In (EvVerifyDory resp expr cs) (snd r) ->
  exists auth tok cr result commitment hex planned,
    let fetched := mkTableRefAndCommitment table hex in
    answer_of true (Some 3000) (net w [] (auth_request this)) = Some auth /\
    member "accessToken" auth = Returned tok /\
    answer_of true (Some 3000)
      (net w [EvFetch (auth_request this)] (commitment_request this key)) = Some cr /\
    member "result" cr = Returned result /\
    slice2 result = Returned commitment /\
    passStringToWasm0 commitment = Returned hex /\
    (forall s, result = JStr s -> hex = string_drop 2 s) /\
    wasm_plan_prover_query_dory w q [fetched] = inr planned /\
    answer_of true (Some 3000)
      (net w [EvFetch (auth_request this); EvFetch (commitment_request this key);
              EvPlan q [fetched]]
         (proof_request this tok (prover_query_json planned))) = Some resp /\
    snd r = linear_run this q key tok fetched planned resp /\
    fst r = verdict (wasm_verify_prover_response_dory w resp
                       (query_expr_json planned) (commitments planned)).
Proof.
  cbn zeta. unfold run.
  remember (Chainlink.queryAndVerify w this q table key []) as r eqn:Er.
  intro Hin. unfold Chainlink.queryAndVerify in Er.
  assert (Hno : forall (o : Outcome JsVal) t,
             r = (o, t) -> Forall (fun e => is_verify e = false) t -> False).
  { intros o t -> Hall. cbn [snd] in Hin. rewrite Forall_forall in Hall.
    specialize (Hall _ Hin). discriminate. }
  destruct (chainlink_getAccessToken_shape w this []) as [[_ Hk] | [Hkey Ht]].
  { exfalso. rewrite (bind_threw _ _ _ _ _ Hk) in Er. eapply Hno; [exact Er | constructor]. }
  destruct (Chainlink.getAccessToken w this []) as [[auth | e |] t1] eqn:Ea;
    cbn [snd app] in Ht; subst t1.
  2: { exfalso. rewrite (bind_threw _ _ _ _ _ Ea) in Er.
       eapply Hno; [exact Er | repeat constructor]. }
  2: { exfalso. rewrite (bind_hung _ _ _ _ Ea) in Er.
       eapply Hno; [exact Er | repeat constructor]. }
  rewrite (bind_step _ _ _ _ _ Ea) in Er. cbv beta in Er.
  unfold Chainlink.getAccessToken in Ea. rewrite Hkey in Ea.
  apply checked_returns in Ea. destruct Ea as (Ha & _).
  change (mkRequest POST _ _ _) with (auth_request this) in Ha.
  rewrite bind_lift in Er.
  destruct (member "accessToken" auth) as [tok | e |] eqn:Etok;
    try solve [exfalso; eapply Hno; [exact Er | repeat constructor]].
  assert (Hc := chainlink_getCommitment_trace w this key [EvFetch (auth_request this)]).
  destruct (Chainlink.getCommitment w this key [EvFetch (auth_request this)])
    as [[cr | e |] t2] eqn:Ec; cbn [snd app] in Hc; subst t2.
  2: { exfalso. rewrite (bind_threw _ _ _ _ _ Ec) in Er.
       eapply Hno; [exact Er | repeat constructor]. }
  2: { exfalso. rewrite (bind_hung _ _ _ _ Ec) in Er.
       eapply Hno; [exact Er | repeat constructor]. }
  rewrite (bind_step _ _ _ _ _ Ec) in Er. cbv beta in Er.
  apply checked_returns in Ec. destruct Ec as (Hcr & _).
  change (mkRequest POST _ _ _) with (commitment_request this key) in Hcr.
  rewrite bind_lift in Er.
  destruct (member "result" cr) as [result | e |] eqn:Eres;
    try solve [exfalso; eapply Hno; [exact Er | repeat constructor]].
  rewrite bind_lift in Er.
  destruct (slice2 result) as [commitment | e |] eqn:Eslice;
    try solve [exfalso; eapply Hno; [exact Er | repeat constructor]].
  unfold new_TableRefAndCommitment in Er.
  unfold bind at 1 in Er. rewrite bind_lift in Er.
  destruct (passStringToWasm0 commitment) as [hex | e |] eqn:Ehex;
    try solve [exfalso; eapply Hno; [exact Er | repeat constructor]].
  unfold ret at 1 in Er.
  unfold bind at 1 in Er. rewrite plan_run in Er.
  set (fetched := mkTableRefAndCommitment table hex) in *.
  destruct (wasm_plan_prover_query_dory w q [fetched]) as [e | planned] eqn:Eplan;
    try solve [exfalso; eapply Hno; [exact Er | repeat constructor]].
  cbn [app] in Er.
  assert (Hp := chainlink_getProof_trace w this tok (prover_query_json planned)
                  [EvFetch (auth_request this); EvFetch (commitment_request this key);
                   EvPlan q [fetched]]).
  destruct (Chainlink.getProof w this tok (prover_query_json planned) _)
    as [[resp' | e |] t4] eqn:Ep; cbn [snd app] in Hp; subst t4.
  2: { exfalso. rewrite (bind_threw _ _ _ _ _ Ep) in Er.
       eapply Hno; [exact Er | repeat constructor]. }
  2: { exfalso. rewrite (bind_hung _ _ _ _ Ep) in Er.
       eapply Hno; [exact Er | repeat constructor]. }
  rewrite (bind_step _ _ _ _ _ Ep) in Er. cbv beta in Er.
  apply checked_returns in Ep. destruct Ep as (Hresp & _).
  change (mkRequest POST _ _ _) with (proof_request this tok (prover_query_json planned))
    in Hresp.
  rewrite verify_dory_run in Er. subst r. cbn [fst snd app] in *.
  assert (E : resp = resp').
  { destruct Hin as [H | [H | [H | [H | [H | []]]]]]; try discriminate.
    now injection H. }
  subst resp'.
  exists auth, tok, cr, result, commitment, hex, planned. fold fetched.
  repeat (split; [assumption || reflexivity |]).
  split.
  { intros s ->. cbn in Eslice. injection Eslice as <-. cbn in Ehex. now injection Ehex. }
  repeat (split; [assumption || reflexivity |]). reflexivity.
Qed.

Lemma chainlink_arguments_witness :
  let w := node_world (JStr "zzAB12") (After 20) in
  let r := run (Chainlink.queryAndVerify w sync_client scenario_query scenario_table
                  "0xkey") in
  exists auth tok cr result commitment hex planned,
    let fetched := mkTableRefAndCommitment scenario_table hex in
    answer_of true (Some 3000) (net w [] (auth_request sync_client)) = Some auth /\
    member "accessToken" auth = Returned tok /\
    answer_of true (Some 3000)
      (net w [EvFetch (auth_request sync_client)] (commitment_request sync_client "0xkey"))
    = Some cr /\
    member "result" cr = Returned result /\
    slice2 result = Returned commitment /\
    passStringToWasm0 commitment = Returned hex /\
    (forall s, result = JStr s -> hex = string_drop 2 s) /\
    wasm_plan_prover_query_dory w scenario_query [fetched] = inr planned /\
    answer_of true (Some 3000)
      (net w [EvFetch (auth_request sync_client);
              EvFetch (commitment_request sync_client "0xkey");
              EvPlan scenario_query [fetched]]
         (proof_request sync_client tok (prover_query_json planned))) = Some proof_of_42 /\
    snd r = linear_run sync_client scenario_query "0xkey" tok fetched planned proof_of_42 /\
    fst r = verdict (wasm_verify_prover_response_dory w proof_of_42
                       (query_expr_json planned) (commitments planned)).
Proof.
  apply (chainlink_arguments_come_from_the_answers
           (node_world (JStr "zzAB12") (After 20)) sync_client scenario_query
           scenario_table "0xkey" proof_of_42 (JObj [("plan", JStr scenario_query)])
           [mkTableRefAndCommitment "ETHEREUM.TRANSACTIONS" "00AB12"]).
  vm_compute. do 4 right. left. reflexivity.
Defined.

Lemma parsed_member_returns w req p t v t' :
  bind (fetch w req None)
    (fun response => bind (json response) (fun parsed => lift (member p parsed))) t
  = (Returned v, t') ->
  exists body,
    answer_of false None (net w t req) = Some body /\
    member p body = Returned v /\
    t' = t ++ [EvFetch req].
Proof.
  unfold bind, fetch, answer_of, json, throw, ret, lift. cbn [aborted andb].
  destruct (latency (net w t req)); [| discriminate].
  destruct (settled (net w t req)) as [r | reason]; [| discriminate].
  destruct (payload r) as [body |]; [| discriminate].
  destruct (member p body) as [v' | e |] eqn:E; try discriminate.
  intro H. injection H as <- <-. exists body. repeat split. exact E.
Qed.

Lemma ts_submitted_returns w q apiKey tok qid t0 :
  run (Ts.submitted w q apiKey) = (Returned (tok, qid), t0) ->
  exists auth sub,
    answer_of false None (net w [] (ts_auth_request apiKey)) = Some auth /\
    member "accessToken" auth = Returned tok /\
    answer_of false None (net w [EvFetch (ts_auth_request apiKey)] (ts_submit_request q tok))
    = Some sub /\
    member "queryId" sub = Returned qid /\
    t0 = [EvFetch (ts_auth_request apiKey); EvFetch (ts_submit_request q tok)].
Proof.
  unfold run, Ts.submitted. intro H.
  apply bind_returns in H. destruct H as (tok' & t1 & Ha & H).
  apply parsed_member_returns in Ha. destruct Ha as (auth & Ha & Htok & ->).
  apply bind_returns in H. destruct H as (qid' & t2 & Hs & H).
  apply parsed_member_returns in Hs. destruct Hs as (sub & Hs & Hqid & ->).
  injection H as <- <- <-.
  exists auth, sub. repeat split; assumption.
Qed.

(** X13.  [proofOfSqlQuery] takes the token and the job id from the bodies of
    the answers, whatever their status: once a run is past its two opening
    requests, the bearer token of every later request is the [accessToken]
    member of the auth answer's body and the job id of the status and result
    requests is the [queryId] member of the submission answer's body --
    [undefined] included, as after an auth answer [401] with an error body. *)
Theorem ts_requests_carry_the_answers
    (w : World) (q : string) (apiKey : option string) :
  let r := run (Ts.proofOfSqlQuery w q apiKey) in
  2 < length (snd r) ->
  exists auth tok sub qid n tail,
    let t0 := [EvFetch (ts_auth_request apiKey); EvFetch (ts_submit_request q tok)] in
    let sreq := status_request ts_root tok qid [] in
    let rreq := results_request ts_root tok qid [] in
    answer_of false None (net w [] (ts_auth_request apiKey)) = Some auth /\
    member "accessToken" auth = Returned tok /\
    answer_of false None (net w (firstn 1 t0) (ts_submit_request q tok)) = Some sub /\
    member "queryId" sub = Returned qid /\
    1 <= n <= 60 /\
    snd r = t0 ++ rounds sreq n ++ tail /\
    (tail = [] \/ tail = [EvFetch rreq]).
Proof.
  cbn zeta. unfold run, Ts.proofOfSqlQuery. intro Hlen.
  destruct (Ts.submitted w q apiKey []) as [[[tok qid] | e |] t0] eqn:Esub.
  2: { exfalso. rewrite (bind_threw _ _ _ _ _ Esub) in Hlen. cbn [snd] in Hlen.
       destruct (ts_submitted_shape w q apiKey) as (n0 & tok & Htr & Hn0 & _).
       cbn zeta in Htr. unfold run in Htr. rewrite Esub in Htr. cbn [snd] in Htr.
       rewrite Htr, length_firstn in Hlen. cbn in Hlen. lia. }
  2: { exfalso. rewrite (bind_hung _ _ _ _ Esub) in Hlen. cbn [snd] in Hlen.
       destruct (ts_submitted_shape w q apiKey) as (n0 & tok & Htr & Hn0 & _).
       cbn zeta in Htr. unfold run in Htr. rewrite Esub in Htr. cbn [snd] in Htr.
       rewrite Htr, length_firstn in Hlen. cbn in Hlen. lia. }
  clear Hlen. rewrite (bind_step _ _ _ _ _ Esub). cbv beta. cbn [fst snd].
  destruct (ts_submitted_returns w q apiKey tok qid t0 Esub)
    as (auth & sub & Ha & Htok & Hs & Hqid & ->).
  set (t0 := [EvFetch (ts_auth_request apiKey); EvFetch (ts_submit_request q tok)]).
  set (sreq := status_request ts_root tok qid []).
  set (rreq := results_request ts_root tok qid []).
  destruct (ts_polled_trace w tok qid t0) as (n & Hn & Hp). fold sreq in Hp.
  exists auth, tok, sub, qid, n.
  unfold bind.
  destruct (Ts.polled w tok qid t0) as [[x | e |] t2]; cbn [snd] in Hp |- *; subst t2.
  2, 3: exists []; rewrite app_nil_r; repeat split; try assumption; try lia; now left.
  exists [EvFetch rreq].
  destruct (ts_getResults_trace w tok qid (t0 ++ rounds sreq n)) as [-> _].
  rewrite <- app_assoc. repeat split; try assumption; try lia. now right.
Qed.

Lemma ts_requests_witness :
  skipn 2 (snd (run (Ts.proofOfSqlQuery refusing_world scenario_query (Some "bad-key"))))
  = rounds (status_request ts_root JUndefined (JStr "job-7") []) 1
    ++ [EvFetch (results_request ts_root JUndefined (JStr "job-7") [])].
Proof.
  destruct (ts_requests_carry_the_answers refusing_world scenario_query (Some "bad-key"))
    as (auth & tok & sub & qid & n & tail & Ha & Htok & Hs & Hqid & Hn & E & Htail).
  - cbn. lia.
  - injection Ha as <-. injection Htok as <-.
    injection Hs as <-. injection Hqid as <-.
    reflexivity.
Defined.

(** * The object heap *)

Module HeapFacts.
Import Heap.

Lemma store_length idx v h : idx < length h -> length (store idx v h) = length h.
Proof.
  revert idx. induction h as [| x h IH]; intros [| i] H; cbn in *; try lia.
  rewrite IH; lia.
Qed.

Lemma store_same idx v h : nth idx (store idx v h) JUndefined = v.
Proof.
  revert idx. induction h as [| x h IH]; intros idx.
  - cbn [store]. rewrite app_nth2; rewrite repeat_length; [| lia].
    now rewrite Nat.sub_diag.
  - destruct idx as [| i]; cbn; [reflexivity | apply IH].
Qed.

Lemma store_other idx v h j :
  j <> idx -> idx < length h -> nth_error (store idx v h) j = nth_error h j.
Proof.
  revert idx j. induction h as [| x h IH]; intros [| i] [| j] Hne Hlt; cbn in *;
    try lia; try reflexivity.
  apply IH; lia.
Qed.

Lemma store_nth_error idx v h :
  idx < length h -> nth_error (store idx v h) idx = Some v.
Proof.
  revert idx. induction h as [| x h IH]; intros [| i] H; cbn in *; try lia;
    [reflexivity | apply IH; lia].
Qed.

Lemma store_last v h : store (length h) v h = h ++ [v].
Proof. induction h as [| x h IH]; cbn; [reflexivity | now rewrite IH]. Qed.

Lemma store_pushed v x h : store (length h) v (h ++ [x]) = h ++ [v].
Proof. induction h as [| y h IH]; cbn; [reflexivity | now rewrite IH]. Qed.

Lemma nth_of_nth_error (h : list JsVal) i v :
  nth_error h i = Some v -> nth i h JUndefined = v.
Proof. intro H. now apply nth_error_nth. Qed.

Lemma nth_same (l l' : list JsVal) j :
  nth_error l j = nth_error l' j -> nth j l JUndefined = nth j l' JUndefined.
Proof.
  intro H. destruct (nth_error l j) as [v |] eqn:E.
  - rewrite (nth_error_nth _ _ _ E). symmetry in H. now rewrite (nth_error_nth _ _ _ H).
  - symmetry in H. apply nth_error_None in E, H. now rewrite !nth_overflow.
Qed.

Lemma chain_in_range h i free :
  chain h i free -> forall j, In j free -> 132 <= j < length h.
Proof.
  induction 1 as [| i n free Hi Hn Hnot Hc IH]; intros j Hin; [destruct Hin |].
  destruct Hin as [<- | Hin]; [| now apply IH].
  split; [exact Hi |]. apply nth_error_Some. congruence.
Qed.

Lemma chain_start h i free : chain h i free -> i <= length h.
Proof.
  destruct 1 as [| i n free Hi Hn _ _]; [lia |].
  apply Nat.lt_le_incl, nth_error_Some. congruence.
Qed.

Lemma chain_at_end h free : chain h (length h) free -> free = [].
Proof.
  inversion 1 as [| i n free' Hi Hn _ _]; [reflexivity |].
  exfalso. assert (length h < length h) by (apply nth_error_Some; congruence). lia.
Qed.

(** The free list is determined by the heap. *)
Lemma chain_unique h i free : chain h i free -> forall free', chain h i free' -> free = free'.
Proof.
  induction 1 as [| i n free Hi Hn Hnot Hc IH]; intros free' H'.
  - symmetry. now apply (chain_at_end h).
  - inversion H' as [E | i' n' free'' Hi' Hn' _ Hc'].
    + exfalso. assert (i < length h) by (apply nth_error_Some; congruence). lia.
    + subst. rewrite Hn in Hn'. injection Hn' as E. apply Nat2Z.inj in E. subst n'.
      f_equal. now apply IH.
Qed.

(** Writing to a slot in use leaves the free list as it is. *)
Lemma chain_store h i free j v :
  chain h i free -> j < length h -> ~ In j free -> chain (store j v h) i free.
Proof.
  intros Hc Hj. induction Hc as [| i n free Hi Hn Hnot Hc IH]; intro Hout.
  - rewrite <- (store_length j v h Hj) at 1. constructor.
  - apply (chain_link _ i n); try assumption.
    + rewrite store_other; [exact Hn | | exact Hj]. intros ->. apply Hout. now left.
    + apply IH. intro Hin. apply Hout. now right.
Qed.

Lemma as_index_of_nat n : as_index (JNum (Z.of_nat n)) = Some n.
Proof.
  unfold as_index. destruct (0 <=? Z.of_nat n)%Z eqn:E.
  - now rewrite Nat2Z.id.
  - apply Z.leb_gt in E. lia.
Qed.

(** [addHeapObject] on a well-formed heap, in full. *)
Lemma add_run obj s free :
  well_formed s free ->
  exists s',
    addHeapObject obj s = Some (heap_next s, s') /\
    well_formed s' (tl free) /\
    132 <= heap_next s /\
    ~ In (heap_next s) (tl free) /\
    (forall j, j <> heap_next s -> getObject j s' = getObject j s) /\
    getObject (heap_next s) s' = obj /\
    match free with
    | [] => heap_next s = length (heap s) /\ heap s' = heap s ++ [obj]
            /\ heap_next s' = S (length (heap s))
    | i :: _ => i = heap_next s /\ heap s' = store i obj (heap s)
                /\ length (heap s') = length (heap s)
                /\ nth_error (heap s) i = Some (JNum (Z.of_nat (heap_next s')))
    end.
Proof.
  intros [Hlen Hc]. destruct s as [h next]. cbn [heap heap_next] in *.
  unfold addHeapObject, getObject. cbn [heap heap_next].
  inversion Hc as [E | i n free' Hi Hn Hnot Hc']; subst.
  - rewrite Nat.eqb_refl. rewrite app_nth2, Nat.sub_diag by lia. cbn [nth].
    rewrite as_index_of_nat, store_pushed. eexists. split; [reflexivity |].
    cbn [heap heap_next tl]. repeat split; cbn [heap heap_next]; try lia.
    + rewrite length_app. cbn. lia.
    + replace (length h + 1) with (length (h ++ [obj])) by (rewrite length_app; cbn; lia).
      constructor.
    + intros [].
    + intros j Hj. destruct (Nat.lt_ge_cases j (length h)) as [Hlt | Hge].
      * now rewrite app_nth1.
      * rewrite !nth_overflow; [reflexivity | lia | rewrite length_app; cbn; lia].
    + rewrite app_nth2, Nat.sub_diag by lia. reflexivity.
  - assert (Hlt : next < length h) by (apply nth_error_Some; congruence).
    assert (Hneq : (next =? length h)%nat = false) by (apply Nat.eqb_neq; lia).
    rewrite Hneq.
    rewrite (nth_of_nth_error _ _ _ Hn), as_index_of_nat.
    eexists. split; [reflexivity |]. cbn [heap heap_next tl].
    repeat split; cbn [heap heap_next]; try lia; try assumption.
    + rewrite store_length; assumption.
    + apply chain_store; assumption.
    + intros j Hj. apply nth_same. now apply store_other.
    + apply store_same.
    + now apply store_length.
Qed.

Lemma store_store idx v v' h : store idx v (store idx v' h) = store idx v h.
Proof.
  revert idx. induction h as [| x h IH]; intros idx.
  - cbn [store]. induction idx as [| i IHi]; cbn; [reflexivity |].
    cbn in IHi. now rewrite IHi.
  - destruct idx as [| i]; cbn; [reflexivity | now rewrite IH].
Qed.

Lemma store_id idx v h : nth_error h idx = Some v -> store idx v h = h.
Proof.
  revert idx. induction h as [| x h IH]; intros [| i] H; cbn in *; try discriminate.
  - now injection H as ->.
  - now rewrite IH.
Qed.

(** [dropObject] on a handle in use. *)
Lemma drop_run idx s free :
  well_formed s free -> live s free idx ->
  well_formed (dropObject idx s) (idx :: free) /\
  heap (dropObject idx s) = store idx (JNum (Z.of_nat (heap_next s))) (heap s) /\
  heap_next (dropObject idx s) = idx /\
  length (heap (dropObject idx s)) = length (heap s) /\
  forall j, j <> idx -> getObject j (dropObject idx s) = getObject j s.
Proof.
  intros [Hlen Hc] [[Hlo Hhi] Hout]. unfold dropObject, getObject.
  assert (E : (idx <? 132)%nat = false) by (apply Nat.ltb_ge; lia). rewrite E.
  cbn [heap heap_next]. repeat split; cbn [heap heap_next];
    try (rewrite store_length; lia).
  - apply (chain_link _ idx (heap_next s)); try assumption.
    + now apply store_nth_error.
    + now apply chain_store.
  - intros j Hj. apply nth_same. now apply store_other.
Qed.

Lemma state_eq (a b : State) :
  heap a = heap b -> heap_next a = heap_next b -> a = b.
Proof. destruct a, b. cbn. now intros -> ->. Qed.

Lemma well_formed_initial : well_formed initial [].
Proof. split; [cbn; lia | exact (chain_end (heap initial))]. Qed.

End HeapFacts.

(** X14.  [addHeapObject] on a well-formed heap hands out a handle that was
    not in use, from 132 on, under which [getObject] finds the object; the
    handles in use and the reserved slots keep their objects, and the heap
    stays well-formed, its free list shortened by its head. *)
Theorem addHeapObject_gives_a_fresh_handle
    (obj : JsVal) (s : Heap.State) (free : list nat) :
  Heap.well_formed s free ->
  exists idx s',
    Heap.addHeapObject obj s = Some (idx, s') /\
    132 <= idx /\
    ~ Heap.live s free idx /\
    Heap.live s' (tl free) idx /\
    Heap.getObject idx s' = obj /\
    (forall j, Heap.live s free j ->
               Heap.live s' (tl free) j /\ Heap.getObject j s' = Heap.getObject j s) /\
    (forall j, j < 132 -> Heap.getObject j s' = Heap.getObject j s) /\
    Heap.well_formed s' (tl free).
Proof.
  intro Hwf.
  destruct (HeapFacts.add_run obj s free Hwf)
    as (s' & Hadd & Hwf' & Hlo & Hfresh & Hother & Hsame & Hcase).
  exists (Heap.heap_next s), s'.
  assert (Hlen : length (Heap.heap s) <= length (Heap.heap s')
                 /\ Heap.heap_next s < length (Heap.heap s')
                 /\ (Heap.heap_next s < length (Heap.heap s) -> In (Heap.heap_next s) free)).
  { destruct free as [| i free'].
    - destruct Hcase as (E & -> & _). rewrite length_app. cbn. lia.
    - destruct Hcase as (-> & _ & -> & _). destruct Hwf as [_ Hc].
      assert (Hr := HeapFacts.chain_in_range _ _ _ Hc (Heap.heap_next s) (or_introl eq_refl)).
      repeat split; try lia. intros _. now left. }
  destruct Hlen as (Hgrow & Hin & Hwas).
  split; [exact Hadd |]. split; [exact Hlo |].
  split; [intros [[_ Hhi] Hout]; apply Hout, Hwas, Hhi |].
  split; [repeat split; try assumption; lia |].
  split; [exact Hsame |].
  split; [| split; [| exact Hwf']].
  - intros j [[Hj Hhi] Hout]. split.
    + repeat split; try lia. intro Hin'. apply Hout.
      destruct free; [destruct Hin' | now right].
    + apply Hother. intros ->. apply Hout, Hwas, Hhi.
  - intros j Hj. apply Hother. lia.
Qed.

Lemma addHeapObject_witness :
  exists idx s',
    Heap.addHeapObject (JStr "response") Heap.initial = Some (idx, s') /\
    132 <= idx /\
    ~ Heap.live Heap.initial [] idx /\
    Heap.live s' [] idx /\
    Heap.getObject idx s' = JStr "response" /\
    (forall j, Heap.live Heap.initial [] j ->
               Heap.live s' [] j /\ Heap.getObject j s' = Heap.getObject j Heap.initial) /\
    (forall j, j < 132 -> Heap.getObject j s' = Heap.getObject j Heap.initial) /\
    Heap.well_formed s' [].
Proof.
  exact (addHeapObject_gives_a_fresh_handle (JStr "response") Heap.initial []
           HeapFacts.well_formed_initial).
Defined.

(** X15.  Round trip: [takeObject] on the handle [addHeapObject] has just
    returned gives the object back and frees the handle again.  The heap is
    then as before the two calls, except that it has grown by one free slot
    if it had none. *)
Theorem takeObject_returns_what_addHeapObject_stored
    (obj : JsVal) (s s' : Heap.State) (free : list nat) (idx : nat) :
  Heap.well_formed s free ->
  Heap.addHeapObject obj s = Some (idx, s') ->
  fst (Heap.takeObject idx s') = obj /\
  Heap.heap_next (snd (Heap.takeObject idx s')) = Heap.heap_next s /\
  (Heap.heap_next s < length (Heap.heap s) -> snd (Heap.takeObject idx s') = s) /\
  (Heap.heap_next s = length (Heap.heap s) ->
   Heap.heap (snd (Heap.takeObject idx s'))
   = Heap.heap s ++ [JNum (Z.of_nat (length (Heap.heap s) + 1))]) /\
  Heap.well_formed (snd (Heap.takeObject idx s')) (idx :: tl free).
Proof.
  intros Hwf Hadd.
  destruct (HeapFacts.add_run obj s free Hwf)
    as (s0 & Hadd0 & Hwf' & Hlo & Hfresh & Hother & Hsame & Hcase).
  rewrite Hadd in Hadd0. injection Hadd0 as -> <-.
  unfold Heap.takeObject. cbn [fst snd].
  assert (Hlive : Heap.live s' (tl free) (Heap.heap_next s)).
  { split; [split; [exact Hlo |] | exact Hfresh].
    destruct free as [| i free'].
    - destruct Hcase as (E & -> & _). rewrite length_app. cbn. lia.
    - destruct Hcase as (-> & _ & -> & _). destruct Hwf as [_ Hc].
      apply (HeapFacts.chain_in_range _ _ _ Hc). now left. }
  destruct (HeapFacts.drop_run _ _ _ Hwf' Hlive) as (Hwf'' & Hheap & Hnext & _ & _).
  split; [exact Hsame |]. split; [exact Hnext |].
  split; [| split; [| exact Hwf'']].
  - intro Hlt. destruct free as [| i free'].
    + destruct Hcase as (E & _). lia.
    + destruct Hcase as (-> & Hs' & _ & Hn).
      apply HeapFacts.state_eq; [| exact Hnext].
      rewrite Hheap, Hs', HeapFacts.store_store. now apply HeapFacts.store_id.
  - intro Hfull. destruct free as [| i free'].
    + destruct Hcase as (_ & Hs' & Hn'). rewrite Hheap, Hs', Hn', Hfull.
      rewrite HeapFacts.store_pushed. now rewrite Nat.add_1_r.
    + exfalso. destruct Hcase as (-> & _). destruct Hwf as [_ Hc].
      assert (Hr := HeapFacts.chain_in_range _ _ _ Hc (Heap.heap_next s)
                      (or_introl eq_refl)). lia.
Qed.

Lemma takeObject_witness :
  fst (Heap.takeObject 132 (Heap.mkState (Heap.heap Heap.initial ++ [JStr "plan"]) 133))
  = JStr "plan"
  /\ Heap.heap_next
       (snd (Heap.takeObject 132 (Heap.mkState (Heap.heap Heap.initial ++ [JStr "plan"]) 133)))
     = 132.
Proof.
  destruct (takeObject_returns_what_addHeapObject_stored (JStr "plan") Heap.initial
              (Heap.mkState (Heap.heap Heap.initial ++ [JStr "plan"]) 133) [] 132
              HeapFacts.well_formed_initial eq_refl) as (H1 & H2 & _).
  split; [exact H1 | exact H2].
Defined.

(** X16.  The free list is a stack: the handle released last is the one
    [addHeapObject] hands out next, and the free list is then as it was
    before the release. *)
Theorem released_handle_is_reused_first
    (obj : JsVal) (s : Heap.State) (free : list nat) (idx : nat) :
  Heap.well_formed s free ->
  Heap.live s free idx ->
  Heap.addHeapObject obj (Heap.dropObject idx s)
  = Some (idx, Heap.mkState (Heap.store idx obj (Heap.heap s)) (Heap.heap_next s)).
Proof.
  intros Hwf Hlive.
  destruct (HeapFacts.drop_run idx s free Hwf Hlive) as (Hwf' & Hheap & Hnext & _ & _).
  destruct (HeapFacts.add_run obj _ _ Hwf')
    as (s' & Hadd & _ & _ & _ & _ & _ & _ & Hs' & _ & Hn).
  rewrite Hadd, Hnext. do 2 f_equal. apply HeapFacts.state_eq; cbn [Heap.heap Heap.heap_next].
  - rewrite Hs', Hheap. apply HeapFacts.store_store.
  - rewrite Hheap, HeapFacts.store_nth_error in Hn by apply Hlive.
    injection Hn as E. apply Nat2Z.inj in E. now symmetry.
Qed.

Lemma released_handle_witness :
  Heap.addHeapObject (JStr "b")
    (Heap.dropObject 132 (Heap.mkState (Heap.heap Heap.initial ++ [JStr "a"; JStr "c"]) 134))
  = Some (132, Heap.mkState (Heap.heap Heap.initial ++ [JStr "b"; JStr "c"]) 134).
Proof.
  apply (released_handle_is_reused_first (JStr "b")
           (Heap.mkState (Heap.heap Heap.initial ++ [JStr "a"; JStr "c"]) 134) [] 132).
  - split; [cbn; lia | exact (Heap.chain_end _)].
  - split; [cbn; lia | intros []].
Defined.

(** X17.  As long as wasm takes back only handles that are in use (or
    reserved ones, which [dropObject] ignores), the heap stays well-formed:
    the reserved slots keep what they held at the start -- 128..131 are
    [undefined], [null], [true], [false] -- and [addHeapObject] always finds
    an index in the slot it follows. *)
Theorem heap_invariant (s : Heap.State) (free : list nat) :
  Heap.reachable s free ->
  Heap.well_formed s free /\
  (forall j, j < 132 -> Heap.getObject j s = Heap.getObject j Heap.initial) /\
  forall obj, exists s', Heap.addHeapObject obj s = Some (Heap.heap_next s, s').
Proof.
  intro Hr.
  assert (H : Heap.well_formed s free /\
              forall j, j < 132 -> Heap.getObject j s = Heap.getObject j Heap.initial).
  { induction Hr as [| s free obj idx s' Hr [IHwf IHres] Hadd
                      | s free idx Hr [IHwf IHres] Hlive
                      | s free idx Hr [IHwf IHres] Hlt].
    - split; [exact HeapFacts.well_formed_initial | reflexivity].
    - destruct (HeapFacts.add_run obj s free IHwf)
        as (s0 & Hadd0 & Hwf' & Hlo & _ & Hother & _).
      rewrite Hadd in Hadd0. injection Hadd0 as -> <-.
      split; [exact Hwf' |]. intros j Hj. rewrite Hother by lia. now apply IHres.
    - destruct (HeapFacts.drop_run idx s free IHwf Hlive) as (Hwf' & _ & _ & _ & Hother).
      split; [exact Hwf' |]. intros j Hj. destruct Hlive as [[Hlo _] _].
      rewrite Hother by lia. now apply IHres.
    - unfold Heap.dropObject. apply Nat.ltb_lt in Hlt. rewrite Hlt. now split. }
  destruct H as [Hwf Hres]. split; [exact Hwf |]. split; [exact Hres |].
  intro obj. destruct (HeapFacts.add_run obj s free Hwf) as (s' & Hadd & _). eauto.
Qed.

Lemma heap_invariant_witness :
  Heap.getObject 129 (Heap.dropObject 132 (Heap.mkState (Heap.heap Heap.initial ++ [JNull]) 133))
  = JNull.
Proof.
  destruct (heap_invariant
              (Heap.dropObject 132 (Heap.mkState (Heap.heap Heap.initial ++ [JNull]) 133))
              [132]) as (_ & H & _).
  - apply (Heap.reach_take _ []).
    + apply (Heap.reach_add Heap.initial [] JNull 132); [constructor | reflexivity].
    + split; [cbn; lia | intros []].
  - now rewrite H by lia.
Defined.

(** * Arrays of handles *)

Module GlueFacts.
Import Heap Glue.

Lemma u32_small v : (0 <= v < 4294967296)%Z -> u32 v = v.
Proof. intro H. unfold u32. now apply Z.mod_small. Qed.

Lemma bytes_sum v :
  (0 <= v < 4294967296)%Z ->
  (v mod 256 + 256 * ((v / 256) mod 256) + 65536 * ((v / 65536) mod 256)
   + 16777216 * ((v / 16777216) mod 256))%Z = v.
Proof. intro H. Z.to_euclidean_division_equations. lia. Qed.

Section Patch.
Variables (m : Memory) (off : nat) (b0 b1 b2 b3 : Z).
Hypothesis Hin : off + 4 <= length m.

Let patched := firstn off m ++ [b0; b1; b2; b3] ++ skipn (off + 4) m.

Lemma patch_length : length patched = length m.
Proof.
  unfold patched. rewrite !length_app, length_firstn, length_skipn. cbn [length]. lia.
Qed.

Lemma patch_inside k :
  k < 4 -> nth (off + k) patched 0%Z = nth k [b0; b1; b2; b3] 0%Z.
Proof.
  intro Hk. unfold patched.
  rewrite app_nth2; rewrite length_firstn, Nat.min_l by lia; [| lia].
  replace (off + k - off) with k by lia. now rewrite app_nth1 by (cbn; lia).
Qed.

Lemma patch_outside j :
  j < off \/ off + 4 <= j -> nth j patched 0%Z = nth j m 0%Z.
Proof.
  unfold patched. intros [Hj | Hj].
  - rewrite app_nth1 by (rewrite length_firstn; lia).
    rewrite nth_firstn. apply Nat.ltb_lt in Hj. now rewrite Hj.
  - rewrite app_nth2; rewrite length_firstn, Nat.min_l by lia; [| lia].
    rewrite app_nth2 by (cbn [length]; lia). rewrite nth_skipn. cbn [length].
    f_equal. lia.
Qed.

End Patch.

(** A handle written is the handle read, its bytes lie lowest first, and the
    other bytes stay. *)
Lemma set_get off v m :
  off + 4 <= length m -> (0 <= v < 4294967296)%Z ->
  exists m',
    setUint32 off v m = Some m' /\
    length m' = length m /\
    getUint32 off m' = Some v /\
    little_endian m' off v /\
    (forall j, j < off \/ off + 4 <= j -> nth j m' 0%Z = nth j m 0%Z) /\
    forall off', off' + 4 <= off \/ off + 4 <= off' ->
                 getUint32 off' m' = getUint32 off' m.
Proof.
  intros Hin Hv. unfold setUint32.
  assert (E : (off + 4 <=? length m)%nat = true) by (apply Nat.leb_le; lia).
  rewrite E. eexists. split; [reflexivity |].
  rewrite (u32_small v Hv).
  split; [now apply patch_length |]. split; [| split; [| split]].
  - unfold getUint32. rewrite patch_length, E by assumption.
    rewrite <- (Nat.add_0_r off) at 1.
    rewrite !patch_inside by (assumption || lia). cbn [nth].
    f_equal. now apply bytes_sum.
  - unfold little_endian. rewrite <- (Nat.add_0_r off) at 1.
    rewrite !patch_inside by (assumption || lia). cbn [nth]. repeat split.
  - intros j Hj. now apply patch_outside.
  - intros off' Hoff. unfold getUint32. rewrite patch_length by assumption.
    destruct (off' + 4 <=? length m)%nat; [| reflexivity].
    rewrite !patch_outside by (assumption || lia). reflexivity.
Qed.

(** One [addHeapObject], as [pass_loop] needs it. *)
Lemma add_step obj s free :
  well_formed s free ->
  exists s',
    addHeapObject obj s = Some (heap_next s, s') /\
    well_formed s' (tl free) /\
    heap_next s <= length (heap s) /\
    length (heap s') <= length (heap s) + 1 /\
    live s' (tl free) (heap_next s) /\
    ~ live s free (heap_next s) /\
    getObject (heap_next s) s' = obj /\
    (forall j, live s free j -> live s' (tl free) j /\ getObject j s' = getObject j s) /\
    (forall j, live s' (tl free) j -> j = heap_next s \/ live s free j) /\
    (forall j, j < 132 -> getObject j s' = getObject j s).
Proof.
  intro Hwf.
  destruct (HeapFacts.add_run obj s free Hwf)
    as (s' & Hadd & Hwf' & Hlo & Hfresh & Hother & Hsame & Hcase).
  exists s'.
  assert (Hlen : length (heap s) <= length (heap s') <= length (heap s) + 1
                 /\ heap_next s < length (heap s')
                 /\ (heap_next s < length (heap s) -> In (heap_next s) free)
                 /\ forall j, live s' (tl free) j -> j = heap_next s \/ live s free j).
  { destruct free as [| i free'].
    - destruct Hcase as (E & Hs' & _). rewrite Hs', length_app. cbn [length].
      repeat split; try lia.
      intros j [[Hj Hhi] _]. rewrite Hs', length_app in Hhi. cbn [length] in Hhi.
      destruct (Nat.eq_dec j (heap_next s)) as [-> | Hne]; [now left | right].
      split; [lia | intros []].
    - destruct Hcase as (-> & _ & Hsame_len & _). rewrite Hsame_len.
      destruct Hwf as [_ Hc].
      assert (Hr := HeapFacts.chain_in_range _ _ _ Hc (heap_next s) (or_introl eq_refl)).
      repeat split; try lia.
      + intros _. now left.
      + intros j [[Hj Hhi] Hout]. rewrite Hsame_len in Hhi. cbn [tl] in Hout.
        destruct (Nat.eq_dec j (heap_next s)) as [-> | Hne]; [now left | right].
        split; [lia |]. intros [E | Hin]; [congruence | contradiction]. }
  destruct Hlen as (Hgrow & Hin & Hwas & Hback).
  split; [exact Hadd |]. split; [exact Hwf' |].
  split; [destruct Hwf as [_ Hc]; exact (HeapFacts.chain_start _ _ _ Hc) |].
  split; [lia |].
  split; [repeat split; try assumption; lia |].
  split; [intros [[_ Hhi] Hout]; apply Hout, Hwas, Hhi |].
  split; [exact Hsame |].
  split; [| split; [exact Hback |]].
  - intros j [[Hj Hhi] Hout]. split.
    + repeat split; try lia. intro Hin'. apply Hout.
      destruct free; [destruct Hin' | now right].
    + apply Hother. intros ->. apply Hout, Hwas, Hhi.
  - intros j Hj. apply Hother. lia.
Qed.

Lemma pass_loop_run : forall items ptr i s m free,
  well_formed s free ->
  (Z.of_nat (length (heap s) + length items) < 4294967296)%Z ->
  ptr + 4 * (i + length items) <= length m ->
  exists idxs s' m' free',
    pass_loop items ptr i s m = Done (s', m') /\
    well_formed s' free' /\
    length m' = length m /\
    length idxs = length items /\
    NoDup idxs /\
    (forall k, k < length items ->
               getUint32 (ptr + 4 * (i + k)) m' = Some (Z.of_nat (nth k idxs 0))) /\
    (forall k, k < length items ->
               little_endian m' (ptr + 4 * (i + k)) (Z.of_nat (nth k idxs 0))) /\
    (forall j, j < ptr + 4 * i \/ ptr + 4 * (i + length items) <= j ->
               nth j m' 0%Z = nth j m 0%Z) /\
    (forall idx, In idx idxs -> live s' free' idx /\ ~ live s free idx) /\
    map (fun idx => getObject idx s') idxs = items /\
    (forall j, live s free j -> live s' free' j /\ getObject j s' = getObject j s) /\
    (forall j, live s' free' j -> In j idxs \/ live s free j) /\
    (forall j, j < 132 -> getObject j s' = getObject j s).
Proof.
  induction items as [| item rest IH]; intros ptr i s m free Hwf Hsmall Hroom.
  - exists [], s, m, free. cbn [pass_loop length map].
    split; [reflexivity |]. split; [exact Hwf |]. split; [reflexivity |].
    split; [reflexivity |]. split; [constructor |]. split; [intros; lia |].
    split; [intros; lia |]. split; [reflexivity |]. split; [intros idx [] |].
    split; [reflexivity |]. split; [tauto |]. split; [tauto | reflexivity].
  - cbn [pass_loop length] in *.
    destruct (add_step item s free Hwf)
      as (s1 & Hadd & Hwf1 & Hnext & Hgrow & Hlive1 & Hnew & Hobj & Hkeep & Hback & Hres).
    rewrite Hadd.
    destruct (set_get (ptr + 4 * i) (Z.of_nat (heap_next s)) m)
      as (m1 & Hset & Hlen1 & Hget & Hle & Hbytes & Hrest); [lia | lia |].
    rewrite Hset.
    destruct (IH ptr (S i) s1 m1 (tl free) Hwf1) as
      (idxs & s' & m' & free' & Hrun & Hwf' & Hlen' & Hn & Hnd & Hread & Hle' & Hframe
       & Hlive & Hmap & Hkeep' & Hback' & Hres'); [lia | lia |].
    assert (Hbelow : forall off', off' + 4 <= ptr + 4 * S i ->
                                  getUint32 off' m' = getUint32 off' m1).
    { intros off' Hoff. unfold getUint32. rewrite Hlen'.
      destruct (off' + 4 <=? length m1)%nat; [| reflexivity].
      rewrite !Hframe by lia. reflexivity. }
    exists (heap_next s :: idxs), s', m', free'.
    split; [exact Hrun |]. split; [exact Hwf' |]. split; [lia |].
    split; [cbn [length]; lia |].
    assert (Hnotin : ~ In (heap_next s) idxs).
    { intro Hin. destruct (Hlive _ Hin) as [_ Hno]. exact (Hno Hlive1). }
    split; [now constructor |].
    split.
    { intros [| k] Hk.
      - cbn [nth]. rewrite Nat.add_0_r, Hbelow by lia. exact Hget.
      - cbn [nth]. replace (i + S k) with (S i + k) by lia. apply Hread. lia. }
    split.
    { intros [| k] Hk.
      - cbn [nth]. rewrite Nat.add_0_r. unfold little_endian in *.
        rewrite !Hframe by lia. exact Hle.
      - cbn [nth]. replace (i + S k) with (S i + k) by lia. apply Hle'. lia. }
    split.
    { intros j Hj. rewrite Hframe by lia. apply Hbytes. lia. }
    split.
    { intros idx [<- | Hin].
      - split; [now apply Hkeep' | exact Hnew].
      - destruct (Hlive _ Hin) as [Hl Hno]. split; [exact Hl |].
        intro Hwas. apply Hno. now apply Hkeep. }
    split.
    { cbn [map]. f_equal; [| exact Hmap].
      destruct (Hkeep' _ Hlive1) as [_ ->]. exact Hobj. }
    split.
    { intros j Hj. destruct (Hkeep j Hj) as [Hl1 E1]. destruct (Hkeep' j Hl1) as [Hl2 E2].
      split; [exact Hl2 | congruence]. }
    split.
    { intros j Hj. destruct (Hback' j Hj) as [Hin | Hl1]; [left; now right |].
      destruct (Hback j Hl1) as [-> | Hl]; [left; now left | now right]. }
    intros j Hj. rewrite Hres', Hres by assumption. reflexivity.
Qed.

Lemma get_loop_run : forall idxs i s m free,
  well_formed s free ->
  NoDup idxs ->
  (forall idx, In idx idxs -> live s free idx) ->
  (forall k, k < length idxs ->
             getUint32 (i + 4 * k) m = Some (Z.of_nat (nth k idxs 0))) ->
  exists s',
    get_loop (length idxs) i s m = Done (map (fun idx => getObject idx s) idxs, s') /\
    well_formed s' (rev idxs ++ free) /\
    (forall j, live s free j -> ~ In j idxs ->
               live s' (rev idxs ++ free) j /\ getObject j s' = getObject j s) /\
    (forall j, live s' (rev idxs ++ free) j -> live s free j /\ ~ In j idxs) /\
    (forall j, j < 132 -> getObject j s' = getObject j s).
Proof.
  induction idxs as [| idx rest IH]; intros i s m free Hwf Hnd Hlive Hread.
  - exists s. cbn [length get_loop map rev app].
    split; [reflexivity |]. split; [exact Hwf |]. split; [tauto |].
    split; [| reflexivity]. intros j Hj. split; [exact Hj | intros []].
  - cbn [length get_loop map].
    assert (H0 := Hread 0 ltac:(cbn; lia)). cbn [nth] in H0.
    rewrite Nat.mul_0_r, Nat.add_0_r in H0. rewrite H0, Nat2Z.id.
    unfold takeObject.
    assert (Hl : live s free idx) by (apply Hlive; now left).
    destruct (HeapFacts.drop_run idx s free Hwf Hl) as (Hwf1 & _ & _ & Hlen1 & Hother).
    inversion Hnd as [| ? ? Hnotin Hnd']; subst.
    assert (Hrest : forall r, In r rest -> live (dropObject idx s) (idx :: free) r
                                          /\ getObject r (dropObject idx s) = getObject r s).
    { intros r Hr. destruct (Hlive r (or_intror Hr)) as [Hrange Hout].
      assert (r <> idx) by (intros ->; contradiction).
      split; [| now apply Hother]. split; [lia |].
      intros [E | Hin]; [congruence | contradiction]. }
    destruct (IH (i + 4) (dropObject idx s) m (idx :: free) Hwf1 Hnd')
      as (s' & Hrun & Hwf' & Hkeep & Hback & Hres).
    { intros r Hr. now apply Hrest. }
    { intros k Hk. replace (i + 4 + 4 * k) with (i + 4 * S k) by lia.
      apply (Hread (S k)). cbn [length]. lia. }
    exists s'. rewrite Hrun.
    split.
    { do 3 f_equal. apply map_ext_in. intros r Hr. now apply Hrest. }
    cbn [rev]. rewrite <- app_assoc. cbn [app].
    split; [exact Hwf' |]. split; [| split].
    + intros j Hj Hnot. destruct Hj as [Hrange Hout].
      assert (Hne : j <> idx) by (intros ->; apply Hnot; now left).
      destruct (Hkeep j) as [Hl' E].
      * split; [lia |]. intros [E | Hin]; [congruence | contradiction].
      * intro Hin. apply Hnot. now right.
      * split; [exact Hl' |]. rewrite E. now apply Hother.
    + intros j Hj. destruct (Hback j Hj) as [[Hrange Hout] Hnot]. split.
      * split; [lia |]. intro Hin. apply Hout. now right.
      * intros [E | Hin]; [| contradiction]. apply Hout. now left.
    + intros j Hj. rewrite Hres by assumption. destruct Hl as [[Hlo _] _].
      apply Hother. lia.
Qed.

End GlueFacts.

(** X18.  Round trip of an array through wasm memory.  On a well-formed heap
    with fewer than 2^32 slots in the end, and with room for the handles at
    the pointer [malloc] returns, [passArrayJsValueToWasm0] puts every element
    on the heap under a handle of its own that was not in use, writes the
    handle of element [k] into the four bytes from [ptr + 4 * k] on, lowest
    byte first, touches no other byte, and leaves the length in
    [WASM_VECTOR_LEN].  [getArrayJsValueFromWasm0] at that pointer and length
    returns the array, element by element, and releases these handles: they
    are on the free list again, the last one read first, the handles in use
    are those that were in use before the array was passed, with their
    objects, and the reserved slots are unchanged. *)
Theorem array_passed_is_the_array_read
    (array : list JsVal) (malloc : nat -> nat -> Glue.Memory -> Z * Glue.Memory)
    (s : Glue.State) (free : list nat) :
  let allocated := malloc (length array * 4) 4 (Glue.memory s) in
  Heap.well_formed (Glue.objects s) free ->
  (Z.of_nat (length (Heap.heap (Glue.objects s)) + length array) < 4294967296)%Z ->
  Z.to_nat (Glue.u32 (fst allocated)) + 4 * length array <= length (snd allocated) ->
  exists ptr s1 s2 free2,
    Glue.passArrayJsValueToWasm0 array malloc s = Glue.Done (ptr, s1) /\
    Glue.WASM_VECTOR_LEN s1 = length array /\
    Glue.getArrayJsValueFromWasm0 (Z.of_nat ptr) (Glue.WASM_VECTOR_LEN s1) s1
    = Glue.Done (array, s2) /\
    Heap.well_formed (Glue.objects s2) free2 /\
    (forall j, Heap.live (Glue.objects s) free j ->
               Heap.live (Glue.objects s2) free2 j /\
               Heap.getObject j (Glue.objects s2) = Heap.getObject j (Glue.objects s)) /\
    (forall j, j < 132 ->
               Heap.getObject j (Glue.objects s2) = Heap.getObject j (Glue.objects s)) /\
    exists handles free1,
      ptr = Z.to_nat (Glue.u32 (fst allocated)) /\
      length handles = length array /\
      NoDup handles /\
      Heap.well_formed (Glue.objects s1) free1 /\
      (forall k, k < length array ->
         Glue.little_endian (Glue.memory s1) (ptr + 4 * k) (Z.of_nat (nth k handles 0)) /\
         Heap.live (Glue.objects s1) free1 (nth k handles 0) /\
         ~ Heap.live (Glue.objects s) free (nth k handles 0) /\
         Heap.getObject (nth k handles 0) (Glue.objects s1) = nth k array JUndefined) /\
      length (Glue.memory s1) = length (snd allocated) /\
      (forall j, j < ptr \/ ptr + 4 * length array <= j ->
                 nth j (Glue.memory s1) 0%Z = nth j (snd allocated) 0%Z) /\
      Glue.memory s2 = Glue.memory s1 /\
      free2 = rev handles ++ free1 /\
      (forall j, Heap.live (Glue.objects s2) free2 j -> Heap.live (Glue.objects s) free j).
Proof.
  cbn zeta. intros Hwf Hsmall Hroom.
  unfold Glue.passArrayJsValueToWasm0, Glue.getArrayJsValueFromWasm0.
  destruct (malloc (length array * 4) 4 (Glue.memory s)) as [r mem]. cbn [fst snd] in *.
  assert (Hptr : Z.to_nat (Glue.u32 (Z.of_nat (Z.to_nat (Glue.u32 r))))
                 = Z.to_nat (Glue.u32 r)).
  { assert (Hb : (0 <= Glue.u32 r < 4294967296)%Z) by (apply Z.mod_pos_bound; lia).
    rewrite Z2Nat.id by lia. now rewrite (GlueFacts.u32_small _ Hb). }
  set (ptr := Z.to_nat (Glue.u32 r)) in *.
  destruct (GlueFacts.pass_loop_run array ptr 0 (Glue.objects s) mem free Hwf Hsmall)
    as (idxs & h1 & m1 & free1 & Hpass & Hwf1 & Hlen1 & Hn & Hnd & Hread & Hle & Hframe
        & Hlive & Hmap & Hkeep & Hback & Hres); [cbn; lia |].
  rewrite Hpass.
  destruct (GlueFacts.get_loop_run idxs ptr h1 m1 free1 Hwf1 Hnd)
    as (h2 & Hget & Hwf2 & Hkeep2 & Hback2 & Hres2).
  { intros idx Hin. now apply Hlive. }
  { intros k Hk. rewrite <- (Hread k) by lia. reflexivity. }
  exists ptr, (Glue.mkState h1 m1 (length array)), (Glue.mkState h2 m1 (length array)),
    (rev idxs ++ free1).
  split; [reflexivity |]. cbn [Glue.WASM_VECTOR_LEN Glue.objects Glue.memory].
  split; [reflexivity |]. rewrite Hptr.
  rewrite <- Hn, Hget, Hmap.
  split; [reflexivity |]. split; [exact Hwf2 |]. split; [| split].
  - intros j Hj. destruct (Hkeep j Hj) as [Hl1 E1].
    destruct (Hkeep2 j Hl1) as [Hl2 E2].
    + intro Hin. destruct (Hlive j Hin) as [_ Hno]. exact (Hno Hj).
    + split; [exact Hl2 | congruence].
  - intros j Hj. rewrite Hres2, Hres by assumption. reflexivity.
  - exists idxs, free1.
    split; [reflexivity |]. split; [reflexivity |]. split; [exact Hnd |].
    split; [exact Hwf1 |]. split; [| split; [exact Hlen1 | split; [| split; [| split]]]].
    + intros k Hk. rewrite Hn in Hk.
      assert (Hin : In (nth k idxs 0) idxs) by (apply nth_In; lia).
      destruct (Hlive _ Hin) as [Hl Hno].
      split; [exact (Hle k Hk) |]. split; [exact Hl |]. split; [exact Hno |].
      rewrite <- Hmap.
      assert (E := map_nth (fun idx => Heap.getObject idx h1) idxs 0 k).
      cbv beta in E. rewrite <- E.
      apply nth_indep. rewrite length_map. lia.
    + intros j Hj. apply Hframe. rewrite Hn in Hj. cbn [Nat.add]. lia.
    + reflexivity.
    + reflexivity.
    + intros j Hj. destruct (Hback2 j Hj) as [Hl1 Hnot].
      destruct (Hback j Hl1) as [Hin | Hl]; [contradiction | exact Hl].
Qed.

Lemma array_round_trip_witness :
  let malloc := fun (size align : nat) (mem : Glue.Memory) => ((-4294967280)%Z, mem) in
  let s := Glue.mkState Heap.initial (repeat 0%Z 32) 0 in
  exists s1 s2,
    Glue.passArrayJsValueToWasm0 [JStr "a"; JNull] malloc s = Glue.Done (16, s1) /\
    firstn 8 (skipn 16 (Glue.memory s1)) = [132; 0; 0; 0; 133; 0; 0; 0]%Z /\
    Glue.getArrayJsValueFromWasm0 16 2 s1 = Glue.Done ([JStr "a"; JNull], s2) /\
    Heap.heap_next (Glue.objects s2) = 133.
Proof.
  destruct (array_passed_is_the_array_read [JStr "a"; JNull]
              (fun (size align : nat) (mem : Glue.Memory) => ((-4294967280)%Z, mem))
              (Glue.mkState Heap.initial (repeat 0%Z 32) 0) [])
    as (ptr & s1 & s2 & free2 & Hpass & Hlen & Hget & _).
  - exact HeapFacts.well_formed_initial.
  - reflexivity.
  - cbn. lia.
  - cbn in Hpass. injection Hpass as <- <-. cbn in Hget. injection Hget as <-.
    eexists. eexists. repeat split.
Defined.
